(** * Recova: a shallow embedding of the recommendation core

    The development follows the three Python modules that carry the
    recommendation logic:

    - [app/algorithms/collaborative.py]  (user-based collaborative filtering),
    - [app/algorithms/content_based.py]  (TF-IDF / category / price similarity),
    - [app/api/recommendations.py]       (the hybrid combiner).

    Numbers.  Matrix cells are integers ([Z]).  A Python / numpy [float] is
    modelled by [float] below: an exact rational ([Qc]) or one of the IEEE
    special values [+inf], [-inf], [nan].  The arithmetic of the
    recommenders on finite values is exact (its binary64 rounding is not
    modelled); the special values follow IEEE-754, which is what numpy
    produces for a division by zero.  The similarities scikit-learn computes
    enter as parameters; module [Concrete] supplies their binary64 values.
    The hybrid combiner takes its product and sum from a class
    [Arithmetic] and runs on the binary64 operations; the exact ones are
    its other instance. *)

From Stdlib Require Import ZArith List Bool Lia String Ascii.
From Stdlib Require Import QArith Qcanon.
From Stdlib Require Qcabs.
From Stdlib Require Import Permutation Sorted.
From Stdlib Require Import Reals Lra.
From Stdlib Require DecimalString.
From Stdlib Require PrimFloat SpecFloat FloatOps Uint63.
Import ListNotations.

Set Implicit Arguments.

(* ================================================================= *)
(** ** Floats: exact rationals extended with the IEEE special values *)

Module Float.

Inductive float : Type :=
| Fin (q : Qc)
| PInf
| NInf
| NaN.

Definition of_Z (z : Z) : float := Fin (Q2Qc (inject_Z z)).
Definition of_Q (q : Q) : float := Fin (Q2Qc q).

Definition zero : float := of_Z 0.
Definition one : float := of_Z 1.

Definition is_nan (x : float) : bool :=
  match x with NaN => true | _ => false end.

Definition is_finite (x : float) : bool :=
  match x with Fin _ => true | _ => false end.

Definition Qc_eqb (a b : Qc) : bool :=
  match (a ?= b)%Qc with Eq => true | _ => false end.

Definition Qc_ltb (a b : Qc) : bool :=
  match (a ?= b)%Qc with Lt => true | _ => false end.

Definition Qc_leb (a b : Qc) : bool :=
  match (a ?= b)%Qc with Gt => false | _ => true end.

Definition Qc_abs (a : Qc) : Qc :=
  if Qc_ltb a 0 then (- a)%Qc else a.

Definition Qc_max (a b : Qc) : Qc := if Qc_ltb a b then b else a.

(** Sign of a value; [None] for [nan].  There is no negative zero. *)
Definition sign (x : float) : option comparison :=
  match x with
  | Fin q => Some (q ?= 0)%Qc
  | PInf => Some Gt
  | NInf => Some Lt
  | NaN => None
  end.

Definition inf_of_sign (s : comparison) : float :=
  match s with Gt => PInf | Lt => NInf | Eq => NaN end.

Definition mul_sign (s t : comparison) : comparison :=
  match s, t with
  | Eq, _ | _, Eq => Eq
  | Gt, Gt | Lt, Lt => Gt
  | _, _ => Lt
  end.

Definition neg (x : float) : float :=
  match x with
  | Fin q => Fin (- q)%Qc
  | PInf => NInf
  | NInf => PInf
  | NaN => NaN
  end.

Definition add (x y : float) : float :=
  match x, y with
  | NaN, _ | _, NaN => NaN
  | Fin a, Fin b => Fin (a + b)%Qc
  | PInf, NInf | NInf, PInf => NaN
  | PInf, _ | _, PInf => PInf
  | NInf, _ | _, NInf => NInf
  end.

Definition sub (x y : float) : float := add x (neg y).

Definition mul (x y : float) : float :=
  match x, y with
  | Fin a, Fin b => Fin (a * b)%Qc
  | _, _ =>
      match sign x, sign y with
      | Some s, Some t => inf_of_sign (mul_sign s t)
      | _, _ => NaN
      end
  end.

(** [x / y] as numpy computes it on float64 arrays: a zero divisor raises
    nothing, it yields [nan] for [0/0] and an infinity otherwise. *)
Definition div (x y : float) : float :=
  match x, y with
  | NaN, _ | _, NaN => NaN
  | Fin a, Fin b =>
      if Qc_eqb b 0
      then inf_of_sign (a ?= 0)%Qc
      else Fin (a / b)%Qc
  | Fin _, _ => zero
  | _, Fin b =>
      match sign x with
      | Some s => inf_of_sign (mul_sign s (if Qc_ltb b 0 then Lt else Gt))
      | None => NaN
      end
  | _, _ => NaN
  end.

Definition abs (x : float) : float :=
  match x with
  | Fin q => Fin (Qc_abs q)
  | PInf | NInf => PInf
  | NaN => NaN
  end.

(** Python's [x < y]: false as soon as one side is [nan]. *)
Definition ltb (x y : float) : bool :=
  match x, y with
  | NaN, _ | _, NaN => false
  | Fin a, Fin b => Qc_ltb a b
  | NInf, NInf => false
  | NInf, _ => true
  | _, NInf => false
  | PInf, _ => false
  | _, PInf => true
  end.

Definition eqb (x y : float) : bool :=
  match x, y with
  | Fin a, Fin b => Qc_eqb a b
  | PInf, PInf | NInf, NInf => true
  | _, _ => false
  end.

Definition leb (x y : float) : bool := ltb x y || eqb x y.
Definition gtb (x y : float) : bool := ltb y x.
Definition geb (x y : float) : bool := leb y x.

(** The order numpy sorts by: as [<], with every [nan] after every number. *)
Definition sort_ltb (x y : float) : bool :=
  ltb x y || (negb (is_nan x) && is_nan y).

(** Python truthiness of a float: [0.0] is falsy, [nan] is truthy. *)
Definition truthy (x : float) : bool := negb (eqb x zero).

End Float.

Import Float.

Declare Scope pyfloat_scope.
Delimit Scope pyfloat_scope with py.
Bind Scope pyfloat_scope with float.
Infix "+" := add : pyfloat_scope.
Infix "-" := sub : pyfloat_scope.
Infix "*" := mul : pyfloat_scope.
Infix "/" := div : pyfloat_scope.

(** The product and the sum of two Python floats.  CPython computes them in
    binary64: [binary64], below, rounds as CPython does and is the instance
    the combiner runs on; [exact] computes on the rationals, without
    rounding. *)
Class Arithmetic : Type := mkArithmetic {
  fmul : float -> float -> float;
  fadd : float -> float -> float
}.

Definition exact : Arithmetic :=
  {| fmul := Float.mul; fadd := Float.add |}.

(* ================================================================= *)
(** ** Python and pandas containers used by the recommenders *)

Module Py.

Section Sorting.
Variables A K : Type.
Variable lt : K -> K -> bool.
Variable key : A -> K.

(** Stable descending insertion sort: [x] goes in front of the first
    element whose key is not above its own. *)
Fixpoint insert_desc (x : A) (l : list A) : list A :=
  match l with
  | [] => [x]
  | y :: l' =>
      if lt (key x) (key y) then y :: insert_desc x l' else x :: y :: l'
  end.

Definition sort_desc (l : list A) : list A :=
  fold_right insert_desc [] l.

(** Stable ascending insertion sort: [x] goes in front of the first
    element whose key is not below its own. *)
Fixpoint insert_asc (x : A) (l : list A) : list A :=
  match l with
  | [] => [x]
  | y :: l' =>
      if lt (key y) (key x) then y :: insert_asc x l' else x :: y :: l'
  end.

Definition sort_asc (l : list A) : list A :=
  fold_right insert_asc [] l.

(** [a] may stand before [b] in a descending list. *)
Definition ge_key (a b : A) : Prop := lt (key a) (key b) = false.

(** [a] may stand before [b] in an ascending list. *)
Definition le_key (a b : A) : Prop := lt (key b) (key a) = false.
End Sorting.

(** [sorted(l, key=key, reverse=True)] and [l.sort(key=key, reverse=True)]:
    descending and stable (equal keys keep their input order); the keys are
    floats compared with Python's [<].  With a [nan] among the keys Python's
    result depends on its merge strategy; the model is exact only without. *)
Definition sorted_desc {A : Type} (key : A -> float) (l : list A) : list A :=
  sort_desc ltb key l.

(** [a.argsort()]: the positions of [a] in ascending order of their values,
    in numpy's order ([nan] last); equal values keep their positions'
    order. *)
Definition argsort (a : list float) : list nat :=
  sort_asc sort_ltb (fun i => nth i a NaN) (seq 0 (List.length a)).

(** A [dict] with integer keys: insertion ordered, and an assignment to an
    existing key keeps the key's position. *)
Section Dict.
Variable V : Type.

Definition dict : Type := list (Z * V).

Fixpoint dict_get (d : dict) (k : Z) : option V :=
  match d with
  | [] => None
  | (k', v) :: d' => if Z.eqb k k' then Some v else dict_get d' k
  end.

Definition dict_mem (d : dict) (k : Z) : bool :=
  match dict_get d k with Some _ => true | None => false end.

Fixpoint dict_set (d : dict) (k : Z) (v : V) : dict :=
  match d with
  | [] => [(k, v)]
  | (k', v') :: d' =>
      if Z.eqb k k' then (k', v) :: d' else (k', v') :: dict_set d' k v
  end.

Definition dict_keys (d : dict) : list Z := map fst d.
End Dict.

(** [x in s] for a set (or list) of integers. *)
Definition mem (k : Z) (s : list Z) : bool := existsb (Z.eqb k) s.

(** Position of the first element satisfying [f]. *)
Fixpoint find_index {A : Type} (f : A -> bool) (l : list A) : option nat :=
  match l with
  | [] => None
  | x :: l' =>
      if f x then Some 0%nat
      else match find_index f l' with
           | Some i => Some (S i)
           | None => None
           end
  end.

(** Sorted list of the distinct values of [l] (a pandas axis built by
    [pivot_table]). *)
Fixpoint insert_unique (x : Z) (l : list Z) : list Z :=
  match l with
  | [] => [x]
  | y :: l' =>
      match Z.compare x y with
      | Lt => x :: y :: l'
      | Eq => y :: l'
      | Gt => y :: insert_unique x l'
      end
  end.

Definition sort_unique (l : list Z) : list Z := fold_right insert_unique [] l.

(** [str(z)] for an integer. *)
Definition str_of_Z (z : Z) : string :=
  DecimalString.NilZero.string_of_int (Z.to_int z).

End Py.

Import Py.

(* ================================================================= *)
(** ** The relational store ([app/models.py], [load_data.py]) *)

Record Product : Type := mkProduct {
  p_id : Z;
  p_title : string;
  p_category : string;
  p_price : Qc;                    (* DECIMAL(10,2) NOT NULL *)
  p_description : option string;
  p_image_url : option string;
  p_rating : option Qc;            (* DECIMAL(3,2), nullable *)
  p_review_count : option Z
}.

Record Interaction : Type := mkInteraction {
  i_id : Z;
  i_user_id : Z;
  i_product_id : Z;
  i_interaction_type : string;
  i_rating : option Z;             (* INTEGER CHECK (1 <= rating <= 5), nullable *)
  i_timestamp : Z
}.

Record Database : Type := mkDatabase {
  products : list Product;
  interactions : list Interaction
}.

(** The record every recommender returns (a Python [dict]); a key that a
    producer does not set reads as [None] through [dict.get]. *)
Record Rec : Type := mkRec {
  product_id : Z;
  title : string;
  category : string;
  price : float;
  rating : option float;
  review_count : option Z;
  similarity_score : option float;
  recommendation_score : option float;
  image_url : option string;
  interaction_count : option Z
}.

Definition picsum (pid : Z) : string :=
  ("https://picsum.photos/seed/" ++ str_of_Z pid ++ "/400/400")%string.

Definition set_similarity_score (r : Rec) (s : option float) : Rec :=
  mkRec (product_id r) (title r) (category r) (price r) (rating r)
        (review_count r) s (recommendation_score r) (image_url r)
        (interaction_count r).

(* ================================================================= *)
(** ** The SQL queries the recommenders send to the store *)

Module Store.

Local Open Scope Z_scope.

(** [COUNT(i.id)] over the left join of a product with its interactions. *)
Definition count_interactions (db : Database) (p : Product) : Z :=
  Z.of_nat (List.length (filter (fun i => Z.eqb (i_product_id i) (p_id p))
                           (interactions db))).

(** [ORDER BY interaction_count DESC, p.rating DESC LIMIT n]: PostgreSQL
    puts [NULL] first in a descending order.  SQL leaves the order of rows
    that tie on both keys open; here they keep the table order. *)
Definition rating_before (a b : option Qc) : bool :=
  match a, b with
  | None, Some _ => true
  | Some x, Some y => Qc_ltb y x
  | _, _ => false
  end.

Definition popular_before (db : Database) (a b : Product) : bool :=
  let ca := count_interactions db a in
  let cb := count_interactions db b in
  (cb <? ca) || ((ca =? cb) && rating_before (p_rating a) (p_rating b)).

Fixpoint insert_popular (db : Database) (x : Product) (l : list Product)
  : list Product :=
  match l with
  | [] => [x]
  | y :: l' =>
      if popular_before db y x then y :: insert_popular db x l'
      else x :: y :: l'
  end.

Definition popularity_rank (db : Database) (n : nat) : list Product :=
  firstn n (fold_right (insert_popular db) [] (products db)).

(** The query of [get_recommendations_for_user]: the user's interactions
    joined with the catalog, one row per product ([DISTINCT ON (p.id)],
    keeping the latest timestamp), most recent first, at most ten. *)
Definition last_seen (db : Database) (user_id : Z) (p : Product) : option Z :=
  match map i_timestamp
            (filter (fun i => Z.eqb (i_user_id i) user_id
                              && Z.eqb (i_product_id i) (p_id p))
                    (interactions db)) with
  | [] => None
  | t :: ts => Some (fold_left Z.max ts t)
  end.

Definition distinct_on_id (db : Database) (user_id : Z) : list (Product * Z) :=
  sort_asc Z.ltb (fun r => p_id (fst r))
    (flat_map (fun p => match last_seen db user_id p with
                        | Some t => [(p, t)]
                        | None => []
                        end) (products db)).

Definition recent_products (db : Database) (user_id : Z) : list Product :=
  map fst (firstn 10 (sort_desc Z.ltb snd (distinct_on_id db user_id))).

End Store.

Import Store.

(* ================================================================= *)
(** ** A state-and-exception monad for the recommender objects

    A method reads and updates the fields of [self] and may raise; [None]
    is a raised exception (the state reached so far is kept). *)

Module Method.

Definition M (S A : Type) : Type := S -> option A * S.

Definition ret {S A : Type} (a : A) : M S A := fun s => (Some a, s).

Definition raise {S A : Type} : M S A := fun s => (None, s).

Definition bind {S A B : Type} (c : M S A) (k : A -> M S B) : M S B :=
  fun s =>
    match c s with
    | (Some a, s') => k a s'
    | (None, s') => (None, s')
    end.

Definition get {S : Type} : M S S := fun s => (Some s, s).

Definition put {S : Type} (s : S) : M S unit := fun _ => (Some tt, s).

(** Lift a lookup that fails with [KeyError] / [IndexError]. *)
Definition lift {S A : Type} (o : option A) : M S A :=
  match o with Some a => ret a | None => raise end.

End Method.

Import Method.

Declare Scope method_scope.
Delimit Scope method_scope with method.
Notation "x <- c ;; k" := (bind c (fun x => k))
  (at level 61, c at next level, right associativity) : method_scope.
Notation "c ;;; k" := (bind c (fun _ => k))
  (at level 61, right associativity) : method_scope.

(** A labelled frame: pandas [DataFrame] with an integer index and integer
    column labels. *)
Record DataFrame (V : Type) : Type := mkDataFrame {
  index : list Z;
  columns : list Z;
  values : list (list V)
}.

Arguments mkDataFrame {V} _ _ _.

Section Frame.
Variable V : Type.

(** [df.loc[label]]: the row as a Series over the column labels. *)
Definition loc (df : DataFrame V) (label : Z) : option (list (Z * V)) :=
  match find_index (Z.eqb label) (index df) with
  | Some i =>
      match nth_error (values df) i with
      | Some row => Some (combine (columns df) row)
      | None => None
      end
  | None => None
  end.

Fixpoint column_values (rows : list (list V)) (j : nat) : option (list V) :=
  match rows with
  | [] => Some []
  | r :: rows' =>
      match nth_error r j, column_values rows' j with
      | Some v, Some vs => Some (v :: vs)
      | _, _ => None
      end
  end.

(** [df[label]]: the column as a Series over the index labels. *)
Definition col (df : DataFrame V) (label : Z) : option (list (Z * V)) :=
  match find_index (Z.eqb label) (columns df) with
  | Some j =>
      match column_values (values df) j with
      | Some vs => Some (combine (index df) vs)
      | None => None
      end
  | None => None
  end.
(** [df.loc[u, v]]. *)
Definition at_ (df : DataFrame V) (u v : Z) : option V :=
  match loc df u with
  | Some row => dict_get row v
  | None => None
  end.
End Frame.

(* ================================================================= *)
(** ** [app/algorithms/collaborative.py] *)

Module Collaborative.

Local Open Scope Z_scope.
Local Open Scope method_scope.

(** The [CASE] of the SQL query of [build_user_item_matrix]; there is no
    [ELSE], so any other interaction type gives [NULL]. *)
Definition score (i : Interaction) : option Z :=
  if String.eqb (i_interaction_type i) "purchase" then Some 5
  else if String.eqb (i_interaction_type i) "rating" then i_rating i
  else if String.eqb (i_interaction_type i) "view" then Some 1
  else None.

(** [pd.read_sql(query, engine)]: one row [(user_id, product_id, score)] per
    interaction. *)
Definition read_scores (db : Database) : list (Z * Z * option Z) :=
  map (fun i => (i_user_id i, i_product_id i, score i)) (interactions db).

Definition is_scored (r : Z * Z * option Z) : bool :=
  match r with (_, _, Some _) => true | _ => false end.

(** The non-null scores of one (user, product) group. *)
Definition group_scores (rows : list (Z * Z * option Z)) (u p : Z) : list Z :=
  flat_map (fun r =>
              match r with
              | (u', p', Some s) => if Z.eqb u u' && Z.eqb p p' then [s] else []
              | _ => []
              end) rows.

(** [aggfunc='max'] on a group; a group without a non-null score is dropped. *)
Definition agg_max (l : list Z) : option Z :=
  match l with
  | [] => None
  | x :: l' => Some (fold_left Z.max l' x)
  end.

(** The cell of a (user, product) pair: the aggregate of its group, or
    [fill_value=0]. *)
Definition cell_value (rows : list (Z * Z * option Z)) (u p : Z) : Z :=
  match agg_max (group_scores rows u p) with
  | Some m => m
  | None => 0
  end.

(** [pivot_table(index='user_id', columns='product_id', values='score',
    aggfunc='max', fill_value=0)]. *)
Definition pivot_table (rows : list (Z * Z * option Z)) : DataFrame Z :=
  let scored := filter is_scored rows in
  let idx := sort_unique (map (fun r => fst (fst r)) scored) in
  let cols := sort_unique (map (fun r => snd (fst r)) scored) in
  mkDataFrame idx cols (map (fun u => map (cell_value rows u) cols) idx).

Record CollaborativeFilteringRecommender : Type := mkCF {
  engine : Database;
  user_item_matrix : option (DataFrame Z);
  user_similarity_matrix : option (DataFrame float)
}.

Definition init (db : Database) : CollaborativeFilteringRecommender :=
  mkCF db None None.

Definition CF : Type := CollaborativeFilteringRecommender.

Definition build_user_item_matrix : M CF (DataFrame Z) :=
  fun self =>
    let m := pivot_table (read_scores (engine self)) in
    (Some m, mkCF (engine self) (Some m) (user_similarity_matrix self)).

(** [series.sort_values(ascending=False)]: stable, [nan] last. *)
Definition sort_values_desc (s : list (Z * float)) : list (Z * float) :=
  sorted_desc snd (filter (fun e => negb (is_nan (snd e))) s)
  ++ filter (fun e => is_nan (snd e)) s.

(** The products of a matrix row with a positive cell:
    [row[row > 0]]. *)
Definition positive (row : list (Z * Z)) : list (Z * Z) :=
  filter (fun e => 0 <? snd e) row.

(** [float(x) if x else None]. *)
Definition float_or_none (q : option Qc) : option float :=
  match q with
  | Some r => if Qc_eqb r 0 then None else Some (Fin r)
  | None => None
  end.

(** [n], here and below, is a number of recommendations: a natural
    number (the serving layer passes [1 <= limit <= 50]). *)
Definition _get_popular_products (n : nat) : M CF (list Rec) :=
  self <- get ;;
  ret (map (fun p =>
              mkRec (p_id p) (p_title p) (p_category p) (Fin (p_price p))
                    (float_or_none (p_rating p)) None None None
                    (Some (picsum (p_id p))) None)
           (popularity_rank (engine self) n)).

(** [cosine_similarity(X)] of scikit-learn, given the similarity [cosine] of
    two rows: the matrix of all pairwise similarities.  scikit-learn rejects
    an array without samples or without features. *)
Definition cosine_similarity {V : Type} (cosine : list Z -> list Z -> V)
           (X : list (list Z)) : option (list (list V)) :=
  match X with
  | [] => None
  | [] :: _ => None
  | _ => Some (map (fun a => map (cosine a) X) X)
  end.

(** The frame [calculate_user_similarity] builds from the matrix: the
    similarities, indexed by user id on both axes. *)
Definition similarity_frame {V : Type} (cosine : list Z -> list Z -> V)
           (m : DataFrame Z) : option (DataFrame V) :=
  match cosine_similarity cosine (values m) with
  | Some k => Some (mkDataFrame (index m) (index m) k)
  | None => None
  end.

Section WithCosine.

(** [sklearn.metrics.pairwise.cosine_similarity] is not part of the
    repository: the similarity it computes for two matrix rows is a
    parameter.  Module [Cosine] below gives its exact value. *)
Variable cosine : list Z -> list Z -> float.

Definition calculate_user_similarity : M CF (DataFrame float) :=
  self <- get ;;
  m <- match user_item_matrix self with
       | None => build_user_item_matrix
       | Some m => ret m
       end ;;
  df <- lift (similarity_frame cosine m) ;;
  self <- get ;;
  put (mkCF (engine self) (user_item_matrix self) (Some df)) ;;;
  ret df.

(** [sort_values(ascending=False)[1:n+1]]: the slice drops the first entry
    of the sorted column. *)
Definition get_similar_users (user_id : Z) (n : nat)
  : M CF (list (Z * float)) :=
  self <- get ;;
  sim <- match user_similarity_matrix self with
         | None => calculate_user_similarity
         | Some sim => ret sim
         end ;;
  if negb (mem user_id (index sim)) then ret []
  else
    user_similarities <- lift (col sim user_id) ;;
    ret (skipn 1 (firstn (n + 1) (sort_values_desc user_similarities))).

(** One pass of the inner loop of [get_recommendations]. *)
Definition add_weighted (user_products : list Z) (similarity : float)
           (product_scores : dict float) (e : Z * Z) : dict float :=
  let (pid, sc) := e in
  if mem pid user_products then product_scores
  else
    let weighted_score := (of_Z sc * similarity)%py in
    match dict_get product_scores pid with
    | Some old => dict_set product_scores pid (old + weighted_score)%py
    | None => dict_set product_scores pid weighted_score
    end.

(** The outer loop; [None] when [loc] raises [KeyError]. *)
Fixpoint accumulate (m : DataFrame Z) (user_products : list Z)
         (similar_users : list (Z * float)) (product_scores : dict float)
  : option (dict float) :=
  match similar_users with
  | [] => Some product_scores
  | (similar_user_id, similarity) :: rest =>
      match loc m similar_user_id with
      | Some row =>
          accumulate m user_products rest
            (fold_left (add_weighted user_products similarity)
                       (positive row) product_scores)
      | None => None
      end
  end.

(** The guard that opens [get_recommendations]: build both matrices
    unless both are there. *)
Definition ensure_matrices : M CF unit :=
  self <- get ;;
  match user_item_matrix self, user_similarity_matrix self with
  | Some _, Some _ => ret tt
  | _, _ => build_user_item_matrix ;;; calculate_user_similarity ;;; ret tt
  end.

Definition score_of (r : Rec) : float :=
  match recommendation_score r with Some x => x | None => NaN end.

Definition get_recommendations (user_id : Z) (n : nat) (min_similarity : float)
  : M CF (list Rec) :=
  ensure_matrices ;;;
  self <- get ;;
  m <- lift (user_item_matrix self) ;;
  if negb (mem user_id (index m)) then _get_popular_products n
  else
    similar_users <- get_similar_users user_id 50 ;;
    let similar_users :=
      filter (fun e => geb (snd e) min_similarity) similar_users in
    match similar_users with
    | [] => _get_popular_products n
    | _ =>
        row <- lift (loc m user_id) ;;
        let user_products := map fst (positive row) in
        product_scores <- lift (accumulate m user_products similar_users []) ;;
        let sorted_products := firstn n (sorted_desc snd product_scores) in
        match sorted_products with
        | [] => _get_popular_products n
        | _ =>
            let product_ids := map fst sorted_products in
            let fetched :=
              filter (fun p => mem (p_id p) product_ids)
                     (products (engine self)) in
            recommendations <-
              lift (fold_right
                      (fun p acc =>
                         match dict_get sorted_products (p_id p), acc with
                         | Some sc, Some l =>
                             Some (mkRec (p_id p) (p_title p) (p_category p)
                                         (Fin (p_price p))
                                         (float_or_none (p_rating p))
                                         (p_review_count p) None (Some sc)
                                         (Some (picsum (p_id p))) None :: l)
                         | _, _ => None
                         end)
                      (Some []) fetched) ;;
            ret (sorted_desc score_of recommendations)
        end
    end.

End WithCosine.

End Collaborative.

(* ================================================================= *)
(** ** [app/algorithms/content_based.py] *)

Module ContentBased.

Local Open Scope method_scope.

(** [products_df]: the catalog rows, and the [combined_features] column that
    [build_tfidf_matrix] adds to the frame. *)
Record ProductsFrame : Type := mkFrame {
  rows : list Product;
  combined_features : option (list string)
}.

Definition fillna (d : option string) : string :=
  match d with Some s => s | None => EmptyString end.

Definition combine_features (p : Product) : string :=
  (p_title p ++ " " ++ p_category p ++ " " ++ fillna (p_description p))%string.

(** Element-wise combination of two one-dimensional numpy arrays, with
    numpy's broadcasting; [None] is the [ValueError] on a shape mismatch. *)
Fixpoint zip_with (f : float -> float -> float) (a b : list float)
  : list float :=
  match a, b with
  | x :: a', y :: b' => f x y :: zip_with f a' b'
  | _, _ => []
  end.

Definition np_binop (f : float -> float -> float) (a b : list float)
  : option (list float) :=
  if Nat.eqb (List.length a) (List.length b) then Some (zip_with f a b)
  else match a, b with
       | [x], _ => Some (map (f x) b)
       | _, [y] => Some (map (fun x => f x y) a)
       | _, _ => None
       end.

(** [scalar * array]. *)
Definition np_scale (c : float) (a : list float) : list float :=
  map (fun x => (c * x)%py) a.

(** [products_df['price'].max()]. *)
Definition price_max (l : list Product) : float :=
  match l with
  | [] => NaN
  | p :: ps => Fin (fold_left Qc_max (map p_price ps) (p_price p))
  end.

Definition w_text : float := of_Q (6 # 10).
Definition w_category : float := of_Q (3 # 10).
Definition w_price : float := of_Q (1 # 10).

(** The three components of [calculate_similarity] for the reference row
    [ref] against a row [p]. *)
Definition category_sim (ref p : Product) : float :=
  if String.eqb (p_category p) (p_category ref) then one else zero.

Definition price_sim (max_price_diff : float) (ref p : Product) : float :=
  (one - abs (Fin (p_price p) - Fin (p_price ref)) / max_price_diff)%py.

Section WithSklearn.

(** [TfidfVectorizer] and [cosine_similarity] come from scikit-learn:
    fitting a corpus yields a vocabulary (or raises on an empty one), a
    fitted vectorizer maps a document to its weight vector, and the cosine
    of two weight vectors is a finite number. *)
Variable vocabulary : Type.
Variable fit : list string -> option vocabulary.
Variable transform : vocabulary -> string -> list Qc.
Variable cosine : list Qc -> list Qc -> Qc.

(** A [TfidfVectorizer] object: as constructed, or fitted to a
    vocabulary. *)
Inductive TfidfVectorizer : Type :=
| Unfitted
| Fitted (v : vocabulary).

Record ContentBasedRecommender : Type := mkCB {
  engine : Database;
  products_df : option ProductsFrame;
  tfidf_matrix : option (list (list Qc));
  vectorizer : option TfidfVectorizer
}.

Definition init (db : Database) : ContentBasedRecommender :=
  mkCB db None None None.

Definition CB : Type := ContentBasedRecommender.

Definition load_products : M CB ProductsFrame :=
  fun self =>
    let df := mkFrame (products (engine self)) None in
    (Some df, mkCB (engine self) (Some df) (tfidf_matrix self)
                   (vectorizer self)).

(** [fit_transform] is [fit] followed by [transform] on every document.
    The new vectorizer is stored before it is fitted, and [fit_transform]
    fits it in place: when the fit raises, the recommender keeps the
    unfitted vectorizer. *)
Definition build_tfidf_matrix : M CB (list (list Qc)) :=
  self <- get ;;
  df <- match products_df self with
        | None => load_products
        | Some df => ret df
        end ;;
  let docs := map combine_features (rows df) in
  self <- get ;;
  put (mkCB (engine self) (Some (mkFrame (rows df) (Some docs)))
            (tfidf_matrix self) (vectorizer self)) ;;;
  self <- get ;;
  put (mkCB (engine self) (products_df self) (tfidf_matrix self)
            (Some Unfitted)) ;;;
  v <- lift (fit docs) ;;
  let m := map (transform v) docs in
  self <- get ;;
  put (mkCB (engine self) (products_df self) (Some m) (Some (Fitted v))) ;;;
  ret m.

(** An index outside the catalog raises: the slice of [tfidf_matrix] is
    empty, which [cosine_similarity] rejects, and [iloc] raises
    [IndexError]. *)
Definition calculate_similarity (product_idx : nat) : M CB (list float) :=
  self <- get ;;
  df <- lift (products_df self) ;;
  tfidf <- lift (tfidf_matrix self) ;;
  ref_row <- lift (nth_error tfidf product_idx) ;;
  let cosine_sim := map (fun r => Fin (cosine ref_row r)) tfidf in
  ref <- lift (nth_error (rows df) product_idx) ;;
  let category_sim := map (category_sim ref) (rows df) in
  let max_price_diff := price_max (rows df) in
  let price_sim := map (price_sim max_price_diff ref) (rows df) in
  s <- lift (np_binop add (np_scale w_text cosine_sim)
                          (np_scale w_category category_sim)) ;;
  lift (np_binop add s (np_scale w_price price_sim)).

Definition entry (product : Product) (score : float) : Rec :=
  mkRec (p_id product) (p_title product) (p_category product)
        (Fin (p_price product))
        (option_map Fin (p_rating product))
        None (Some score) None
        (Some (match p_image_url product with
               | Some u => u
               | None => picsum (p_id product)
               end))
        None.

(** The loop of [get_similar_products] over [similar_indices]; [None] is an
    [IndexError]. *)
Fixpoint walk (df : list Product) (similarity_scores : list float)
         (product_idx n : nat) (min_score : float)
         (similar_indices : list nat) (recommendations : list Rec)
  : option (list Rec) :=
  match similar_indices with
  | [] => Some recommendations
  | idx :: rest =>
      if Nat.eqb idx product_idx
      then walk df similarity_scores product_idx n min_score rest
                recommendations
      else
        match nth_error similarity_scores idx, nth_error df idx with
        | Some score, Some product =>
            if ltb score min_score then Some recommendations
            else
              let recommendations :=
                recommendations ++ [entry product score] in
              if Nat.leb n (List.length recommendations)
              then Some recommendations
              else walk df similarity_scores product_idx n min_score rest
                        recommendations
        | _, _ => None
        end
  end.

(** The guard that opens [get_similar_products]: load the catalog and
    build the index unless both are there. *)
Definition ensure_loaded : M CB unit :=
  self <- get ;;
  match products_df self, tfidf_matrix self with
  | Some _, Some _ => ret tt
  | _, _ => load_products ;;; build_tfidf_matrix ;;; ret tt
  end.

Definition get_similar_products (product_id : Z) (n : nat) (min_score : float)
  : M CB (list Rec) :=
  ensure_loaded ;;;
  self <- get ;;
  df <- lift (products_df self) ;;
  match find_index (fun p => Z.eqb (p_id p) product_id) (rows df) with
  | None => ret []
  | Some product_idx =>
      similarity_scores <- calculate_similarity product_idx ;;
      let similar_indices := rev (argsort similarity_scores) in
      lift (walk (rows df) similarity_scores product_idx n min_score
                 similar_indices [])
  end.

(** The [rating] column of the frame [pd.read_sql] returns: floats, with
    [nan] for a missing rating, when some row has a rating; [None] in
    every row when none has. *)
Definition rating_column (popular : list Product) (p : Product)
  : option float :=
  if forallb (fun q => match p_rating q with
                       | None => true
                       | Some _ => false
                       end) popular
  then None
  else Some (match p_rating p with
             | Some r => Fin r
             | None => NaN
             end).

(** [popular.to_dict('records')]. *)
Definition get_popular_products (n : nat) : M CB (list Rec) :=
  self <- get ;;
  let popular := popularity_rank (engine self) n in
  ret (map (fun p =>
              mkRec (p_id p) (p_title p) (p_category p) (Fin (p_price p))
                    (rating_column popular p)
                    None None None (p_image_url p)
                    (Some (count_interactions (engine self) p)))
           popular).

(** [all_recommendations[pid]['similarity_score'] += ...] or a first
    assignment; [None] is the [TypeError] of adding to a missing score. *)
Definition merge (all_recommendations : option (dict Rec)) (rec : Rec)
  : option (dict Rec) :=
  match all_recommendations with
  | None => None
  | Some d =>
      match dict_get d (product_id rec) with
      | Some old =>
          match similarity_score old, similarity_score rec with
          | Some a, Some b =>
              Some (dict_set d (product_id rec)
                             (set_similarity_score old (Some (a + b)%py)))
          | _, _ => None
          end
      | None => Some (dict_set d (product_id rec) rec)
      end
  end.

Definition default_min_score : float := of_Q (1 # 10).

(** The loop over the user's recent products. *)
Fixpoint gather (user_products : list Product) (d : dict Rec)
  : M CB (dict Rec) :=
  match user_products with
  | [] => ret d
  | product :: rest =>
      similar <- get_similar_products (p_id product) 20 default_min_score ;;
      d' <- lift (fold_left merge similar (Some d)) ;;
      gather rest d'
  end.

Definition sim_of (r : Rec) : float :=
  match similarity_score r with Some x => x | None => NaN end.

Definition get_recommendations_for_user (user_id : Z) (n : nat)
  : M CB (list Rec) :=
  self <- get ;;
  let user_products := recent_products (engine self) user_id in
  match user_products with
  | [] => get_popular_products n
  | _ =>
      all_recommendations <- gather user_products [] ;;
      let user_product_ids := map p_id user_products in
      let filtered_recs :=
        map snd (filter (fun e => negb (mem (fst e) user_product_ids))
                        all_recommendations) in
      ret (firstn n (sorted_desc sim_of filtered_recs))
  end.

End WithSklearn.

Arguments Unfitted {vocabulary}.

End ContentBased.

(* ================================================================= *)
(** ** [app/api/recommendations.py]: the hybrid combiner *)

Module Hybrid.

(** [x or 0] on an optional score: [None] and [0.0] both give [0]. *)
Definition or_0 (x : option float) : float :=
  match x with
  | Some v => if truthy v then v else zero
  | None => zero
  end.

Definition w_collab : float := of_Q (6 # 10).
Definition w_content : float := of_Q (4 # 10).

Section WithArithmetic.

(** The [*] and [+] of the combiner. *)
Context {A : Arithmetic}.

(** [{rec.get('product_id', rec.get('id')): rec for rec in recs}]. *)
Definition by_product_id (recs : list Rec) : dict Rec :=
  fold_left (fun d rec => dict_set d (product_id rec) rec) recs [].

(** An entry of [hybrid_scores]: [{'score': ..., 'data': ...}]. *)
Record Scored : Type := mkScored {
  score : float;
  data : Rec
}.

(** [(rec.get('recommendation_score') or 0) * 0.6]. *)
Definition collab_part (rec : Rec) : float :=
  fmul (or_0 (recommendation_score rec)) w_collab.

(** [(rec.get('similarity_score') or 0) * 0.4]. *)
Definition content_part (rec : Rec) : float :=
  fmul (or_0 (similarity_score rec)) w_content.

Definition add_collab (hybrid_scores : dict Scored) (e : Z * Rec)
  : dict Scored :=
  let (pid, rec) := e in
  dict_set hybrid_scores pid (mkScored (collab_part rec) rec).

Definition add_content (hybrid_scores : dict Scored) (e : Z * Rec)
  : dict Scored :=
  let (pid, rec) := e in
  let sc := content_part rec in
  match dict_get hybrid_scores pid with
  | Some h =>
      dict_set hybrid_scores pid (mkScored (fadd (score h) sc) (data h))
  | None => dict_set hybrid_scores pid (mkScored sc rec)
  end.

(** The score of an entry is a finite number. *)
Definition finite_entry (h : Scored) : Prop := is_finite (score h) = true.

Definition hybrid_scores (content_recs collab_recs : list Rec) : dict Scored :=
  let content_dict := by_product_id content_recs in
  let collab_dict := by_product_id collab_recs in
  fold_left add_content content_dict (fold_left add_collab collab_dict []).

Definition sorted_recs (content_recs collab_recs : list Rec) (limit : nat)
  : list (Z * Scored) :=
  firstn limit
         (sorted_desc (fun e => score (snd e))
                      (hybrid_scores content_recs collab_recs)).

Definition _combine_recommendations (content_recs collab_recs : list Rec)
           (limit : nat) : list Rec :=
  map (fun item => data (snd item)) (sorted_recs content_recs collab_recs limit).

End WithArithmetic.

End Hybrid.

(* ================================================================= *)
(** ** The exact value of [cosine_similarity] on the user-item matrix

    scikit-learn computes [normalize(X) @ normalize(X).T], where [normalize]
    divides every row by its Euclidean norm and leaves a zero row as it is.
    Over the reals: *)

Module Cosine.

Local Open Scope R_scope.

Definition dot (a b : list R) : R :=
  fold_right Rplus 0 (map (fun p => fst p * snd p) (combine a b)).

Definition norm (a : list R) : R := sqrt (dot a a).

(** A row of integers is zero exactly when its squared norm is. *)
Definition is_zero_row (a : list Z) : bool :=
  forallb (Z.eqb 0) a.

Definition normalize (a : list Z) : list R :=
  let r := map IZR a in
  if is_zero_row a then r else map (fun x => x / norm r) r.

Definition cosine (a b : list Z) : R := dot (normalize a) (normalize b).

End Cosine.

(* ================================================================= *)
(** ** Concrete scikit-learn functions

    They make the recommenders runnable.  [Binary64.cosine] is
    [cosine_similarity] on two integer rows as scikit-learn computes it in
    binary64: each row is divided by its Euclidean norm (a zero norm is
    replaced by 1) and the dot product of the two results is taken; Rocq's
    primitive floats give every operation its IEEE-754 rounding, and the
    result, a binary64 number, is read back as the rational it denotes.
    Sums run left to right.  [Bag] is a term-count vectorizer over whole
    documents: two documents have cosine 1 when they are equal and 0
    otherwise. *)

Module Concrete.

Local Open Scope Z_scope.

Module Binary64.

Definition of_Z (z : Z) : PrimFloat.float :=
  if z <? 0 then PrimFloat.opp (PrimFloat.of_uint63 (Uint63.of_Z (- z)))
  else PrimFloat.of_uint63 (Uint63.of_Z z).

(** The value of a binary64 number. *)
Definition to_float (x : PrimFloat.float) : float :=
  match FloatOps.Prim2SF x with
  | SpecFloat.S754_zero _ => zero
  | SpecFloat.S754_infinity false => PInf
  | SpecFloat.S754_infinity true => NInf
  | SpecFloat.S754_nan => NaN
  | SpecFloat.S754_finite s m e =>
      let v := if 0 <=? e then inject_Z (Zpos m * 2 ^ e)
               else Qmake (Zpos m) (Z.to_pos (2 ^ (- e))) in
      of_Q (if s then Qopp v else v)
  end.

Definition dot (a b : list PrimFloat.float) : PrimFloat.float :=
  fold_left (fun acc p => PrimFloat.add acc (PrimFloat.mul (fst p) (snd p)))
            (combine a b) PrimFloat.zero.

Definition normalize (a : list PrimFloat.float) : list PrimFloat.float :=
  let norm := PrimFloat.sqrt (dot a a) in
  let norm := if PrimFloat.eqb norm PrimFloat.zero then PrimFloat.one
              else norm in
  map (fun x => PrimFloat.div x norm) a.

Definition cosine (a b : list Z) : float :=
  to_float (dot (normalize (map of_Z a)) (normalize (map of_Z b))).

(** The binary64 number nearest to a rational [n / d] (ties to even): the
    IEEE quotient of the two integers. *)
Definition nearest (negative : bool) (n d : positive) : PrimFloat.float :=
  FloatOps.SF2Prim
    (SpecFloat.SFdiv 53 1024 (SpecFloat.S754_finite negative n 0)
                     (SpecFloat.S754_finite false d 0)).

(** A float as a binary64 number: itself when it is one, the nearest one
    otherwise. *)
Definition of_float (x : float) : PrimFloat.float :=
  match x with
  | Fin q =>
      match Qnum (this q) with
      | Z0 => PrimFloat.zero
      | Zpos n => nearest false n (Qden (this q))
      | Zneg n => nearest true n (Qden (this q))
      end
  | PInf => PrimFloat.infinity
  | NInf => PrimFloat.neg_infinity
  | NaN => PrimFloat.nan
  end.

(** [x * y] and [x + y] in binary64. *)
Definition mul (x y : float) : float :=
  to_float (PrimFloat.mul (of_float x) (of_float y)).

Definition add (x y : float) : float :=
  to_float (PrimFloat.add (of_float x) (of_float y)).

End Binary64.

Definition cosine_binary64 : list Z -> list Z -> float := Binary64.cosine.

Module Bag.
Definition vocabulary : Type := list string.

Definition fit (docs : list string) : option vocabulary :=
  match docs with
  | [] => None
  | _ => Some docs
  end.

Definition transform (v : vocabulary) (doc : string) : list Qc :=
  map (fun w => if String.eqb w doc then 1%Qc else 0%Qc) v.

Definition cosine (a b : list Qc) : Qc :=
  if existsb (fun p => negb (Qc_eqb (fst p * snd p) 0)) (combine a b)
  then 1%Qc else 0%Qc.
End Bag.

(** A float as a rational, for reading results ([None] for a special
    value). *)
Definition show (x : float) : option Q :=
  match x with Fin q => Some (this q) | _ => None end.

End Concrete.

(** The arithmetic of CPython. *)
#[global] Instance binary64 : Arithmetic :=
  {| fmul := Concrete.Binary64.mul; fadd := Concrete.Binary64.add |}.

(* ================================================================= *)
(** ** Specification predicates *)

Module Specs.

Import Collaborative.
Local Open Scope Z_scope.

(** What a cell holds: the greatest derived score of the pair's
    interactions, or 0 when the pair has no scored interaction. *)
Definition cell_spec (l : list Interaction) (u p c : Z) : Prop :=
  ((exists i, In i l /\ i_user_id i = u /\ i_product_id i = p
              /\ score i = Some c)
   /\ (forall i s, In i l -> i_user_id i = u -> i_product_id i = p ->
                   score i = Some s -> s <= c))
  \/ ((forall i s, In i l -> i_user_id i = u -> i_product_id i = p ->
                   score i <> Some s)
      /\ c = 0).

(** The score the specification derives from one interaction: a purchase
    counts 5, a rating its value, a view 1; any other interaction has no
    score. *)
Inductive derived_score (i : Interaction) : Z -> Prop :=
| purchase_5 :
    i_interaction_type i = "purchase"%string -> derived_score i 5
| rating_value (r : Z) :
    i_interaction_type i = "rating"%string -> i_rating i = Some r ->
    derived_score i r
| view_1 :
    i_interaction_type i = "view"%string -> derived_score i 1.

(** What the matrix builder reads of an interaction: its user, product,
    type and rating.  The id and the timestamp tell a repetition from the
    original. *)
Definition event (i : Interaction) : Z * Z * string * option Z :=
  (i_user_id i, i_product_id i, i_interaction_type i, i_rating i).

(** [l'] is [l] in another order, possibly with interactions recorded
    again. *)
Definition same_events (l l' : list Interaction) : Prop :=
  forall e, In e (map event l) <-> In e (map event l').

(** Some interaction of user [u] with product [p] has the derived score
    [s]. *)
Definition scored_as (l : list Interaction) (u p s : Z) : Prop :=
  exists i, In i l /\ i_user_id i = u /\ i_product_id i = p
            /\ derived_score i s.

(** Two lists of interactions give every pair the same derived scores: the
    case of a list and a copy of it in another order, with interactions
    recorded again. *)
Definition same_scores (l l' : list Interaction) : Prop :=
  forall u p s, scored_as l u p s <-> scored_as l' u p s.

(** [c] is the greatest derived score of the pair's interactions, or 0 when
    the pair has none. *)
Definition max_score (l : list Interaction) (u p c : Z) : Prop :=
  (scored_as l u p c /\ forall s, scored_as l u p s -> s <= c)
  \/ ((forall s, ~ scored_as l u p s) /\ c = 0).

(** The [CHECK (rating >= 1 AND rating <= 5)] constraint of the
    [interactions] table. *)
Definition valid_ratings (db : Database) : Prop :=
  forall i r, In i (interactions db) -> i_rating i = Some r -> 1 <= r <= 5.

(** A float that is a number. *)
Definition not_nan (x : float) : Prop := is_nan x = false.

(** [b] is not above [a]: the order between an entry and a later one in a
    list of labelled floats sorted descending. *)
Definition not_below (a b : Z * float) : Prop := ltb (snd a) (snd b) = false.

(** The record a list of recommendations holds for a product id: the last
    one, as in a [dict] built from the list. *)
Definition lookup_last (recs : list Rec) (pid : Z) : option Rec :=
  find (fun r => Z.eqb (product_id r) pid) (rev recs).

Definition collab_score (recs : list Rec) (pid : Z) : option float :=
  match lookup_last recs pid with
  | Some r => recommendation_score r
  | None => None
  end.

Definition content_score (recs : list Rec) (pid : Z) : option float :=
  match lookup_last recs pid with
  | Some r => similarity_score r
  | None => None
  end.

(** A score that is missing counts as 0. *)
Definition default_0 (x : option float) : float :=
  match x with
  | Some v => v
  | None => zero
  end.

(** The hybrid score of the specification for a product id, given the
    product and the sum of floats: 0.6 times the collaborative score plus
    0.4 times the content score for a product of both lists, and the
    weighted score of its one list alone for a product of one list; a
    product of neither list has none. *)
Definition weighted_score {A : Arithmetic} (collab_recs content_recs : list Rec)
           (pid : Z) : option float :=
  match lookup_last collab_recs pid, lookup_last content_recs pid with
  | Some rc, Some rs =>
      Some (fadd (fmul (default_0 (recommendation_score rc)) (of_Q (6 # 10)))
                 (fmul (default_0 (similarity_score rs)) (of_Q (4 # 10))))
  | Some rc, None =>
      Some (fmul (default_0 (recommendation_score rc)) (of_Q (6 # 10)))
  | None, Some rs =>
      Some (fmul (default_0 (similarity_score rs)) (of_Q (4 # 10)))
  | None, None => None
  end.

(** The scores of a record, where present, are finite numbers. *)
Definition finite_scores (r : Rec) : Prop :=
  (forall x, recommendation_score r = Some x -> is_finite x = true)
  /\ (forall x, similarity_score r = Some x -> is_finite x = true).

(** A content-based recommender that holds the catalog [df] and one row of
    TF-IDF weights per product: the state [load_products] and
    [build_tfidf_matrix] leave. *)
Definition loaded {vocabulary : Type}
           (self : ContentBased.CB vocabulary) (df : list Product)
           (tfidf : list (list Qc)) : Prop :=
  (exists f, ContentBased.products_df self = Some f
             /\ ContentBased.rows f = df)
  /\ ContentBased.tfidf_matrix self = Some tfidf
  /\ List.length tfidf = List.length df.

(** [M] is the greatest price of the catalog. *)
Definition max_price (df : list Product) (M : Qc) : Prop :=
  In M (map p_price df) /\ forall p, In p df -> (p_price p <= M)%Qc.

(** The blend of the three components, as the specification writes it. *)
Definition blend (text category price : float) : float :=
  (of_Q (6 # 10) * text + of_Q (3 # 10) * category + of_Q (1 # 10) * price)%py.

(** The product ids of the catalog are distinct (a primary key). *)
Definition unique_ids (df : list Product) : Prop := NoDup (map p_id df).

(** The similarity vector [get_similar_products] ranks, for the reference
    product [ref] with TF-IDF row [ref_row]. *)
Definition scores_of (cosine : list Qc -> list Qc -> Qc)
           (df : list Product) (tfidf : list (list Qc))
           (ref : Product) (ref_row : list Qc) : list float :=
  map (fun rp =>
         blend (Fin (cosine ref_row (fst rp)))
               (ContentBased.category_sim ref (snd rp))
               (ContentBased.price_sim (ContentBased.price_max df) ref
                                       (snd rp)))
      (combine tfidf df).

(** [r] is the entry [get_similar_products] makes of position [i] of the
    catalog. *)
Definition entry_of (df : list Product) (scores : list float)
           (r : Rec) (i : nat) : Prop :=
  exists p s, nth_error df i = Some p /\ nth_error scores i = Some s
              /\ r = ContentBased.entry p s.

(** Every record of a dictionary sits under its own product id. *)
Definition keyed (d : dict Rec) : Prop :=
  Forall (fun e => product_id (snd e) = fst e) d.

End Specs.

(* ================================================================= *)
(** ** Sample stores *)

Module Samples.

Import Concrete.
Local Open Scope Z_scope.

Definition view (id u p t : Z) : Interaction :=
  mkInteraction id u p "view" None t.

Definition purchase (id u p t : Z) : Interaction :=
  mkInteraction id u p "purchase" None t.

Definition rated (id u p r t : Z) : Interaction :=
  mkInteraction id u p "rating" (Some r) t.

Definition book (id price : Z) : Product :=
  mkProduct id "Novel" "Books" (Q2Qc (inject_Z price)) None None None None.

Definition toy (id price : Z) : Product :=
  mkProduct id "Robot" "Toys" (Q2Qc (inject_Z price)) None None None None.

(** One user, one view. *)
Definition db_single : Database :=
  mkDatabase [book 1 10] [view 1 1 1 100].

(** Two users with the same single view. *)
Definition db_pair : Database :=
  mkDatabase [book 1 10] [view 1 1 1 100; view 2 2 1 101].



(** User 1 viewed products 1 and 2; user 2 rated both 3. *)
Definition db_view_and_rate : Database :=
  mkDatabase [book 1 10; book 2 20]
             [view 1 1 1 100; view 2 1 2 101;
              rated 3 2 1 3 102; rated 4 2 2 3 103].

(** Three users over three products. *)
Definition db_three : Database :=
  mkDatabase [book 1 10; book 2 20; book 3 30]
             [view 1 1 1 100; view 2 2 1 101; view 3 2 2 102;
              purchase 4 3 3 103; view 5 3 1 104].

(** [db_three] with its interactions reordered and two of them recorded
    again under new ids. *)
Definition db_three_shuffled : Database :=
  mkDatabase [book 1 10; book 2 20; book 3 30]
             [view 5 3 1 104; purchase 4 3 3 103; view 6 1 1 105;
              view 3 2 2 102; view 1 1 1 100; view 2 2 1 101;
              purchase 7 3 3 106].

(** Two users over two products: user 1 viewed product 1, rated it 4 and
    put product 2 on the wishlist; user 2 purchased product 2 and rated
    product 1 with 3. *)
Definition wishlist (id u p t : Z) : Interaction :=
  mkInteraction id u p "wishlist" None t.

Definition db_rated : Database :=
  mkDatabase [book 1 10; book 2 20]
             [view 1 1 1 100; rated 2 1 1 4 101; purchase 3 2 2 102;
              rated 4 2 1 3 103; wishlist 5 1 2 104].

(** [db_rated] with its interactions reordered and three of them recorded
    again under new ids. *)
Definition db_rated_shuffled : Database :=
  mkDatabase [book 1 10; book 2 20]
             [wishlist 5 1 2 104; rated 4 2 1 3 103; view 6 1 1 105;
              purchase 3 2 2 102; rated 7 1 1 4 106; view 1 1 1 100;
              rated 2 1 1 4 101; purchase 8 2 2 107].

Definition tenth : float := of_Q (1 # 10).

(** A catalog of two books and a toy, and its recommender once loaded. *)
Definition db_catalog : Database :=
  mkDatabase [book 1 10; book 2 20; toy 3 40] [].

(** A catalog in which everything is free. *)
Definition db_free : Database :=
  mkDatabase [book 1 0; book 2 0] [].

(** Twelve books; user 1 viewed the first eleven, one after the other. *)
Definition db_history : Database :=
  mkDatabase (map (fun i => book i (10 * i)) [1; 2; 3; 4; 5; 6; 7; 8; 9; 10; 11; 12])
             (map (fun i => view i 1 i (100 + i))
                  [1; 2; 3; 4; 5; 6; 7; 8; 9; 10; 11]).

Definition cb_loaded (db : Database) : ContentBased.CB Bag.vocabulary :=
  snd (ContentBased.ensure_loaded Bag.fit Bag.transform
         (ContentBased.init Bag.vocabulary db)).

Definition bag_tfidf (db : Database) : list (list Qc) :=
  let docs := map ContentBased.combine_features (products db) in
  map (Bag.transform docs) docs.

(** Recommendation records as the two recommenders produce them: a content
    record has a [similarity_score], a collaborative one a
    [recommendation_score]. *)
Definition content_rec (pid : Z) (s : Q) : Rec :=
  mkRec pid "Novel" "Books" (of_Z 10) None None (Some (of_Q s)) None None None.

Definition collab_rec (pid : Z) (s : Q) : Rec :=
  mkRec pid "Novel" "Books" (of_Z 10) None None None (Some (of_Q s)) None None.

(** A record of the popularity fallback: it has no score. *)
Definition popular_rec (pid : Z) : Rec :=
  mkRec pid "Novel" "Books" (of_Z 10) None None None None None None.

Definition collab_with_fallback : list Rec :=
  [collab_rec 2 (1 # 1); collab_rec 3 (2 # 1); popular_rec 4].

(** A content record whose score is [nan], as [get_similar_products]
    returns over a catalog where everything is free. *)
Definition content_nan (pid : Z) : Rec :=
  mkRec pid "Novel" "Books" (of_Z 10) None None (Some NaN) None None None.

Definition content_with_nan : list Rec :=
  [content_rec 1 (5 # 10); content_nan 2; content_rec 3 (9 # 10)].

Definition content_sample : list Rec :=
  [content_rec 1 (9 # 10); content_rec 2 (5 # 10)].

Definition collab_sample : list Rec :=
  [collab_rec 2 (1 # 1); collab_rec 3 (2 # 1)].

End Samples.

(* ================================================================= *)
(** ** Reading the results of the collaborative recommender *)

Module Reading.

Import Collaborative.
Local Open Scope Z_scope.

(** The row [build_user_item_matrix] gives user [u]. *)
Definition matrix_row (db : Database) (u : Z) : list Z :=
  map (cell_value (read_scores db) u)
      (columns (pivot_table (read_scores db))).

(** The record [get_recommendations] makes of a fetched product and its
    score. *)
Definition scored_rec (p : Product) (sc : float) : Rec :=
  mkRec (p_id p) (p_title p) (p_category p) (Fin (p_price p))
        (float_or_none (p_rating p)) (p_review_count p) None (Some sc)
        (Some (picsum (p_id p))) None.

(** The records of the fetched products, in catalog order; [None] is the
    [KeyError] of a product without a score. *)
Definition fetch_recs (sorted_products : dict float) (fetched : list Product)
  : option (list Rec) :=
  fold_right
    (fun p acc =>
       match dict_get sorted_products (p_id p), acc with
       | Some sc, Some l => Some (scored_rec p sc :: l)
       | _, _ => None
       end)
    (Some []) fetched.

(** What the neighbours contribute to the score of product [pid]: for every
    neighbour, in order, the neighbour's positive cell for [pid] times the
    neighbour's similarity. *)
Definition contributions (m : DataFrame Z) (neighbours : list (Z * float))
           (pid : Z) : list float :=
  flat_map (fun e =>
              match loc m (fst e) with
              | Some row =>
                  map (fun c => (of_Z (snd c) * snd e)%py)
                      (filter (fun c => Z.eqb (fst c) pid) (positive row))
              | None => []
              end) neighbours.

(** A score after more contributions: the first one is stored, the later
    ones are added ([product_scores[pid] = w] and [+= w]). *)
Definition accrue (old : option float) (ws : list float) : option float :=
  fold_left (fun o w => Some (match o with
                              | Some x => (x + w)%py
                              | None => w
                              end)) ws old.

(** The sum of a non-empty list of floats, left to right. *)
Definition total (ws : list float) : option float :=
  match ws with
  | [] => None
  | w :: ws' => Some (fold_left add ws' w)
  end.

(** The similarity scores a list of records holds for product [pid]. *)
Definition scores_for (pid : Z) (similar : list Rec) : list float :=
  flat_map (fun rec =>
              if Z.eqb (product_id rec) pid
              then match similarity_score rec with
                   | Some s => [s]
                   | None => []
                   end
              else []) similar.

(** The similarity score a dictionary of records holds for [pid]. *)
Definition held_score (d : dict Rec) (pid : Z) : option float :=
  match dict_get d pid with
  | Some r => similarity_score r
  | None => None
  end.

(** Every record of the dictionary has a similarity score. *)
Definition all_scored (d : dict Rec) : Prop :=
  Forall (fun e => similarity_score (snd e) <> None) d.

End Reading.

(* ================================================================= *)
(** ** [get_metrics] of the two recommenders *)

Module Values.

(** The values a metrics dictionary holds, and the dictionary itself (a
    Python [dict] with string keys). *)
Inductive value : Type :=
| VStr (s : string)
| VInt (z : Z)
| VFloat (x : float).

Definition sdict : Type := list (string * value).

Fixpoint sget (d : sdict) (k : string) : option value :=
  match d with
  | [] => None
  | (k', v) :: d' => if String.eqb k k' then Some v else sget d' k
  end.

(** [int / int] in numpy and the mean of a series: true division, which
    gives [nan] or an infinity for a zero divisor. *)
Definition true_div (a b : Z) : float := (of_Z a / of_Z b)%py.

Definition sum_Z (l : list Z) : Z := fold_left Z.add l 0%Z.

(** [a.mean()] of a float array. *)
Definition np_mean (a : list float) : float :=
  (fold_left add a zero / of_Z (Z.of_nat (List.length a)))%py.

(** [np.delete(a, idx)]. *)
Definition np_delete (a : list float) (idx : nat) : list float :=
  firstn idx a ++ skipn (S idx) a.

End Values.

Import Values.

Module CollaborativeMetrics.

Import Collaborative.
Local Open Scope Z_scope.
Local Open Scope method_scope.

(** Column [j] of the matrix. *)
Definition column (m : DataFrame Z) (j : nat) : list Z :=
  map (fun row => nth j row 0) (values m).

Definition columns_of (m : DataFrame Z) : list (list Z) :=
  map (column m) (seq 0 (List.length (columns m))).

(** The number of [True] in [cells > 0]. *)
Definition count_positive (cells : list Z) : Z :=
  Z.of_nat (List.length (filter (fun c => 0 <? c) cells)).

Definition get_metrics : M CF sdict :=
  self <- get ;;
  m <- match user_item_matrix self with
       | None => build_user_item_matrix
       | Some m => ret m
       end ;;
  let total_users := Z.of_nat (List.length (index m)) in
  let total_products := Z.of_nat (List.length (columns m)) in
  let total_cells := total_users * total_products in
  let non_zero := sum_Z (map count_positive (columns_of m)) in
  let sparsity := ((one - true_div non_zero total_cells) * of_Z 100)%py in
  let avg_interactions :=
    true_div (sum_Z (map count_positive (values m)))
             (Z.of_nat (List.length (values m))) in
  let covered :=
    Z.of_nat (List.length (filter (fun col => 0 <? sum_Z col)
                                  (columns_of m))) in
  ret [("algorithm"%string, VStr "collaborative_filtering");
       ("total_users"%string, VInt total_users);
       ("total_products"%string, VInt total_products);
       ("sparsity"%string, VFloat sparsity);
       ("avg_interactions_per_user"%string, VFloat avg_interactions);
       ("coverage_users"%string, VFloat (of_Z 100));
       ("coverage_products"%string,
        VFloat (true_div covered total_products * of_Z 100)%py)].

End CollaborativeMetrics.

Module ContentMetrics.

Import ContentBased.
Local Open Scope method_scope.

Section WithSklearn.
Variable vocabulary : Type.
Variable fit : list string -> option vocabulary.
Variable transform : vocabulary -> string -> list Qc.
Variable cosine : list Qc -> list Qc -> Qc.

(** [len(vectorizer.get_feature_names_out())]; on a vectorizer that is
    not fitted [get_feature_names_out] raises [NotFittedError]. *)
Variable features : vocabulary -> Z.

(** The loop over [sample_indices]. *)
Fixpoint averages (sample_indices : list nat)
  : M (CB vocabulary) (list float) :=
  match sample_indices with
  | [] => ret []
  | idx :: rest =>
      similarities <- calculate_similarity cosine idx ;;
      let similarities := np_delete similarities idx in
      avg_similarity_scores <- averages rest ;;
      ret (np_mean similarities :: avg_similarity_scores)
  end.

(** [sample_indices] is what [np.random.choice(total_products,
    sample_size, replace=False)] returns in the call. *)
Definition get_metrics (sample_indices : list nat)
  : M (CB vocabulary) sdict :=
  self <- get ;;
  match products_df self with
  | None => @load_products vocabulary ;;; ret tt
  | Some _ => ret tt
  end ;;;
  self <- get ;;
  match tfidf_matrix self with
  | None => build_tfidf_matrix fit transform ;;; ret tt
  | Some _ => ret tt
  end ;;;
  self <- get ;;
  df <- lift (products_df self) ;;
  let total_products := Z.of_nat (List.length (rows df)) in
  avg_similarity_scores <- averages sample_indices ;;
  self <- get ;;
  tfidf_features <- match vectorizer self with
                    | Some (Fitted v) => ret (features v)
                    | Some Unfitted => raise
                    | None => ret 0%Z
                    end ;;
  ret [("algorithm"%string, VStr "content_based");
       ("total_products"%string, VInt total_products);
       ("coverage"%string, VFloat (of_Z 100));
       ("avg_similarity_score"%string,
        VFloat (np_mean avg_similarity_scores));
       ("tfidf_features"%string, VInt tfidf_features)].

End WithSklearn.

End ContentMetrics.

(* ================================================================= *)
(** ** [app/api/recommendations.py]: the endpoints

    An endpoint runs on the module's two global recommenders and either
    returns a response or raises.  [HTTPException] is a subclass of
    [Exception]; every other exception is [Error]. *)

Module Api.

Import Hybrid.

(** [ProductRecommendation], [RecommendationResponse] and
    [MetricsResponse] of [app/schemas.py]. *)
Record ProductRecommendation : Type := mkProductRecommendation {
  pr_product_id : Z;
  pr_title : string;
  pr_category : string;
  pr_price : float;
  pr_rating : option float;
  pr_similarity_score : option float;
  pr_image_url : option string
}.

Record RecommendationResponse : Type := mkRecommendationResponse {
  r_user_id : option Z;
  r_product_id : option Z;
  r_algorithm : string;
  r_recommendations : list ProductRecommendation;
  r_count : nat
}.

Record MetricsResponse : Type := mkMetricsResponse {
  m_algorithm : string;
  m_total_products : Z;
  m_coverage : float;
  m_avg_similarity_score : option float;
  m_tfidf_features : option Z
}.

Inductive exn : Type :=
| HTTPException (status_code : Z)
| Error.

(** Field validation of pydantic on the values of a metrics dictionary: a
    [str] field takes a string, an [int] field an integer, a [float] field
    an integer or a float; [None] is a [ValidationError].  An optional
    field may be absent. *)
Definition as_str (v : value) : option string :=
  match v with VStr s => Some s | _ => None end.

Definition as_int (v : value) : option Z :=
  match v with VInt z => Some z | _ => None end.

Definition as_float (v : value) : option float :=
  match v with
  | VFloat x => Some x
  | VInt z => Some (of_Z z)
  | VStr _ => None
  end.

Definition required {A : Type} (as_a : value -> option A) (d : sdict)
           (k : string) : option A :=
  match sget d k with
  | Some v => as_a v
  | None => None
  end.

Definition optional {A : Type} (as_a : value -> option A) (d : sdict)
           (k : string) : option (option A) :=
  match sget d k with
  | Some v => option_map Some (as_a v)
  | None => Some None
  end.

(** [MetricsResponse] built from the keys of [metrics]; keys that are not
    fields are ignored. *)
Definition validate_metrics (metrics : sdict) : option MetricsResponse :=
  match required as_str metrics "algorithm",
        required as_int metrics "total_products",
        required as_float metrics "coverage",
        optional as_float metrics "avg_similarity_score",
        optional as_int metrics "tfidf_features" with
  | Some a, Some t, Some c, Some s, Some f =>
      Some (mkMetricsResponse a t c s f)
  | _, _, _, _, _ => None
  end.

(** [ProductRecommendation] built from the keys of a record of
    [get_similar_products]. *)
Definition of_item (item : Rec) : ProductRecommendation :=
  mkProductRecommendation (product_id item) (title item) (category item)
                          (price item) (rating item) (similarity_score item)
                          (image_url item).

(** [a or b] on two optional scores. *)
Definition or_else (a b : option float) : option float :=
  match a with
  | Some v => if truthy v then a else b
  | None => b
  end.

(** The formatting loop of [get_user_recommendations]; every record the
    recommenders build has the key [image_url], so the default of
    [item.get('image_url', ...)] is not used. *)
Definition format_item (item : Rec) : ProductRecommendation :=
  mkProductRecommendation (product_id item) (title item) (category item)
                          (price item) (rating item)
                          (or_else (similarity_score item)
                                   (recommendation_score item))
                          (image_url item).

(** The formatting loop of [get_popular_products]. *)
Definition popular_item (item : Rec) : ProductRecommendation :=
  mkProductRecommendation (product_id item) (title item) (category item)
                          (price item) (rating item) None
                          (Some (picsum (product_id item))).

Definition default_min_similarity : float := of_Q (1 # 10).

Section WithSklearn.
Variable vocabulary : Type.
Variable fit : list string -> option vocabulary.
Variable transform : vocabulary -> string -> list Qc.
Variable cosine_text : list Qc -> list Qc -> Qc.
Variable features : vocabulary -> Z.
Variable cosine_rows : list Z -> list Z -> float.

(** The database behind [DATABASE_URL] and the two module globals. *)
Record App : Type := mkApp {
  database : Database;
  content_recommender : option (ContentBased.CB vocabulary);
  collaborative_recommender : option Collaborative.CF
}.

Definition set_content (app : App) (rec : ContentBased.CB vocabulary)
  : App :=
  mkApp (database app) (Some rec) (collaborative_recommender app).

Definition set_collaborative (app : App) (rec : Collaborative.CF) : App :=
  mkApp (database app) (content_recommender app) (Some rec).

(** Code that runs on the application state and returns or raises. *)
Definition Handler (A : Type) : Type := App -> (A + exn) * App.

Definition hret {A : Type} (a : A) : Handler A := fun app => (inl a, app).

Definition hraise {A : Type} (e : exn) : Handler A :=
  fun app => (inr e, app).

Definition hbind {A B : Type} (c : Handler A) (k : A -> Handler B)
  : Handler B :=
  fun app =>
    match c app with
    | (inl a, app') => k a app'
    | (inr e, app') => (inr e, app')
    end.

Definition hget : Handler App := fun app => (inl app, app).

Definition hput (app : App) : Handler unit := fun _ => (inl tt, app).

(** [try: body except Exception as e: raise HTTPException(500, str(e))]:
    an [HTTPException] raised in the body is caught as well. *)
Definition try_500 {A : Type} (body : Handler A) : Handler A :=
  fun app =>
    match body app with
    | (inl a, app') => (inl a, app')
    | (inr _, app') => (inr (HTTPException 500), app')
    end.

(** A method call on the object the global [content_recommender] names:
    the object is updated in place. *)
Definition on_content {A : Type} (method : M (ContentBased.CB vocabulary) A)
  : Handler A :=
  fun app =>
    match content_recommender app with
    | Some rec =>
        match method rec with
        | (Some a, rec') => (inl a, set_content app rec')
        | (None, rec') => (inr Error, set_content app rec')
        end
    | None => (inr Error, app)
    end.

Definition on_collaborative {A : Type} (method : M Collaborative.CF A)
  : Handler A :=
  fun app =>
    match collaborative_recommender app with
    | Some rec =>
        match method rec with
        | (Some a, rec') => (inl a, set_collaborative app rec')
        | (None, rec') => (inr Error, set_collaborative app rec')
        end
    | None => (inr Error, app)
    end.

(** The global is assigned before the two loading calls: when one of them
    raises, the object stays in the global as far as it got. *)
Definition get_content_recommender : Handler unit :=
  hbind hget (fun app =>
  match content_recommender app with
  | Some _ => hret tt
  | None =>
      hbind (hput (set_content app
                     (ContentBased.init vocabulary (database app))))
            (fun _ =>
      hbind (on_content (@ContentBased.load_products vocabulary)) (fun _ =>
      hbind (on_content (ContentBased.build_tfidf_matrix fit transform))
            (fun _ => hret tt)))
  end).

Definition get_collaborative_recommender : Handler unit :=
  hbind hget (fun app =>
  match collaborative_recommender app with
  | Some _ => hret tt
  | None =>
      hbind (hput (set_collaborative app
                     (Collaborative.init (database app)))) (fun _ =>
      hbind (on_collaborative Collaborative.build_user_item_matrix)
            (fun _ =>
      hbind (on_collaborative
               (Collaborative.calculate_user_similarity cosine_rows))
            (fun _ => hret tt)))
  end).

(** [GET /similar/{product_id}]. *)
Definition get_similar_products (product_id : Z) (limit : nat)
  : Handler RecommendationResponse :=
  try_500
    (hbind get_content_recommender (fun _ =>
     hbind (on_content
              (ContentBased.get_similar_products fit transform cosine_text
                 product_id limit ContentBased.default_min_score))
           (fun similar =>
     match similar with
     | [] => hraise (HTTPException 404)
     | _ =>
         hret (mkRecommendationResponse
                 None (Some product_id) "content_based"
                 (map of_item similar) (List.length similar))
     end))).

(** The branches on [algorithm] of [get_user_recommendations]: the
    recommendations and the name of the algorithm. *)
Definition recommend (user_id : Z) (limit : nat) (algorithm : string)
  : Handler (list Rec * string) :=
  if String.eqb algorithm "content" then
    hbind get_content_recommender (fun _ =>
    hbind (on_content
             (ContentBased.get_recommendations_for_user fit transform
                cosine_text user_id limit)) (fun recommendations =>
    hret (recommendations, "content_based"%string)))
  else if String.eqb algorithm "collaborative" then
    hbind get_collaborative_recommender (fun _ =>
    hbind (on_collaborative
             (Collaborative.get_recommendations cosine_rows user_id limit
                default_min_similarity)) (fun recommendations =>
    hret (recommendations, "collaborative_filtering"%string)))
  else
    hbind get_content_recommender (fun _ =>
    hbind get_collaborative_recommender (fun _ =>
    hbind (on_content
             (ContentBased.get_recommendations_for_user fit transform
                cosine_text user_id (limit * 2))) (fun content_recs =>
    hbind (on_collaborative
             (Collaborative.get_recommendations cosine_rows user_id
                (limit * 2) default_min_similarity)) (fun collab_recs =>
    hret (_combine_recommendations content_recs collab_recs limit,
          "hybrid"%string))))).

(** [GET /for-user/{user_id}]. *)
Definition get_user_recommendations (user_id : Z) (limit : nat)
           (algorithm : string) : Handler RecommendationResponse :=
  try_500
    (hbind (recommend user_id limit algorithm) (fun found =>
     let (recommendations, algo_name) := found in
     hbind (match recommendations with
            | [] =>
                hbind get_content_recommender (fun _ =>
                on_content (@ContentBased.get_popular_products vocabulary
                              limit))
            | _ => hret recommendations
            end) (fun recommendations =>
     let formatted_recs := map format_item recommendations in
     hret (mkRecommendationResponse
             (Some user_id) None algo_name formatted_recs
             (List.length formatted_recs))))).

(** [GET /popular]. *)
Definition get_popular_products (limit : nat)
  : Handler RecommendationResponse :=
  try_500
    (hbind get_content_recommender (fun _ =>
     hbind (on_content (@ContentBased.get_popular_products vocabulary limit))
           (fun popular =>
     let formatted_recs := map popular_item popular in
     hret (mkRecommendationResponse
             None None "popularity_based" formatted_recs
             (List.length formatted_recs))))).

(** [GET /metrics]; [sample_indices] is the random sample the content
    recommender draws. *)
Definition get_recommendation_metrics (algorithm : string)
           (sample_indices : list nat) : Handler MetricsResponse :=
  try_500
    (hbind (if String.eqb algorithm "collaborative" then
              hbind get_collaborative_recommender (fun _ =>
              on_collaborative CollaborativeMetrics.get_metrics)
            else
              hbind get_content_recommender (fun _ =>
              on_content
                (ContentMetrics.get_metrics fit transform cosine_text
                   features sample_indices))) (fun metrics =>
     match validate_metrics metrics with
     | Some response => hret response
     | None => hraise Error
     end)).

End WithSklearn.

(** An application whose recommenders, where they exist, read the
    application's own database. *)
Definition coherent {vocabulary : Type} (app : App vocabulary) : Prop :=
  (forall rec, content_recommender app = Some rec ->
               ContentBased.engine rec = database app)
  /\ (forall rec, collaborative_recommender app = Some rec ->
                  Collaborative.engine rec = database app).

(** The application at start-up. *)
Definition start (vocabulary : Type) (db : Database) : App vocabulary :=
  mkApp db None None.

End Api.

(** A store without products and without interactions. *)
Module MoreSamples.

Definition db_empty : Database := mkDatabase [] [].

End MoreSamples.

(* ================================================================= *)
(** ** [app/api/interactions.py] *)

Module Interactions.

Import Api.
Local Open Scope Z_scope.

(** [InteractionCreate] of [app/schemas.py]: the body of the request. *)
Record InteractionCreate : Type := mkInteractionCreate {
  ic_user_id : Z;
  ic_product_id : Z;
  ic_interaction_type : string;
  ic_rating : option Z
}.

(** The tables behind the endpoints: the store, and the ids of the
    [users] table that [interactions.user_id] references. *)
Record Tables : Type := mkTables {
  store : Database;
  users : list Z
}.

Definition valid_types : list string :=
  ["view"; "purchase"; "rating"; "wishlist"]%string.

(** [x in valid_types]. *)
Definition is_valid_type (x : string) : bool :=
  existsb (String.eqb x) valid_types.

(** The constraints of [InteractionCreate]: the pattern of
    [interaction_type] and the bounds of [rating].  FastAPI answers a body
    that violates them with 422 and does not call the handler. *)
Definition body_valid (b : InteractionCreate) : bool :=
  is_valid_type (ic_interaction_type b)
  && match ic_rating b with
     | Some r => (1 <=? r) && (r <=? 5)
     | None => true
     end.

(** The [INSERT ... RETURNING]: the row gets the id [new_id] of the
    sequence and the timestamp [now]; [None] is the [IntegrityError] of a
    violated constraint (primary key, the two foreign keys, the [CHECK] on
    [rating]). *)
Definition insert (t : Tables) (new_id now : Z) (b : InteractionCreate)
  : option (Interaction * Tables) :=
  if negb (mem new_id (map i_id (interactions (store t))))
     && mem (ic_user_id b) (users t)
     && mem (ic_product_id b) (map p_id (products (store t)))
     && match ic_rating b with
        | Some r => (1 <=? r) && (r <=? 5)
        | None => true
        end
  then
    let row := mkInteraction new_id (ic_user_id b) (ic_product_id b)
                             (ic_interaction_type b) (ic_rating b) now in
    Some (row,
          mkTables (mkDatabase (products (store t))
                               (interactions (store t) ++ [row]))
                   (users t))
  else None.

(** [try: body except HTTPException: raise
    except Exception as e: raise HTTPException(500, str(e))]. *)
Definition reraise_http {A S : Type} (r : (A + exn) * S) : (A + exn) * S :=
  match r with
  | (inr Error, s) => (inr (HTTPException 500), s)
  | _ => r
  end.

(** [POST /]. *)
Definition track_interaction (interaction : InteractionCreate)
           (new_id now : Z) (t : Tables) : (Interaction + exn) * Tables :=
  reraise_http
    (if negb (is_valid_type (ic_interaction_type interaction))
     then (inr (HTTPException 400), t)
     else
       match (if String.eqb (ic_interaction_type interaction) "rating"
              then match ic_rating interaction with
                   | None => Some (HTTPException 400)
                   | Some r =>
                       if negb ((1 <=? r) && (r <=? 5))
                       then Some (HTTPException 400)
                       else None
                   end
              else None) with
       | Some e => (inr e, t)
       | None =>
           match insert t new_id now interaction with
           | Some (row, t') => (inl row, t')
           | None => (inr Error, t)
           end
       end).

(** A row of [get_user_interactions]. *)
Record InteractionRow : Type := mkInteractionRow {
  row_id : Z;
  row_user_id : Z;
  row_product_id : Z;
  row_interaction_type : string;
  row_rating : option Z;
  row_timestamp : Z;
  row_product_title : string;
  row_product_category : string;
  row_product_price : float
}.

Record InteractionsResponse : Type := mkInteractionsResponse {
  ir_user_id : Z;
  ir_interactions : list InteractionRow;
  ir_count : nat
}.

(** [FROM interactions i JOIN products p ON i.product_id = p.id
    WHERE i.user_id = :user_id]. *)
Definition joined (db : Database) (user_id : Z) : list InteractionRow :=
  flat_map
    (fun i =>
       if Z.eqb (i_user_id i) user_id
       then map (fun p =>
                   mkInteractionRow (i_id i) (i_user_id i) (i_product_id i)
                     (i_interaction_type i) (i_rating i) (i_timestamp i)
                     (p_title p) (p_category p) (Fin (p_price p)))
                (filter (fun p => Z.eqb (i_product_id i) (p_id p))
                        (products db))
       else [])
    (interactions db).

(** [GET /user/{user_id}]; [limit] is an unconstrained [int], and
    PostgreSQL rejects a negative [LIMIT]. *)
Definition get_user_interactions (user_id limit : Z) (t : Tables)
  : (InteractionsResponse + exn) * Tables :=
  if limit <? 0 then (inr (HTTPException 500), t)
  else
    let result :=
      firstn (Z.to_nat limit)
             (sort_desc Z.ltb row_timestamp (joined (store t) user_id)) in
    (inl (mkInteractionsResponse user_id result (List.length result)), t).

End Interactions.

(* ================================================================= *)
(** ** Properties of the pandas helpers *)

Module PyFacts.

Local Open Scope Z_scope.

Lemma mem_In (k : Z) (s : list Z) : mem k s = true <-> In k s.
Proof.
  unfold mem. rewrite existsb_exists. split.
  - intros [x [Hx He]]. apply Z.eqb_eq in He. now subst.
  - intros H. exists k. split; [assumption | apply Z.eqb_refl].
Qed.

Lemma mem_false (k : Z) (s : list Z) : mem k s = false <-> ~ In k s.
Proof.
  rewrite <- mem_In. destruct (mem k s); split; intros; congruence.
Qed.

Lemma insert_unique_In (x y : Z) (l : list Z) :
  In y (insert_unique x l) <-> y = x \/ In y l.
Proof.
  induction l as [|z l IH]; simpl.
  - intuition.
  - destruct (Z.compare_spec x z); simpl.
    + subst. intuition.
    + intuition.
    + rewrite IH. intuition.
Qed.

Lemma sort_unique_In (y : Z) (l : list Z) : In y (sort_unique l) <-> In y l.
Proof.
  induction l as [|x l IH]; simpl.
  - reflexivity.
  - rewrite insert_unique_In, IH. intuition.
Qed.

Lemma insert_unique_sorted (x : Z) (l : list Z) :
  StronglySorted Z.lt l -> StronglySorted Z.lt (insert_unique x l).
Proof.
  induction l as [|z l IH]; simpl; intros Hs.
  - constructor; constructor.
  - inversion Hs as [|? ? Hl Hz]; subst.
    destruct (Z.compare_spec x z).
    + assumption.
    + constructor; [assumption|].
      constructor; [assumption|].
      eapply Forall_impl; [|exact Hz]. intros; lia.
    + constructor; [now apply IH|].
      rewrite Forall_forall. intros y Hy.
      apply insert_unique_In in Hy. destruct Hy as [->|Hy]; [assumption|].
      rewrite Forall_forall in Hz. now apply Hz.
Qed.

Lemma sort_unique_sorted (l : list Z) : StronglySorted Z.lt (sort_unique l).
Proof.
  induction l as [|x l IH]; simpl.
  - constructor.
  - now apply insert_unique_sorted.
Qed.

Lemma sort_unique_NoDup (l : list Z) : NoDup (sort_unique l).
Proof.
  generalize (sort_unique_sorted l). generalize (sort_unique l).
  induction 1 as [|a s Hs IH Ha]; constructor; [|assumption].
  intros Hin. rewrite Forall_forall in Ha. specialize (Ha _ Hin). lia.
Qed.

(** A strictly increasing list is determined by its set of members. *)
Lemma strictly_sorted_ext (l l' : list Z) :
  StronglySorted Z.lt l -> StronglySorted Z.lt l' ->
  (forall x, In x l <-> In x l') -> l = l'.
Proof.
  intros Hs. revert l'.
  induction Hs as [|a l Hs IH Ha]; intros l' Hs' Hext.
  - destruct l' as [|b l']; [reflexivity|].
    exfalso. apply (proj2 (Hext b)). now left.
  - destruct Hs' as [|b l' Hs' Hb].
    + exfalso. apply (proj1 (Hext a)). now left.
    + rewrite Forall_forall in Ha, Hb.
      assert (a = b) as ->.
      { destruct (proj1 (Hext a) (or_introl eq_refl)) as [Hab|Hab];
          [now symmetry|].
        destruct (proj2 (Hext b) (or_introl eq_refl)) as [Hba|Hba];
          [assumption|].
        specialize (Ha _ Hba). specialize (Hb _ Hab). lia. }
      f_equal. apply IH; [assumption|].
      intros x. split; intros Hx.
      * destruct (proj1 (Hext x) (or_intror Hx)) as [Hxb|Hxb]; [|assumption].
        specialize (Ha _ Hx). lia.
      * destruct (proj2 (Hext x) (or_intror Hx)) as [Hxb|Hxb]; [|assumption].
        specialize (Hb _ Hx). lia.
Qed.

Lemma sort_unique_ext (l l' : list Z) :
  (forall x, In x l <-> In x l') -> sort_unique l = sort_unique l'.
Proof.
  intros H. apply strictly_sorted_ext; try apply sort_unique_sorted.
  intros x. now rewrite !sort_unique_In.
Qed.

Lemma find_index_Some {A : Type} (f : A -> bool) (l : list A) (i : nat) :
  find_index f l = Some i ->
  exists x, nth_error l i = Some x /\ f x = true.
Proof.
  revert i. induction l as [|y l IH]; simpl; intros i H; [discriminate|].
  destruct (f y) eqn:Hy.
  - inversion H; subst. exists y. now split.
  - destruct (find_index f l) as [j|]; [|discriminate].
    inversion H; subst. simpl. now apply IH.
Qed.

Lemma find_index_None {A : Type} (f : A -> bool) (l : list A) :
  find_index f l = None <-> forall x, In x l -> f x = false.
Proof.
  induction l as [|y l IH]; simpl.
  - split; [intros _ x [] | reflexivity].
  - destruct (f y) eqn:Hy.
    + split; [discriminate|]. intros H. specialize (H y (or_introl eq_refl)).
      congruence.
    + destruct (find_index f l) as [j|].
      * split; [discriminate|]. intros H.
        exfalso.
        assert (Hn : Some j = None)
          by (apply IH; intros x Hx; apply H; now right).
        discriminate.
      * split; [|reflexivity]. intros _ x [<-|Hx]; [assumption|].
        now apply IH.
Qed.

Lemma find_index_first {A : Type} (f : A -> bool) (l : list A) (i : nat) :
  find_index f l = Some i ->
  forall j x, (j < i)%nat -> nth_error l j = Some x -> f x = false.
Proof.
  revert i. induction l as [|y l IH]; simpl; intros i H j x Hj Hx;
    [discriminate|].
  destruct (f y) eqn:Hy.
  - inversion H; subst. lia.
  - destruct (find_index f l) as [k|] eqn:Hk; [|discriminate].
    inversion H; subst. destruct j as [|j]; simpl in Hx.
    + now inversion Hx; subst.
    + eapply IH; [reflexivity| |exact Hx]. lia.
Qed.

End PyFacts.

(* ================================================================= *)
(** ** Running a method: inversion of the monad's combinators *)

Module MethodFacts.

Lemma bind_Some {S A B : Type} (c : M S A) (k : A -> M S B) (s s' : S) (b : B) :
  bind c k s = (Some b, s') ->
  exists a s1, c s = (Some a, s1) /\ k a s1 = (Some b, s').
Proof.
  unfold bind. destruct (c s) as [[a|] s1]; intros H; [|discriminate].
  now exists a, s1.
Qed.

Lemma lift_Some {S A : Type} (o : option A) (s s' : S) (a : A) :
  lift o s = (Some a, s') -> o = Some a /\ s' = s.
Proof.
  destruct o as [x|]; unfold lift, ret, raise; intros H; inversion H.
  now subst.
Qed.

Lemma get_Some {S : Type} (s s' x : S) :
  get s = (Some x, s') -> x = s /\ s' = s.
Proof. unfold get. intros H. inversion H. now subst. Qed.

Lemma ret_Some {S A : Type} (a b : A) (s s' : S) :
  ret a s = (Some b, s') -> b = a /\ s' = s.
Proof. unfold ret. intros H. inversion H. now subst. Qed.

Lemma put_Some {S : Type} (x s s' : S) (u : unit) :
  put x s = (Some u, s') -> s' = x.
Proof. unfold put. intros H. now inversion H. Qed.

End MethodFacts.

(** Take one step of a run hypothesis [H : c s = (Some _, _)]. *)
Ltac run_get H :=
  let a := fresh "self" in
  let s := fresh "s" in
  let E := fresh "E" in
  apply MethodFacts.bind_Some in H; destruct H as [a [s [E H]]];
  apply MethodFacts.get_Some in E; destruct E as [-> ->].

Ltac run_lift H a Ha :=
  let s := fresh "s" in
  apply MethodFacts.bind_Some in H; destruct H as [a [s [Ha H]]];
  apply MethodFacts.lift_Some in Ha; destruct Ha as [Ha ->].

Ltac run_bind H a s Ha :=
  apply MethodFacts.bind_Some in H; destruct H as [a [s [Ha H]]].

(* ================================================================= *)
(** ** Insertion sorts: permutation, order, stability *)

Module SortFacts.

Section Sorting.
Variables A K : Type.
Variable lt : K -> K -> bool.
Variable key : A -> K.

Lemma insert_desc_perm (x : A) (l : list A) :
  Permutation (insert_desc lt key x l) (x :: l).
Proof.
  induction l as [|y l IH]; simpl; [reflexivity|].
  destruct (lt (key x) (key y)); [|reflexivity].
  rewrite IH. apply perm_swap.
Qed.

Lemma sort_desc_perm (l : list A) : Permutation (sort_desc lt key l) l.
Proof.
  induction l as [|x l IH]; simpl; [reflexivity|].
  rewrite insert_desc_perm. now constructor.
Qed.

Lemma insert_asc_perm (x : A) (l : list A) :
  Permutation (insert_asc lt key x l) (x :: l).
Proof.
  induction l as [|y l IH]; simpl; [reflexivity|].
  destruct (lt (key y) (key x)); [|reflexivity].
  rewrite IH. apply perm_swap.
Qed.

Lemma sort_asc_perm (l : list A) : Permutation (sort_asc lt key l) l.
Proof.
  induction l as [|x l IH]; simpl; [reflexivity|].
  rewrite insert_asc_perm. now constructor.
Qed.

Lemma sort_desc_In (x : A) (l : list A) :
  In x (sort_desc lt key l) <-> In x l.
Proof.
  split; apply Permutation_in;
    [apply sort_desc_perm | symmetry; apply sort_desc_perm].
Qed.

Lemma sort_asc_In (x : A) (l : list A) :
  In x (sort_asc lt key l) <-> In x l.
Proof.
  split; apply Permutation_in;
    [apply sort_asc_perm | symmetry; apply sort_asc_perm].
Qed.

Lemma sort_desc_length (l : list A) :
  List.length (sort_desc lt key l) = List.length l.
Proof. apply Permutation_length, sort_desc_perm. Qed.

(** The result is ordered as soon as [lt] is a strict weak order on the
    keys that occur; [good] singles those keys out (for Python's [<] on
    floats: the keys that are not [nan]). *)
Variable good : K -> Prop.
Hypothesis lt_asym :
  forall a b, good a -> good b -> lt a b = true -> lt b a = false.
Hypothesis lt_negtrans :
  forall a b c, good a -> good b -> good c ->
                lt a b = false -> lt b c = false -> lt a c = false.

Lemma insert_desc_sorted (x : A) (l : list A) :
  good (key x) -> Forall (fun y => good (key y)) l ->
  StronglySorted (ge_key lt key) l -> StronglySorted (ge_key lt key) (insert_desc lt key x l).
Proof.
  intros Hx Hg Hs. induction Hs as [|y l Hs IH Hy]; simpl.
  - constructor; constructor.
  - inversion Hg as [|? ? Hgy Hgl]; subst.
    destruct (lt (key x) (key y)) eqn:Hxy.
    + constructor; [now apply IH|].
      rewrite Forall_forall. intros z Hz.
      apply (Permutation_in _ (insert_desc_perm x l)) in Hz.
      destruct Hz as [<-|Hz].
      * now apply lt_asym.
      * rewrite Forall_forall in Hy. now apply Hy.
    + constructor; [now constructor|].
      constructor; [assumption|].
      rewrite Forall_forall in *. intros z Hz.
      apply (lt_negtrans Hx Hgy (Hgl _ Hz) Hxy). now apply Hy.
Qed.

Lemma sort_desc_sorted (l : list A) :
  Forall (fun y => good (key y)) l ->
  StronglySorted (ge_key lt key) (sort_desc lt key l).
Proof.
  induction 1 as [|x l Hx Hl IH]; simpl; [constructor|].
  apply insert_desc_sorted; [assumption| |assumption].
  rewrite Forall_forall in *. intros y Hy. apply Hl.
  now apply sort_desc_In.
Qed.

Lemma insert_asc_sorted (x : A) (l : list A) :
  good (key x) -> Forall (fun y => good (key y)) l ->
  StronglySorted (le_key lt key) l -> StronglySorted (le_key lt key) (insert_asc lt key x l).
Proof.
  intros Hx Hg Hs. induction Hs as [|y l Hs IH Hy]; simpl.
  - constructor; constructor.
  - inversion Hg as [|? ? Hgy Hgl]; subst.
    destruct (lt (key y) (key x)) eqn:Hyx.
    + constructor; [now apply IH|].
      rewrite Forall_forall. intros z Hz.
      apply (Permutation_in _ (insert_asc_perm x l)) in Hz.
      destruct Hz as [<-|Hz].
      * unfold le_key. now apply lt_asym.
      * rewrite Forall_forall in Hy. now apply Hy.
    + constructor; [now constructor|].
      constructor; [assumption|].
      rewrite Forall_forall in *. intros z Hz. unfold le_key in *.
      apply (lt_negtrans (Hgl _ Hz) Hgy Hx); [now apply Hy | assumption].
Qed.

Lemma sort_asc_sorted (l : list A) :
  Forall (fun y => good (key y)) l ->
  StronglySorted (le_key lt key) (sort_asc lt key l).
Proof.
  induction 1 as [|x l Hx Hl IH]; simpl; [constructor|].
  apply insert_asc_sorted; [assumption| |assumption].
  rewrite Forall_forall in *. intros y Hy. apply Hl.
  now apply sort_asc_In.
Qed.
End Sorting.

Lemma In_firstn {A : Type} (x : A) (n : nat) (l : list A) :
  In x (firstn n l) -> In x l.
Proof.
  revert n. induction l as [|y l IH]; intros [|n]; simpl; try contradiction.
  intros [->|H]; [now left | right; eauto].
Qed.

Lemma In_skipn {A : Type} (x : A) (n : nat) (l : list A) :
  In x (skipn n l) -> In x l.
Proof.
  revert n. induction l as [|y l IH]; intros [|n]; simpl; try contradiction;
    auto.
  intros H. right. eauto.
Qed.

(** A prefix and a suffix of an ordered list are ordered. *)
Lemma StronglySorted_firstn {A : Type} (R : A -> A -> Prop) (n : nat)
      (l : list A) :
  StronglySorted R l -> StronglySorted R (firstn n l).
Proof.
  intros Hs. revert n. induction Hs as [|x l Hs IH Hx]; intros [|n]; simpl;
    try constructor.
  - apply IH.
  - rewrite Forall_forall in *. intros y Hy. apply Hx.
    eapply In_firstn; eauto.
Qed.

Lemma StronglySorted_skipn {A : Type} (R : A -> A -> Prop) (n : nat)
      (l : list A) :
  StronglySorted R l -> StronglySorted R (skipn n l).
Proof.
  intros Hs. revert n. induction Hs as [|x l Hs IH Hx]; intros [|n]; simpl;
    try constructor; auto.
Qed.

Lemma StronglySorted_map {A B : Type} (R : B -> B -> Prop) (f : A -> B)
      (l : list A) :
  StronglySorted (fun a b => R (f a) (f b)) l -> StronglySorted R (map f l).
Proof.
  induction 1 as [|x l Hs IH Hx]; simpl; constructor; [assumption|].
  rewrite Forall_forall in *. intros y Hy.
  apply in_map_iff in Hy. destruct Hy as [z [<- Hz]]. now apply Hx.
Qed.

End SortFacts.

(* ================================================================= *)
(** ** The order on floats *)

Module FloatFacts.

Import Specs.

Local Open Scope Qc_scope.

Lemma Qc_ltb_lt (a b : Qc) : Qc_ltb a b = true <-> a < b.
Proof.
  unfold Qc_ltb, Qclt, Qccompare. rewrite Qlt_alt.
  destruct (a ?= b)%Q; split; intros; congruence.
Qed.

Lemma Qc_ltb_ge (a b : Qc) : Qc_ltb a b = false <-> b <= a.
Proof.
  unfold Qc_ltb, Qcle, Qccompare. rewrite Qle_alt.
  rewrite <- (Qcompare_antisym a b).
  destruct (a ?= b)%Q; simpl; split; intros; congruence.
Qed.

Lemma Qc_eqb_eq (a b : Qc) : Qc_eqb a b = true <-> a = b.
Proof.
  unfold Qc_eqb. rewrite (Qceq_alt a b).
  destruct (a ?= b); split; intros; congruence.
Qed.

Lemma Qc_eqb_refl (a : Qc) : Qc_eqb a a = true.
Proof. now apply Qc_eqb_eq. Qed.

Lemma Qc_ltb_irrefl (a : Qc) : Qc_ltb a a = false.
Proof. apply Qc_ltb_ge, Qcle_refl. Qed.

Lemma Q2Qc_inject_Z_le (a b : Z) :
  (a <= b)%Z -> Q2Qc (inject_Z a) <= Q2Qc (inject_Z b).
Proof.
  intros H. unfold Qcle. cbn [this Q2Qc]. rewrite !Qred_correct.
  now rewrite <- Zle_Qle.
Qed.


Lemma ltb_asym (a b : float) : ltb a b = true -> ltb b a = false.
Proof.
  destruct a as [p| | |], b as [q| | |]; simpl; try congruence.
  rewrite Qc_ltb_lt, Qc_ltb_ge. apply Qclt_le_weak.
Qed.

Lemma ltb_negtrans (a b c : float) :
  not_nan b -> ltb a b = false -> ltb b c = false -> ltb a c = false.
Proof.
  unfold not_nan.
  destruct a as [p| | |], b as [q| | |], c as [r| | |]; simpl;
    try congruence.
  rewrite !Qc_ltb_ge. intros _ H1 H2. eapply Qcle_trans; eassumption.
Qed.

Lemma ltb_irrefl (a : float) : ltb a a = false.
Proof. destruct a; simpl; try reflexivity. apply Qc_ltb_irrefl. Qed.

Lemma ltb_trans (a b c : float) :
  ltb a b = true -> ltb b c = true -> ltb a c = true.
Proof.
  destruct a as [p| | |], b as [q| | |], c as [r| | |]; simpl;
    try congruence.
  rewrite !Qc_ltb_lt. apply Qclt_trans.
Qed.

(** Python's [x >= y] on two numbers is the negation of [x < y]. *)
Lemma geb_not_ltb (a b : float) :
  not_nan a -> not_nan b -> geb a b = negb (ltb a b).
Proof.
  unfold not_nan, geb, leb.
  destruct a as [p| | |], b as [q| | |]; simpl; try congruence; try reflexivity.
  intros _ _. unfold Qc_ltb, Qc_eqb, Qccompare.
  rewrite <- (Qcompare_antisym p q).
  destruct (p ?= q)%Q; reflexivity.
Qed.

Lemma geb_nan_l (b : float) : geb NaN b = false.
Proof. now destruct b. Qed.

Lemma sort_ltb_asym (a b : float) : sort_ltb a b = true -> sort_ltb b a = false.
Proof.
  unfold sort_ltb. destruct a as [p| | |], b as [q| | |]; simpl;
    try congruence.
  rewrite !orb_false_r. rewrite Qc_ltb_lt, Qc_ltb_ge. apply Qclt_le_weak.
Qed.

Lemma sort_ltb_negtrans (a b c : float) :
  sort_ltb a b = false -> sort_ltb b c = false -> sort_ltb a c = false.
Proof.
  unfold sort_ltb. destruct a as [p| | |], b as [q| | |], c as [r| | |];
    simpl; try congruence.
  rewrite !orb_false_r, !Qc_ltb_ge. intros H1 H2.
  eapply Qcle_trans; eassumption.
Qed.

End FloatFacts.

(* ================================================================= *)
(** ** The user-item matrix *)

Module MatrixFacts.

Import PyFacts Collaborative Specs.
Local Open Scope Z_scope.

Lemma dict_get_combine_map {V : Type} (g : Z -> V) (l : list Z) (k : Z) :
  In k l -> dict_get (combine l (map g l)) k = Some (g k).
Proof.
  induction l as [|x l IH]; simpl; intros H; [contradiction|].
  destruct (Z.eqb_spec k x) as [->|Hne]; [reflexivity|].
  destruct H as [H|H]; [congruence | now apply IH].
Qed.

Lemma find_index_In (k : Z) (l : list Z) :
  In k l -> exists i, find_index (Z.eqb k) l = Some i /\ nth_error l i = Some k.
Proof.
  intros H. destruct (find_index (Z.eqb k) l) as [i|] eqn:Hf.
  - exists i. split; [reflexivity|].
    destruct (find_index_Some _ _ Hf) as [x [Hx He]].
    apply Z.eqb_eq in He. now subst.
  - rewrite find_index_None in Hf. specialize (Hf k H).
    rewrite Z.eqb_refl in Hf. discriminate.
Qed.

(** Reading a cell of a frame whose values are a function of the labels. *)
Lemma at_tabulate {V : Type} (idx cols : list Z) (f : Z -> Z -> V) (u p : Z) :
  In u idx -> In p cols ->
  at_ (mkDataFrame idx cols (map (fun u => map (f u) cols) idx)) u p
  = Some (f u p).
Proof.
  intros Hu Hp. unfold at_, loc. simpl.
  destruct (find_index_In u idx Hu) as [i [-> Hi]].
  rewrite nth_error_map, Hi. simpl.
  now apply dict_get_combine_map.
Qed.

Lemma group_scores_In (rows : list (Z * Z * option Z)) (u p s : Z) :
  In s (group_scores rows u p) <-> In (u, p, Some s) rows.
Proof.
  unfold group_scores. rewrite in_flat_map. split.
  - intros [[[u' p'] [s'|]] [Hin Hs]]; [|contradiction].
    destruct (Z.eqb_spec u u'); destruct (Z.eqb_spec p p'); simpl in Hs;
      try contradiction.
    destruct Hs as [<-|[]]. now subst.
  - intros Hin. exists (u, p, Some s). split; [assumption|].
    rewrite !Z.eqb_refl. now left.
Qed.

Lemma fold_left_max_spec (l : list Z) (x : Z) :
  let m := fold_left Z.max l x in
  (m = x \/ In m l) /\ x <= m /\ Forall (fun y => y <= m) l.
Proof.
  revert x. induction l as [|y l IH]; simpl; intros x.
  - repeat split; [now left | lia | constructor].
  - destruct (IH (Z.max x y)) as [Hm [Hle Hall]].
    repeat split.
    + destruct Hm as [Hm|Hm]; [|now right; right].
      rewrite Hm. destruct (Z.max_spec x y) as [[_ ->]|[_ ->]];
        [right; now left | now left].
    + lia.
    + constructor; [lia | assumption].
Qed.

(** [agg_max] returns the greatest member, and nothing for an empty group. *)
Lemma agg_max_spec (l : list Z) :
  match agg_max l with
  | Some m => In m l /\ forall y, In y l -> y <= m
  | None => l = []
  end.
Proof.
  destruct l as [|x l]; simpl; [reflexivity|].
  destruct (fold_left_max_spec l x) as [Hm [Hle Hall]].
  split.
  - destruct Hm as [->|Hm]; [now left | now right].
  - intros y [<-|Hy]; [assumption|].
    rewrite Forall_forall in Hall. now apply Hall.
Qed.

Lemma agg_max_ext (l l' : list Z) :
  (forall x, In x l <-> In x l') -> agg_max l = agg_max l'.
Proof.
  intros H.
  generalize (agg_max_spec l), (agg_max_spec l').
  destruct (agg_max l) as [m|], (agg_max l') as [m'|].
  - intros [Hm Hmax] [Hm' Hmax']. f_equal.
    apply Z.le_antisymm; [apply Hmax' | apply Hmax]; now apply H.
  - intros [Hm _] ->. apply H in Hm. contradiction.
  - intros -> [Hm' _]. apply H in Hm'. contradiction.
  - reflexivity.
Qed.

Lemma scored_users_In (rows : list (Z * Z * option Z)) (u : Z) :
  In u (map (fun r => fst (fst r)) (filter is_scored rows))
  <-> exists p s, In (u, p, Some s) rows.
Proof.
  rewrite in_map_iff. split.
  - intros [[[u' p] [s|]] [Hu Hin]]; apply filter_In in Hin;
      destruct Hin as [Hin Hs]; simpl in *; [|discriminate].
    subst. now exists p, s.
  - intros [p [s Hin]]. exists (u, p, Some s). split; [reflexivity|].
    apply filter_In. now split.
Qed.

Lemma scored_products_In (rows : list (Z * Z * option Z)) (p : Z) :
  In p (map (fun r => snd (fst r)) (filter is_scored rows))
  <-> exists u s, In (u, p, Some s) rows.
Proof.
  rewrite in_map_iff. split.
  - intros [[[u p'] [s|]] [Hp Hin]]; apply filter_In in Hin;
      destruct Hin as [Hin Hs]; simpl in *; [|discriminate].
    subst. now exists u, s.
  - intros [u [s Hin]]. exists (u, p, Some s). split; [reflexivity|].
    apply filter_In. now split.
Qed.

(** The pivot depends only on the set of scored rows. *)
Lemma pivot_table_ext_scored (rows rows' : list (Z * Z * option Z)) :
  (forall u p s, In (u, p, Some s) rows <-> In (u, p, Some s) rows') ->
  pivot_table rows = pivot_table rows'.
Proof.
  intros H. unfold pivot_table.
  assert (Hidx : sort_unique (map (fun r => fst (fst r)) (filter is_scored rows))
                 = sort_unique (map (fun r => fst (fst r))
                                    (filter is_scored rows'))).
  { apply sort_unique_ext. intros u. rewrite !scored_users_In.
    split; intros [p [s Hin]]; exists p, s; now apply H. }
  assert (Hcol : sort_unique (map (fun r => snd (fst r)) (filter is_scored rows))
                 = sort_unique (map (fun r => snd (fst r))
                                    (filter is_scored rows'))).
  { apply sort_unique_ext. intros p. rewrite !scored_products_In.
    split; intros [u [s Hin]]; exists u, s; now apply H. }
  rewrite Hidx, Hcol. f_equal.
  apply map_ext. intros u. apply map_ext. intros p. unfold cell_value.
  rewrite (agg_max_ext (group_scores rows u p) (group_scores rows' u p));
    [reflexivity|].
  intros s. rewrite !group_scores_In. apply H.
Qed.

Lemma pivot_table_ext (rows rows' : list (Z * Z * option Z)) :
  (forall r, In r rows <-> In r rows') ->
  pivot_table rows = pivot_table rows'.
Proof.
  intros H. apply pivot_table_ext_scored. intros u p s. apply H.
Qed.

Lemma read_scores_In (db : Database) (u p : Z) (s : option Z) :
  In (u, p, s) (read_scores db)
  <-> exists i, In i (interactions db) /\ i_user_id i = u
                /\ i_product_id i = p /\ score i = s.
Proof.
  unfold read_scores. rewrite in_map_iff. split.
  - intros [i [Hi Hin]]. inversion Hi; subst. now exists i.
  - intros [i [Hin [<- [<- <-]]]]. now exists i.
Qed.

(** The derived score of one interaction. *)
Lemma score_cases (i : Interaction) :
  (i_interaction_type i = "purchase"%string /\ score i = Some 5)
  \/ (i_interaction_type i = "rating"%string /\ score i = i_rating i)
  \/ (i_interaction_type i = "view"%string /\ score i = Some 1)
  \/ score i = None.
Proof.
  unfold score.
  destruct (String.eqb_spec (i_interaction_type i) "purchase"); [now left|].
  destruct (String.eqb_spec (i_interaction_type i) "rating");
    [right; now left|].
  destruct (String.eqb_spec (i_interaction_type i) "view");
    [right; right; now left|].
  now repeat right.
Qed.

Lemma cell_value_spec (db : Database) (u p : Z) :
  cell_spec (interactions db) u p (cell_value (read_scores db) u p).
Proof.
  unfold cell_value.
  generalize (agg_max_spec (group_scores (read_scores db) u p)).
  destruct (agg_max (group_scores (read_scores db) u p)) as [c|].
  - intros [Hc Hmax]. left. split.
    + apply group_scores_In, read_scores_In in Hc.
      destruct Hc as [i [Hin [Hiu [Hip Hs]]]]. now exists i.
    + intros i s Hin Hiu Hip Hs. apply Hmax.
      apply group_scores_In, read_scores_In. now exists i.
  - intros Hnil. right. split; [|reflexivity].
    intros i s Hin Hiu Hip Hs.
    assert (Hg : In s (group_scores (read_scores db) u p)).
    { apply group_scores_In, read_scores_In. now exists i. }
    rewrite Hnil in Hg. contradiction.
Qed.

Lemma pivot_table_cell (db : Database) (u p : Z) :
  let m := pivot_table (read_scores db) in
  In u (index m) -> In p (columns m) ->
  exists c, at_ m u p = Some c /\ cell_spec (interactions db) u p c.
Proof.
  intros m Hu Hp. unfold m, pivot_table in *. simpl in Hu, Hp.
  rewrite at_tabulate by assumption.
  eexists. split; [reflexivity|]. apply cell_value_spec.
Qed.

Lemma pivot_table_index (db : Database) (u : Z) :
  In u (index (pivot_table (read_scores db)))
  <-> exists i s, In i (interactions db) /\ i_user_id i = u
                  /\ score i = Some s.
Proof.
  unfold pivot_table. simpl. rewrite sort_unique_In, scored_users_In. split.
  - intros [p [s Hin]]. apply read_scores_In in Hin.
    destruct Hin as [i [Hin [Hiu [_ Hs]]]]. now exists i, s.
  - intros [i [s [Hin [Hiu Hs]]]]. exists (i_product_id i), s.
    apply read_scores_In. now exists i.
Qed.

Lemma pivot_table_columns (db : Database) (p : Z) :
  In p (columns (pivot_table (read_scores db)))
  <-> exists i s, In i (interactions db) /\ i_product_id i = p
                  /\ score i = Some s.
Proof.
  unfold pivot_table. simpl. rewrite sort_unique_In, scored_products_In. split.
  - intros [u [s Hin]]. apply read_scores_In in Hin.
    destruct Hin as [i [Hin [_ [Hip Hs]]]]. now exists i, s.
  - intros [i [s [Hin [Hip Hs]]]]. exists (i_user_id i), s.
    apply read_scores_In. now exists i.
Qed.

(** The [CASE] of the query gives an interaction the score the
    specification derives from it. *)
Lemma score_derived (i : Interaction) (s : Z) :
  score i = Some s <-> derived_score i s.
Proof.
  split.
  - intros H.
    destruct (score_cases i) as [[Ht Hs]|[[Ht Hs]|[[Ht Hs]|Hs]]];
      rewrite Hs in H.
    + injection H as <-. now apply purchase_5.
    + now apply rating_value.
    + injection H as <-. now apply view_1.
    + discriminate.
  - intros H. unfold score.
    destruct H as [Ht|r Ht Hr|Ht]; rewrite Ht; simpl; congruence.
Qed.

Lemma read_scores_scored_as (db : Database) (u p s : Z) :
  In (u, p, Some s) (read_scores db) <-> scored_as (interactions db) u p s.
Proof.
  rewrite read_scores_In. unfold scored_as.
  split; intros [i [Hin [Hu [Hp Hs]]]]; exists i;
    (split; [assumption|]); (split; [assumption|]);
    (split; [assumption|]); now apply score_derived.
Qed.

(** The derived score is read from the event alone. *)
Lemma derived_score_event (i j : Interaction) (s : Z) :
  event i = event j -> derived_score i s -> derived_score j s.
Proof.
  unfold event. intros E H. injection E as Eu Ep Et Er.
  destruct H as [Ht|r Ht Hr|Ht].
  - apply purchase_5. congruence.
  - apply rating_value; congruence.
  - apply view_1. congruence.
Qed.

(** A list and a copy in another order, with repetitions, give every pair
    the same derived scores. *)
Lemma same_events_same_scores (l l' : list Interaction) :
  same_events l l' -> same_scores l l'.
Proof.
  assert (G : forall a b, (forall e, In e (map event a) -> In e (map event b))
                          -> forall u p s, scored_as a u p s
                                           -> scored_as b u p s).
  { intros a b Hab u p s [i [Hin [Hu [Hp Hs]]]].
    assert (He : In (event i) (map event b)) by (apply Hab; now apply in_map).
    apply in_map_iff in He. destruct He as [j [Hj Hjin]].
    exists j. split; [exact Hjin|].
    unfold event in Hj. injection Hj as Eu Ep Et Er.
    split; [congruence|]. split; [congruence|].
    apply (@derived_score_event i j s); [|exact Hs].
    unfold event. congruence. }
  intros H u p s. split; apply G; intros e He; now apply H.
Qed.

(** Stores that give the same derived scores give the same matrix. *)
Lemma pivot_table_same_scores (db db' : Database) :
  same_scores (interactions db) (interactions db') ->
  pivot_table (read_scores db) = pivot_table (read_scores db').
Proof.
  intros H. apply pivot_table_ext_scored. intros u p s.
  rewrite !read_scores_scored_as. apply H.
Qed.

Lemma cell_value_max_score (db : Database) (u p : Z) :
  max_score (interactions db) u p (cell_value (read_scores db) u p).
Proof.
  destruct (cell_value_spec db u p) as [[[i [Hin [Hu [Hp Hs]]]] Hmax]|[Hno ->]].
  - left. split.
    + exists i. repeat (split; [assumption|]). now apply score_derived.
    + intros s [j [Hj [Hju [Hjp Hjs]]]].
      apply (Hmax j s Hj Hju Hjp). now apply score_derived.
  - right. split; [|reflexivity].
    intros s [j [Hj [Hju [Hjp Hjs]]]].
    apply (Hno j s Hj Hju Hjp). now apply score_derived.
Qed.

Lemma pivot_table_index_scored (db : Database) (u : Z) :
  In u (index (pivot_table (read_scores db)))
  <-> exists p s, scored_as (interactions db) u p s.
Proof.
  rewrite pivot_table_index. split.
  - intros [i [s [Hin [Hu Hs]]]]. exists (i_product_id i), s, i.
    repeat (split; [assumption || reflexivity|]). now apply score_derived.
  - intros [p [s [i [Hin [Hu [_ Hs]]]]]]. exists i, s.
    repeat (split; [assumption|]). now apply score_derived.
Qed.

Lemma pivot_table_columns_scored (db : Database) (p : Z) :
  In p (columns (pivot_table (read_scores db)))
  <-> exists u s, scored_as (interactions db) u p s.
Proof.
  rewrite pivot_table_columns. split.
  - intros [i [s [Hin [Hp Hs]]]]. exists (i_user_id i), s, i.
    repeat (split; [assumption || reflexivity|]). now apply score_derived.
  - intros [u [s [i [Hin [_ [Hp Hs]]]]]]. exists i, s.
    repeat (split; [assumption|]). now apply score_derived.
Qed.

End MatrixFacts.

(* ================================================================= *)
(** ** Collaborative filtering *)

Module CollaborativeFacts.

Import PyFacts SortFacts MatrixFacts Collaborative.
Local Open Scope Z_scope.

Lemma dict_set_keys {V : Type} (d : dict V) (k k' : Z) (v : V) :
  In k (dict_keys (dict_set d k' v)) <-> k = k' \/ In k (dict_keys d).
Proof.
  unfold dict_keys. induction d as [|[k0 v0] d IH]; simpl.
  - intuition.
  - destruct (Z.eqb_spec k' k0) as [->|Hne]; simpl.
    + intuition.
    + rewrite IH. intuition.
Qed.

Lemma dict_get_In {V : Type} (d : dict V) (k : Z) (v : V) :
  dict_get d k = Some v -> In (k, v) d.
Proof.
  induction d as [|[k0 v0] d IH]; simpl; [discriminate|].
  destruct (Z.eqb_spec k k0) as [->|Hne].
  - intros H. inversion H. now left.
  - intros H. right. now apply IH.
Qed.

Lemma dict_get_key {V : Type} (d : dict V) (k : Z) (v : V) :
  dict_get d k = Some v -> In k (dict_keys d).
Proof.
  intros H. apply dict_get_In in H.
  unfold dict_keys. apply in_map_iff. now exists (k, v).
Qed.

Section WithCosine.
Variable cosine : list Z -> list Z -> float.

Lemma add_weighted_keys (ups : list Z) (sim : float) (d : dict float)
      (e : Z * Z) (k : Z) :
  In k (dict_keys (add_weighted ups sim d e)) ->
  In k (dict_keys d) \/ mem k ups = false.
Proof.
  unfold add_weighted. destruct e as [pid sc].
  destruct (mem pid ups) eqn:Hm; [now left|].
  destruct (dict_get d pid); intros H; apply dict_set_keys in H;
    destruct H as [->|H]; auto.
Qed.

Lemma fold_add_weighted_keys (ups : list Z) (sim : float)
      (row : list (Z * Z)) (d : dict float) (k : Z) :
  In k (dict_keys (fold_left (add_weighted ups sim) row d)) ->
  In k (dict_keys d) \/ mem k ups = false.
Proof.
  revert d. induction row as [|e row IH]; simpl; intros d H; [now left|].
  apply IH in H. destruct H as [H|H]; [|now right].
  now apply add_weighted_keys in H.
Qed.

(** Every key of the accumulated scores was a key before or is not one of
    the target user's products. *)
Lemma accumulate_keys (m : DataFrame Z) (ups : list Z)
      (sims : list (Z * float)) (d d' : dict float) (k : Z) :
  accumulate m ups sims d = Some d' ->
  In k (dict_keys d') -> In k (dict_keys d) \/ mem k ups = false.
Proof.
  revert d. induction sims as [|[su sim] sims IH]; simpl; intros d H Hk.
  - inversion H; subst. now left.
  - destruct (loc m su) as [row|]; [|discriminate].
    destruct (IH _ H Hk) as [Hk'|Hk']; [|now right].
    now apply fold_add_weighted_keys in Hk'.
Qed.

Lemma popular_unscored (n : nat) (self self' : CF) (recs : list Rec) :
  _get_popular_products n self = (Some recs, self') ->
  self' = self /\ forall r, In r recs -> recommendation_score r = None.
Proof.
  unfold _get_popular_products, bind, get, ret. intros H.
  inversion H; subst. split; [reflexivity|].
  intros r Hr. apply in_map_iff in Hr. now destruct Hr as [p [<- _]].
Qed.

Lemma build_user_item_matrix_run (self : CF) :
  build_user_item_matrix self
  = (Some (pivot_table (read_scores (engine self))),
     mkCF (engine self) (Some (pivot_table (read_scores (engine self))))
          (user_similarity_matrix self)).
Proof. reflexivity. Qed.

(** After the guard both matrices are there. *)
Lemma ensure_matrices_built (self self' : CF) :
  ensure_matrices cosine self = (Some tt, self') ->
  exists m sim, user_item_matrix self' = Some m
                /\ user_similarity_matrix self' = Some sim
                /\ engine self' = engine self.
Proof.
  unfold ensure_matrices, bind, get.
  destruct (user_item_matrix self) as [m|] eqn:Hm;
    [destruct (user_similarity_matrix self) as [sim|] eqn:Hs|].
  - unfold ret. intros H. inversion H; subst. now exists m, sim.
  - unfold calculate_user_similarity, build_user_item_matrix, bind, get,
      put, ret, lift. simpl.
    destruct (similarity_frame cosine _) as [k|]; simpl;
      [|unfold raise; discriminate].
    intros H. inversion H; subst. simpl. eauto.
  - unfold calculate_user_similarity, build_user_item_matrix, bind, get,
      put, ret, lift. simpl.
    destruct (similarity_frame cosine _) as [k|]; simpl;
      [|unfold raise; discriminate].
    intros H. inversion H; subst. simpl. eauto.
Qed.

Lemma get_similar_users_built (u : Z) (n : nat) (self : CF)
      (sim : DataFrame float) :
  user_similarity_matrix self = Some sim ->
  snd (get_similar_users cosine u n self) = self.
Proof.
  intros Hs. unfold get_similar_users, bind, get. rewrite Hs.
  unfold ret at 1. destruct (negb (mem u (index sim))); [reflexivity|].
  unfold lift. destruct (col sim u); reflexivity.
Qed.

(** A product with a positive cell in the row is one of [user_products]. *)
Lemma positive_row_mem (row : list (Z * Z)) (pid c : Z) :
  dict_get row pid = Some c -> 0 < c ->
  mem pid (map fst (positive row)) = true.
Proof.
  intros Hget Hc. apply mem_In, in_map_iff. exists (pid, c).
  split; [reflexivity|]. apply filter_In. split.
  - now apply dict_get_In.
  - simpl. now apply Z.ltb_lt.
Qed.

Lemma fetched_recs_keys (sp : dict float) (fetched : list Product)
      (recs : list Rec) :
  fold_right
    (fun p acc =>
       match dict_get sp (p_id p), acc with
       | Some sc, Some l =>
           Some (mkRec (p_id p) (p_title p) (p_category p)
                       (Fin (p_price p))
                       (float_or_none (p_rating p))
                       (p_review_count p) None (Some sc)
                       (Some (picsum (p_id p))) None :: l)
       | _, _ => None
       end)
    (Some []) fetched = Some recs ->
  forall r, In r recs -> In (product_id r) (dict_keys sp).
Proof.
  revert recs. induction fetched as [|p fetched IH]; simpl;
    intros recs H r Hr.
  - inversion H; subst. contradiction.
  - destruct (dict_get sp (p_id p)) as [sc|] eqn:Hg; [|discriminate].
    destruct (fold_right _ _ fetched) as [l|]; [|discriminate].
    inversion H; subst. destruct Hr as [<-|Hr].
    + simpl. eapply dict_get_key; eauto.
    + eapply IH; eauto.
Qed.

End WithCosine.

End CollaborativeFacts.

(* ================================================================= *)
(** ** The order of the neighbours *)

Module CollaborativeOrder.
Import PyFacts SortFacts FloatFacts MatrixFacts Specs Collaborative CollaborativeFacts.
Local Open Scope Z_scope.

Lemma StronglySorted_app {A : Type} (R : A -> A -> Prop) (l1 l2 : list A) :
  StronglySorted R l1 -> StronglySorted R l2 ->
  (forall x y, In x l1 -> In y l2 -> R x y) ->
  StronglySorted R (l1 ++ l2).
Proof.
  induction 1 as [|a l1 Hs IH Ha]; simpl; intros H2 Hc; [assumption|].
  constructor.
  - apply IH; [assumption|]. intros x y Hx Hy. apply Hc; [now right|assumption].
  - rewrite Forall_forall in *. intros y Hy.
    apply in_app_or in Hy. destruct Hy as [Hy|Hy]; [now apply Ha|].
    apply Hc; [now left | assumption].
Qed.

Lemma sorted_desc_ordered {A : Type} (key : A -> float) (l : list A) :
  Forall (fun x => not_nan (key x)) l ->
  StronglySorted (fun a b => ltb (key a) (key b) = false) (sorted_desc key l).
Proof.
  intros H. unfold sorted_desc.
  apply (sort_desc_sorted ltb key not_nan).
  - intros a b _ _. apply ltb_asym.
  - intros a b c _ Hb _. now apply ltb_negtrans.
  - assumption.
Qed.

Lemma sort_values_desc_ordered (s : list (Z * float)) :
  StronglySorted not_below (sort_values_desc s).
Proof.
  unfold sort_values_desc. apply StronglySorted_app.
  - apply (sorted_desc_ordered snd).
    rewrite Forall_forall. intros x Hx. apply filter_In in Hx.
    destruct Hx as [_ Hx]. unfold not_nan. now destruct (is_nan (snd x)).
  - induction s as [|x s IH]; simpl; [constructor|].
    destruct (is_nan (snd x)) eqn:Hx; [|assumption].
    constructor; [assumption|].
    rewrite Forall_forall. intros y Hy. apply filter_In in Hy.
    destruct Hy as [_ Hy]. unfold not_below.
    destruct (snd x); try discriminate. reflexivity.
  - intros x y _ Hy. apply filter_In in Hy. destruct Hy as [_ Hy].
    unfold not_below. destruct (snd y); try discriminate.
    now destruct (snd x).
Qed.

Lemma sort_values_desc_In (s : list (Z * float)) (e : Z * float) :
  In e (sort_values_desc s) <-> In e s.
Proof.
  unfold sort_values_desc, sorted_desc. rewrite in_app_iff, sort_desc_In.
  rewrite !filter_In. destruct (is_nan (snd e)); simpl; intuition congruence.
Qed.

(** The neighbours come out by similarity descending, ties included. *)
Lemma get_similar_users_ordered (cosine : list Z -> list Z -> float)
      (u : Z) (n : nat) (self self' : CF) (l : list (Z * float)) :
  get_similar_users cosine u n self = (Some l, self') ->
  StronglySorted not_below l.
Proof.
  unfold get_similar_users. intros H.
  run_get H. run_bind H sim s1 Hsim.
  destruct (negb (mem u (index sim))).
  - apply MethodFacts.ret_Some in H. destruct H as [-> _]. constructor.
  - run_lift H series Hcol.
    apply MethodFacts.ret_Some in H. destruct H as [-> _].
    apply StronglySorted_skipn, StronglySorted_firstn,
      sort_values_desc_ordered.
Qed.

(** The slice [[1:n+1]] drops the first entry of the sorted column whoever
    it is.  For two entries with equal similarity any sort, stable or not,
    puts one of the two first, and the other one is returned. *)
Lemma drop_first_of_a_tie (sort : list (Z * float) -> list (Z * float))
      (a b : Z * float) (n : nat) :
  (forall s, Permutation (sort s) s) -> (1 <= n)%nat ->
  let kept := skipn 1 (firstn (n + 1) (sort [a; b])) in
  kept = [a] \/ kept = [b].
Proof.
  intros Hperm Hn kept. subst kept.
  pose proof (Hperm [a; b]) as Hp.
  pose proof (Permutation_length Hp) as Hlen.
  destruct (sort [a; b]) as [|x [|y [|z l]]]; simpl in Hlen; try discriminate.
  apply Permutation_length_2 in Hp.
  replace (n + 1)%nat with (S n) by lia. simpl.
  destruct n as [|n]; [lia|]. simpl.
  destruct Hp as [[-> ->]|[-> ->]]; destruct n; simpl; auto.
Qed.
End CollaborativeOrder.

(* ================================================================= *)
(** ** The exact cosine of two rows *)

Module CosineFacts.
Import Cosine.
Local Open Scope R_scope.




















End CosineFacts.

(* ================================================================= *)
(** ** The exact user similarity of a built matrix *)

Module SimilarityFacts.
Import PyFacts MatrixFacts Specs Collaborative CosineFacts.
Local Open Scope Z_scope.

Lemma score_at_least_1 (db : Database) (i : Interaction) (s : Z) :
  valid_ratings db -> In i (interactions db) -> score i = Some s -> 1 <= s.
Proof.
  intros Hv Hin Hs.
  destruct (score_cases i) as [[_ H]|[[_ H]|[[_ H]|H]]]; rewrite H in Hs.
  - inversion Hs. lia.
  - now apply (Hv i s Hin).
  - inversion Hs. lia.
  - discriminate.
Qed.

Lemma cell_value_nonneg (db : Database) (u p : Z) :
  valid_ratings db -> 0 <= cell_value (read_scores db) u p.
Proof.
  intros Hv. destruct (cell_value_spec db u p) as [[[i [Hin [_ [_ Hs]]]] _]|[_ ->]];
    [|lia].
  pose proof (@score_at_least_1 db i _ Hv Hin Hs). lia.
Qed.


(** The similarity frame of a pivot, cell by cell. *)
Lemma similarity_frame_pivot {V : Type} (cosine : list Z -> list Z -> V)
      (rows : list (Z * Z * option Z)) (u0 : Z) :
  let m := pivot_table rows in
  let row := fun u => map (cell_value rows u) (columns m) in
  In u0 (index m) ->
  similarity_frame cosine m
  = Some (mkDataFrame (index m) (index m)
            (map (fun u => map (fun v => cosine (row u) (row v)) (index m))
                 (index m))).
Proof.
  intros m row Hu0. unfold similarity_frame, cosine_similarity.
  assert (Hcols : columns m <> []).
  { unfold m, pivot_table in *. simpl in *.
    apply sort_unique_In, scored_users_In in Hu0.
    destruct Hu0 as [p [s Hin]].
    assert (Hp : In p (sort_unique (map (fun r => snd (fst r))
                                        (filter is_scored rows)))).
    { apply sort_unique_In, scored_products_In. now exists u0, s. }
    intros E. rewrite E in Hp. contradiction. }
  assert (Hv : values m = map row (index m)) by reflexivity.
  rewrite Hv.
  destruct (index m) as [|u1 idx] eqn:Hidx; [contradiction|].
  simpl map at 1.
  destruct (row u1) as [|c cs] eqn:Hrow.
  { exfalso. unfold row in Hrow. apply map_eq_nil in Hrow. contradiction. }
  f_equal. f_equal. rewrite map_map. apply map_ext. intros u. now rewrite map_map.
Qed.

End SimilarityFacts.

(* ================================================================= *)
(** ** The hybrid combiner *)

Module HybridFacts.
Import PyFacts SortFacts FloatFacts CollaborativeFacts Specs Hybrid.
Local Open Scope Z_scope.

Lemma dict_get_set {V : Type} (d : dict V) (k k' : Z) (v : V) :
  dict_get (dict_set d k v) k' = if Z.eqb k' k then Some v else dict_get d k'.
Proof.
  induction d as [|[k0 v0] d IH]; simpl.
  - reflexivity.
  - destruct (Z.eqb_spec k k0) as [->|Hne]; simpl.
    + destruct (Z.eqb_spec k' k0); reflexivity.
    + rewrite IH. destruct (Z.eqb_spec k' k0) as [E0|H0];
        destruct (Z.eqb_spec k' k) as [E1|H1]; try reflexivity.
      congruence.
Qed.

Lemma dict_get_None {V : Type} (d : dict V) (k : Z) :
  dict_get d k = None <-> ~ In k (dict_keys d).
Proof.
  unfold dict_keys. induction d as [|[k0 v0] d IH]; simpl.
  - intuition.
  - destruct (Z.eqb_spec k k0) as [->|Hne].
    + split; [discriminate | intros H; exfalso; apply H; now left].
    + rewrite IH. intuition.
Qed.

Lemma dict_set_NoDup {V : Type} (d : dict V) (k : Z) (v : V) :
  NoDup (dict_keys d) -> NoDup (dict_keys (dict_set d k v)).
Proof.
  unfold dict_keys. induction d as [|[k0 v0] d IH]; simpl; intros H.
  - constructor; [intros [] | constructor].
  - inversion H as [|? ? Hn Hd]; subst.
    destruct (Z.eqb_spec k k0) as [->|Hne]; simpl.
    + now constructor.
    + constructor; [|now apply IH].
      intros Hin. apply (dict_set_keys d k0 k v) in Hin.
      destruct Hin as [Hin|Hin]; [congruence | contradiction].
Qed.

Lemma find_app {A : Type} (f : A -> bool) (l1 l2 : list A) :
  find f (l1 ++ l2)
  = match find f l1 with Some x => Some x | None => find f l2 end.
Proof.
  induction l1 as [|x l1 IH]; simpl; [reflexivity|].
  now destruct (f x).
Qed.

(** [by_product_id] holds, for every id, the last record of the list. *)
Lemma fold_set_get (recs : list Rec) (d : dict Rec) (pid : Z) :
  dict_get (fold_left (fun d rec => dict_set d (product_id rec) rec) recs d)
           pid
  = match lookup_last recs pid with
    | Some r => Some r
    | None => dict_get d pid
    end.
Proof.
  unfold lookup_last. revert d. induction recs as [|r recs IH]; intros d.
  - reflexivity.
  - simpl. rewrite IH, find_app.
    destruct (find _ (rev recs)) as [x|]; [reflexivity|].
    simpl. rewrite dict_get_set. rewrite (Z.eqb_sym pid).
    now destruct (product_id r =? pid).
Qed.

Lemma by_product_id_get (recs : list Rec) (pid : Z) :
  dict_get (by_product_id recs) pid = lookup_last recs pid.
Proof.
  unfold by_product_id. rewrite fold_set_get.
  now destruct (lookup_last recs pid).
Qed.

Lemma fold_set_NoDup (recs : list Rec) (d : dict Rec) :
  NoDup (dict_keys d) ->
  NoDup (dict_keys
           (fold_left (fun d rec => dict_set d (product_id rec) rec) recs d)).
Proof.
  revert d. induction recs as [|r recs IH]; simpl; intros d H;
    [assumption|].
  apply IH. now apply dict_set_NoDup.
Qed.

Lemma by_product_id_NoDup (recs : list Rec) :
  NoDup (dict_keys (by_product_id recs)).
Proof. apply fold_set_NoDup. constructor. Qed.

Lemma lookup_last_Some (recs : list Rec) (pid : Z) :
  (exists r, lookup_last recs pid = Some r) <-> In pid (map product_id recs).
Proof.
  unfold lookup_last. split.
  - intros [r H]. apply find_some in H. destruct H as [Hin He].
    apply Z.eqb_eq in He. subst pid. apply in_map. now apply in_rev.
  - intros H. apply in_map_iff in H. destruct H as [r [<- Hin]].
    destruct (find _ (rev recs)) as [x|] eqn:Hf; [now exists x|].
    apply in_rev in Hin. apply (find_none _ _ Hf) in Hin.
    rewrite Z.eqb_refl in Hin. discriminate.
Qed.

Section WithArithmetic.
Context {A : Arithmetic}.

Lemma fold_add_collab_get (items : dict Rec) (d : dict Scored) (pid : Z) :
  NoDup (dict_keys items) ->
  dict_get (fold_left add_collab items d) pid
  = match dict_get items pid with
    | Some rec => Some (mkScored (collab_part rec) rec)
    | None => dict_get d pid
    end.
Proof.
  revert d. induction items as [|[k r] items IH]; simpl; intros d Hnd;
    [reflexivity|].
  inversion Hnd as [|? ? Hk Hnd']; subst.
  rewrite IH by assumption.
  destruct (Z.eqb_spec pid k) as [->|Hne].
  - apply dict_get_None in Hk. unfold dict_keys in Hk. rewrite Hk.
    rewrite dict_get_set, Z.eqb_refl. reflexivity.
  - destruct (dict_get items pid); [reflexivity|].
    rewrite dict_get_set. now destruct (Z.eqb_spec pid k).
Qed.

Lemma fold_add_content_get (items : dict Rec) (d : dict Scored) (pid : Z) :
  NoDup (dict_keys items) ->
  dict_get (fold_left add_content items d) pid
  = match dict_get items pid, dict_get d pid with
    | Some rec, Some h =>
        Some (mkScored (fadd (score h) (content_part rec)) (data h))
    | Some rec, None => Some (mkScored (content_part rec) rec)
    | None, x => x
    end.
Proof.
  revert d. induction items as [|[k r] items IH]; simpl; intros d Hnd.
  - now destruct (dict_get d pid).
  - inversion Hnd as [|? ? Hk Hnd']; subst.
    rewrite IH by assumption.
    destruct (Z.eqb_spec pid k) as [->|Hne].
    + apply dict_get_None in Hk. unfold dict_keys in Hk. rewrite Hk.
      destruct (dict_get d k) as [h|]; rewrite dict_get_set, Z.eqb_refl;
        reflexivity.
    + assert (Hd : dict_get
                     (match dict_get d k with
                      | Some h =>
                          dict_set d k
                            (mkScored (fadd (score h) (content_part r))
                                      (data h))
                      | None => dict_set d k (mkScored (content_part r) r)
                      end) pid = dict_get d pid).
      { destruct (dict_get d k); rewrite dict_get_set;
          now destruct (Z.eqb_spec pid k). }
      rewrite Hd. reflexivity.
Qed.

(** The entry of [hybrid_scores] for a product id. *)
Lemma hybrid_scores_get (content_recs collab_recs : list Rec) (pid : Z) :
  dict_get (hybrid_scores content_recs collab_recs) pid
  = match lookup_last content_recs pid, lookup_last collab_recs pid with
    | Some rs, Some rc =>
        Some (mkScored (fadd (collab_part rc) (content_part rs)) rc)
    | Some rs, None => Some (mkScored (content_part rs) rs)
    | None, Some rc => Some (mkScored (collab_part rc) rc)
    | None, None => None
    end.
Proof.
  unfold hybrid_scores.
  rewrite fold_add_content_get by apply by_product_id_NoDup.
  rewrite fold_add_collab_get by apply by_product_id_NoDup.
  rewrite !by_product_id_get. simpl.
  destruct (lookup_last content_recs pid), (lookup_last collab_recs pid);
    reflexivity.
Qed.

(** [x or 0] is [x], and 0 for a missing [x]: the one falsy float is 0. *)
Lemma or_0_default (x : option float) : or_0 x = default_0 x.
Proof.
  destruct x as [v|]; [|reflexivity]. unfold or_0, truthy, default_0.
  destruct v as [q| | |]; try reflexivity. simpl.
  destruct (Qc_eqb q (Q2Qc (inject_Z 0))) eqn:E; [|reflexivity].
  apply Qc_eqb_eq in E. now subst q.
Qed.

(** The score of an entry of [hybrid_scores] is the weighted score of the
    specification. *)
Lemma hybrid_scores_weighted (content_recs collab_recs : list Rec) (pid : Z)
      (h : Scored) :
  dict_get (hybrid_scores content_recs collab_recs) pid = Some h ->
  weighted_score collab_recs content_recs pid = Some (score h).
Proof.
  rewrite hybrid_scores_get. unfold weighted_score.
  destruct (lookup_last content_recs pid) as [rs|],
           (lookup_last collab_recs pid) as [rc|];
    intros Hh; inversion Hh; subst; cbn [score];
    unfold collab_part, content_part; rewrite !or_0_default; reflexivity.
Qed.

End WithArithmetic.

Lemma add_zero_r (x : float) : (x + zero)%py = x.
Proof.
  destruct x as [q| | |]; try reflexivity.
  simpl. f_equal. unfold zero, of_Z. change (Q2Qc (inject_Z 0)) with 0%Qc.
  ring.
Qed.

Lemma add_zero_l (x : float) : (zero + x)%py = x.
Proof.
  destruct x as [q| | |]; try reflexivity.
  simpl. f_equal. change (Q2Qc (inject_Z 0)) with 0%Qc. ring.
Qed.

Lemma mul_zero_l (q : Q) : (zero * of_Q q)%py = zero.
Proof.
  simpl. unfold zero, of_Z. f_equal. change (Q2Qc (inject_Z 0)) with 0%Qc.
  ring.
Qed.

Lemma or_0_None : or_0 None = zero.
Proof. reflexivity. Qed.

(** On the rationals the weighted score is the one formula
    [0.6 * collaborative + 0.4 * content], in which the score of a list
    that does not have the product counts as 0. *)
Lemma weighted_score_exact (collab_recs content_recs : list Rec) (pid : Z)
      (s : float) :
  @weighted_score exact collab_recs content_recs pid = Some s ->
  s = (default_0 (collab_score collab_recs pid) * of_Q (6 # 10)
       + default_0 (content_score content_recs pid) * of_Q (4 # 10))%py.
Proof.
  unfold weighted_score, collab_score, content_score.
  destruct (lookup_last collab_recs pid) as [rc|],
           (lookup_last content_recs pid) as [rs|];
    intros H; inversion H; subst; cbn [default_0 fmul fadd exact].
  - reflexivity.
  - now rewrite mul_zero_l, add_zero_r.
  - now rewrite mul_zero_l, add_zero_l.
Qed.

Lemma or_0_finite (x : option float) :
  (forall v, x = Some v -> is_finite v = true) -> is_finite (or_0 x) = true.
Proof.
  intros H. unfold or_0. destruct x as [v|]; [|reflexivity].
  destruct (truthy v); [now apply H | reflexivity].
Qed.

Lemma mul_finite (x y : float) :
  is_finite x = true -> is_finite y = true -> is_finite (x * y)%py = true.
Proof. destruct x, y; simpl; congruence. Qed.

Lemma add_finite (x y : float) :
  is_finite x = true -> is_finite y = true -> is_finite (x + y)%py = true.
Proof. destruct x, y; simpl; congruence. Qed.

Lemma finite_not_nan (x : float) : is_finite x = true -> not_nan x.
Proof. unfold not_nan. destruct x; simpl; congruence. Qed.

Lemma dict_set_Forall {V : Type} (P : V -> Prop) (d : dict V) (k : Z) (v : V) :
  Forall (fun e => P (snd e)) d -> P v ->
  Forall (fun e => P (snd e)) (dict_set d k v).
Proof.
  induction 1 as [|[k0 v0] d H0 Hd IH]; simpl; intros Hv.
  - constructor; [assumption | constructor].
  - destruct (Z.eqb k k0); constructor; auto.
Qed.

Lemma dict_get_Forall {V : Type} (P : V -> Prop) (d : dict V) (k : Z) (v : V) :
  Forall (fun e => P (snd e)) d -> dict_get d k = Some v -> P v.
Proof.
  intros H Hg. apply dict_get_In in Hg. rewrite Forall_forall in H.
  now apply (H (k, v)).
Qed.

Lemma by_product_id_Forall (P : Rec -> Prop) (recs : list Rec) :
  Forall P recs -> Forall (fun e => P (snd e)) (by_product_id recs).
Proof.
  unfold by_product_id.
  assert (G : forall d, Forall (fun e => P (snd e)) d -> Forall P recs ->
    Forall (fun e => P (snd e))
           (fold_left (fun d rec => dict_set d (product_id rec) rec) recs d)).
  { induction recs as [|r recs IH]; simpl; intros d Hd Hr; [assumption|].
    inversion Hr; subst. apply IH; [|assumption].
    now apply dict_set_Forall. }
  intros H. apply G; [constructor | assumption].
Qed.

(** On the rationals finite scores give finite hybrid scores. *)
Lemma collab_part_finite (r : Rec) :
  finite_scores r -> is_finite (@collab_part exact r) = true.
Proof.
  intros [H _]. unfold collab_part.
  apply mul_finite; [now apply or_0_finite | reflexivity].
Qed.

Lemma content_part_finite (r : Rec) :
  finite_scores r -> is_finite (@content_part exact r) = true.
Proof.
  intros [_ H]. unfold content_part.
  apply mul_finite; [now apply or_0_finite | reflexivity].
Qed.

Lemma hybrid_scores_finite (content_recs collab_recs : list Rec) :
  Forall finite_scores content_recs -> Forall finite_scores collab_recs ->
  Forall (fun e => finite_entry (snd e))
         (@hybrid_scores exact content_recs collab_recs).
Proof.
  intros Hs Hc. unfold hybrid_scores.
  apply by_product_id_Forall in Hs. apply by_product_id_Forall in Hc.
  assert (H1 : Forall (fun e => finite_entry (snd e))
                      (fold_left (@add_collab exact)
                                 (by_product_id collab_recs) [])).
  { generalize (@nil (Z * Scored)) (Forall_nil (fun e : Z * Scored =>
                                                  finite_entry (snd e))).
    induction Hc as [|[k r] items Hr Hitems IH]; simpl; intros d Hd;
      [assumption|].
    apply IH. apply dict_set_Forall; [assumption|].
    now apply collab_part_finite. }
  revert H1.
  generalize (fold_left (@add_collab exact) (by_product_id collab_recs) []).
  induction Hs as [|[k r] items Hr Hitems IH]; simpl; intros d Hd;
    [assumption|].
  apply IH. destruct (dict_get d k) as [h|] eqn:Hg.
  - apply dict_set_Forall; [assumption|].
    unfold finite_entry. simpl. apply add_finite.
    + exact (@dict_get_Forall _ finite_entry d k h Hd Hg).
    + now apply content_part_finite.
  - apply dict_set_Forall; [assumption|].
    now apply content_part_finite.
Qed.

End HybridFacts.

(* ================================================================= *)
(** ** Content-based filtering: the blended similarity *)

Module ContentFacts.
Import PyFacts SortFacts FloatFacts Specs ContentBased.
Local Open Scope Z_scope.

Lemma zip_with_map_combine {A B : Type} (f : float -> float -> float)
      (g : A -> float) (h : B -> float) (a : list A) (b : list B) :
  zip_with f (map g a) (map h b)
  = map (fun p => f (g (fst p)) (h (snd p))) (combine a b).
Proof.
  revert b. induction a as [|x a IH]; intros [|y b]; simpl; try reflexivity.
  now rewrite IH.
Qed.

Lemma zip_with_combine_snd {A B : Type} (f : float -> float -> float)
      (k : A * B -> float) (h : B -> float) (a : list A) (b : list B) :
  List.length a = List.length b ->
  zip_with f (map k (combine a b)) (map h b)
  = map (fun p => f (k p) (h (snd p))) (combine a b).
Proof.
  revert b. induction a as [|x a IH]; intros [|y b]; simpl; try reflexivity;
    try discriminate.
  intros H. inversion H. now rewrite IH.
Qed.

Lemma np_binop_same_length (f : float -> float -> float) (a b : list float) :
  List.length a = List.length b -> np_binop f a b = Some (zip_with f a b).
Proof. intros H. unfold np_binop. now rewrite H, Nat.eqb_refl. Qed.

Lemma length_combine_same {A B : Type} (a : list A) (b : list B) :
  List.length a = List.length b -> List.length (combine a b) = List.length b.
Proof. intros H. rewrite length_combine, H. apply Nat.min_id. Qed.

Lemma nth_error_combine {A B : Type} (a : list A) (b : list B) (i : nat)
      (x : A) (y : B) :
  nth_error a i = Some x -> nth_error b i = Some y ->
  nth_error (combine a b) i = Some (x, y).
Proof.
  revert b i. induction a as [|x0 a IH]; intros [|y0 b] [|i]; simpl;
    try discriminate.
  - intros H1 H2. now inversion H1; inversion H2.
  - apply IH.
Qed.

(** The greatest price of a non-empty catalog. *)
Lemma fold_Qc_max_spec (l : list Qc) (x : Qc) :
  let m := fold_left Qc_max l x in
  (m = x \/ In m l) /\ (x <= m)%Qc /\ forall y, In y l -> (y <= m)%Qc.
Proof.
  revert x. induction l as [|y l IH]; simpl; intros x.
  - repeat split; [now left | apply Qcle_refl | intros y []].
  - destruct (IH (Qc_max x y)) as [Hm [Hle Hall]].
    assert (Hx : (x <= Qc_max x y)%Qc /\ (y <= Qc_max x y)%Qc
                 /\ (Qc_max x y = x \/ Qc_max x y = y)).
    { unfold Qc_max. destruct (Qc_ltb x y) eqn:E.
      - apply Qc_ltb_lt in E. repeat split;
          [now apply Qclt_le_weak | apply Qcle_refl | now right].
      - apply Qc_ltb_ge in E. repeat split;
          [apply Qcle_refl | assumption | now left]. }
    destruct Hx as [Hx [Hy Hc]]. repeat split.
    + destruct Hm as [Hm|Hm]; [|now right; right].
      rewrite Hm. destruct Hc as [->| ->]; [now left | right; now left].
    + eapply Qcle_trans; eassumption.
    + intros z [<-|Hz]; [eapply Qcle_trans; eassumption | now apply Hall].
Qed.

Lemma price_max_spec (df : list Product) (M : Qc) :
  max_price df M -> price_max df = Fin M.
Proof.
  intros [Hin Hmax]. destruct df as [|p ps]; [contradiction|].
  unfold price_max. f_equal.
  destruct (fold_Qc_max_spec (map p_price ps) (p_price p)) as [Hm [Hle Hall]].
  apply Qcle_antisym.
  - destruct Hm as [->|Hm]; [apply Hmax; now left|].
    apply in_map_iff in Hm. destruct Hm as [q [<- Hq]]. apply Hmax. now right.
  - destruct Hin as [<-|Hin]; [assumption | now apply Hall].
Qed.

Lemma max_price_exists (df : list Product) :
  df <> [] -> exists M, max_price df M.
Proof.
  destruct df as [|p ps]; [congruence|]. intros _.
  exists (fold_left Qc_max (map p_price ps) (p_price p)).
  destruct (fold_Qc_max_spec (map p_price ps) (p_price p)) as [Hm [Hle Hall]].
  split.
  - simpl. destruct Hm as [->|Hm]; [now left | now right].
  - intros q [<-|Hq]; [assumption|]. apply Hall. now apply in_map.
Qed.







Lemma category_sim_binary (ref p : Product) :
  (p_category p = p_category ref /\ category_sim ref p = one)
  \/ (p_category p <> p_category ref /\ category_sim ref p = zero).
Proof.
  unfold category_sim.
  destruct (String.eqb_spec (p_category p) (p_category ref)); [left|right];
    now split.
Qed.

Section WithSklearn.
Variable vocabulary : Type.
Variable cosine : list Qc -> list Qc -> Qc.

(** The similarity vector of a loaded recommender, entry by entry. *)
Lemma calculate_similarity_run (self : CB vocabulary) (df : list Product)
      (tfidf : list (list Qc)) (product_idx : nat) (ref : Product)
      (ref_row : list Qc) :
  loaded self df tfidf ->
  nth_error df product_idx = Some ref ->
  nth_error tfidf product_idx = Some ref_row ->
  calculate_similarity cosine product_idx self
  = (Some (map (fun rp =>
                  blend (Fin (cosine ref_row (fst rp)))
                        (category_sim ref (snd rp))
                        (price_sim (price_max df) ref (snd rp)))
               (combine tfidf df)),
     self).
Proof.
  intros [[f [Hdf Hrows]] [Htf Hlen]] Href Hrow.
  unfold calculate_similarity, bind, get, lift.
  rewrite Hdf, Htf. simpl. rewrite Hrow. simpl. rewrite Hrows, Href. simpl.
  unfold np_scale. rewrite !map_map.
  rewrite np_binop_same_length by (now rewrite !length_map).
  simpl. rewrite zip_with_map_combine.
  rewrite np_binop_same_length
    by (now rewrite !length_map, length_combine_same).
  simpl. rewrite zip_with_combine_snd by assumption.
  reflexivity.
Qed.

End WithSklearn.

End ContentFacts.

(* ================================================================= *)
(** ** Content-based filtering: the walk over the ranked catalog *)

Module WalkFacts.
Import PyFacts SortFacts FloatFacts Specs ContentBased ContentFacts.
Local Open Scope nat_scope.

Lemma StronglySorted_rev {A : Type} (R : A -> A -> Prop) (l : list A) :
  StronglySorted R l -> StronglySorted (fun a b => R b a) (rev l).
Proof.
  induction 1 as [|x l Hs IH Hx]; simpl; [constructor|].
  apply CollaborativeOrder.StronglySorted_app.
  - assumption.
  - constructor; constructor.
  - intros a b Ha [<-|[]]. rewrite Forall_forall in Hx. apply Hx.
    now apply in_rev.
Qed.

Lemma StronglySorted_filter {A : Type} (R : A -> A -> Prop) (f : A -> bool)
      (l : list A) :
  StronglySorted R l -> StronglySorted R (filter f l).
Proof.
  induction 1 as [|x l Hs IH Hx]; simpl; [constructor|].
  destruct (f x); [|assumption].
  constructor; [assumption|].
  rewrite Forall_forall in *. intros y Hy. apply filter_In in Hy.
  now apply Hx.
Qed.

Lemma argsort_perm (a : list float) :
  Permutation (argsort a) (seq 0 (List.length a)).
Proof. apply sort_asc_perm. Qed.

Lemma argsort_In (a : list float) (i : nat) :
  In i (argsort a) <-> i < List.length a.
Proof.
  unfold argsort. rewrite sort_asc_In, in_seq. lia.
Qed.

(** The reversed [argsort] runs through the positions by value descending,
    in numpy's order. *)
Lemma rev_argsort_sorted (a : list float) :
  StronglySorted (fun i j => sort_ltb (nth i a NaN) (nth j a NaN) = false)
                 (rev (argsort a)).
Proof.
  apply (StronglySorted_rev
           (R := fun i j => sort_ltb (nth j a NaN) (nth i a NaN) = false)).
  apply (sort_asc_sorted sort_ltb (fun i => nth i a NaN) (fun _ => True)).
  - intros x y _ _. apply sort_ltb_asym.
  - intros x y z _ _ _. apply sort_ltb_negtrans.
  - apply Forall_forall. intros; exact I.
Qed.

Lemma walk_spec (df : list Product) (scores : list float)
      (product_idx n : nat) (min_score : float) (idxs : list nat)
      (acc : list Rec) :
  Forall (fun i => i < List.length scores /\ i < List.length df) idxs ->
  exists k new,
    walk df scores product_idx n min_score idxs acc = Some (acc ++ new)
    /\ Forall2 (entry_of df scores) new
               (filter (fun i => negb (Nat.eqb i product_idx))
                       (firstn k idxs))
    /\ Forall (fun r => ltb (sim_of r) min_score = false) new
    /\ (List.length acc < n -> List.length (acc ++ new) <= n).
Proof.
  intros Hv. revert acc.
  induction Hv as [|i idxs [Hi1 Hi2] Hv IH]; intros acc.
  - exists 0, []. simpl. rewrite app_nil_r.
    repeat split; try constructor. lia.
  - simpl. destruct (Nat.eqb i product_idx) eqn:Hself.
    + destruct (IH acc) as [k [new [Hw [Hf [Hm Hl]]]]].
      exists (S k), new. simpl. rewrite Hself. simpl. auto.
    + destruct (nth_error scores i) as [s|] eqn:Hs;
        [|apply nth_error_None in Hs; lia].
      destruct (nth_error df i) as [p|] eqn:Hp;
        [|apply nth_error_None in Hp; lia].
      destruct (ltb s min_score) eqn:Hlt.
      * exists 0, []. simpl. rewrite app_nil_r.
        repeat split; try constructor. lia.
      * destruct (Nat.leb n (List.length (acc ++ [entry p s]))) eqn:Hn.
        -- exists 1, [entry p s]. simpl. rewrite Hself. simpl.
           repeat split.
           ++ constructor; [|constructor]. now exists p, s.
           ++ constructor; [assumption | constructor].
           ++ rewrite length_app. simpl. lia.
        -- destruct (IH (acc ++ [entry p s])) as [k [new [Hw [Hf [Hm Hl]]]]].
           exists (S k), (entry p s :: new). simpl. rewrite Hself. simpl.
           rewrite <- app_assoc in Hw, Hl. simpl in Hw, Hl.
           repeat split.
           ++ assumption.
           ++ constructor; [now exists p, s | assumption].
           ++ constructor; assumption.
           ++ intros _. apply Hl. apply Nat.leb_gt in Hn. assumption.
Qed.

End WalkFacts.

(* ================================================================= *)
(** ** Content-based filtering: [get_similar_products] *)

Module SimilarFacts.
Import PyFacts SortFacts FloatFacts Specs ContentBased ContentFacts WalkFacts.
Local Open Scope nat_scope.

Section WithSklearn.
Variable vocabulary : Type.
Variable fit : list string -> option vocabulary.
Variable transform : vocabulary -> string -> list Qc.
Variable cosine : list Qc -> list Qc -> Qc.

(** The guard does nothing on a recommender that holds both. *)
Lemma ensure_loaded_held (self : CB vocabulary) (f : ProductsFrame)
      (tfidf : list (list Qc)) :
  products_df self = Some f -> tfidf_matrix self = Some tfidf ->
  ensure_loaded fit transform self = (Some tt, self).
Proof.
  intros Hdf Htf. unfold ensure_loaded, bind, get. now rewrite Hdf, Htf.
Qed.

Lemma ensure_loaded_loaded (self : CB vocabulary) (df : list Product)
      (tfidf : list (list Qc)) :
  loaded self df tfidf ->
  ensure_loaded fit transform self = (Some tt, self).
Proof.
  intros [[f [Hdf _]] [Htf _]]. eapply ensure_loaded_held; eassumption.
Qed.

Lemma get_similar_products_unknown (self : CB vocabulary)
      (f : ProductsFrame) (tfidf : list (list Qc)) (product_id : Z)
      (n : nat) (min_score : float) :
  products_df self = Some f -> tfidf_matrix self = Some tfidf ->
  find_index (fun p => Z.eqb (p_id p) product_id) (rows f) = None ->
  get_similar_products fit transform cosine product_id n min_score self
  = (Some [], self).
Proof.
  intros Hdf Htf Hf. unfold get_similar_products. unfold bind at 1.
  rewrite (@ensure_loaded_held self f tfidf Hdf Htf).
  unfold bind, get, lift. rewrite Hdf. simpl. rewrite Hf.
  reflexivity.
Qed.

Lemma get_similar_products_found (self : CB vocabulary)
      (df : list Product) (tfidf : list (list Qc)) (product_id : Z)
      (n : nat) (min_score : float) (product_idx : nat) :
  loaded self df tfidf ->
  find_index (fun p => Z.eqb (p_id p) product_id) df = Some product_idx ->
  exists ref ref_row,
    nth_error df product_idx = Some ref
    /\ p_id ref = product_id
    /\ nth_error tfidf product_idx = Some ref_row
    /\ get_similar_products fit transform cosine product_id n min_score self
       = (walk df (scores_of cosine df tfidf ref ref_row) product_idx n min_score
               (rev (argsort (scores_of cosine df tfidf ref ref_row))) [],
          self).
Proof.
  intros Hl Hf.
  destruct (find_index_Some _ _ Hf) as [ref [Href Hid]].
  apply Z.eqb_eq in Hid.
  assert (Hlen : List.length tfidf = List.length df) by apply Hl.
  destruct (nth_error tfidf product_idx) as [ref_row|] eqn:Hrow.
  2:{ apply nth_error_None in Hrow.
      assert (Hn : nth_error df product_idx <> None) by congruence.
      apply nth_error_Some in Hn. lia. }
  exists ref, ref_row. repeat split; try assumption.
  unfold get_similar_products. unfold bind at 1.
  rewrite (ensure_loaded_loaded Hl).
  pose proof (@calculate_similarity_run _ cosine _ _ _ _ _ _ Hl Href Hrow)
    as Hcalc.
  destruct Hl as [[f [Hdf Hrows]] _].
  unfold bind at 1, get at 1. unfold bind at 1. unfold lift at 1.
  rewrite Hdf. unfold ret at 1. rewrite Hrows, Hf.
  unfold bind. rewrite Hcalc. fold (scores_of cosine df tfidf ref ref_row).
  unfold lift.
  destruct (walk df (scores_of cosine df tfidf ref ref_row) product_idx n min_score
                 (rev (argsort (scores_of cosine df tfidf ref ref_row))) []);
    reflexivity.
Qed.

Lemma scores_of_length (df : list Product) (tfidf : list (list Qc))
      (ref : Product) (ref_row : list Qc) :
  List.length tfidf = List.length df ->
  List.length (scores_of cosine df tfidf ref ref_row) = List.length df.
Proof.
  intros H. unfold scores_of. now rewrite length_map, length_combine_same.
Qed.

(** With a non-zero greatest price every blended score is finite. *)
Lemma scores_of_finite (df : list Product) (tfidf : list (list Qc))
      (ref : Product) (ref_row : list Qc) (M : Qc) :
  max_price df M -> M <> 0%Qc ->
  Forall (fun s => is_finite s = true) (scores_of cosine df tfidf ref ref_row).
Proof.
  intros HM Hne. unfold scores_of. rewrite (price_max_spec HM).
  apply Forall_forall. intros s Hs. apply in_map_iff in Hs.
  destruct Hs as [[row p] [<- _]]. simpl.
  assert (HM0 : Qc_eqb M 0 = false).
  { destruct (Qc_eqb M 0) eqn:E; [|reflexivity].
    apply Qc_eqb_eq in E. contradiction. }
  unfold blend, price_sim, category_sim. simpl. rewrite HM0.
  now destruct (String.eqb (p_category p) (p_category ref)).
Qed.

End WithSklearn.

Lemma Forall2_In_left {A B : Type} (P : A -> B -> Prop) (la : list A)
      (lb : list B) (a : A) :
  Forall2 P la lb -> In a la -> exists b, In b lb /\ P a b.
Proof.
  induction 1 as [|x y la lb Hxy Hl IH]; simpl; [contradiction|].
  intros [<-|Ha].
  - exists y. auto.
  - destruct (IH Ha) as [b [Hb Hp]]. exists b. auto.
Qed.

Lemma Forall2_sorted {A B : Type} (P : A -> B -> Prop) (R : B -> B -> Prop)
      (R' : A -> A -> Prop) (la : list A) (lb : list B) :
  (forall a1 b1 a2 b2, P a1 b1 -> P a2 b2 -> R b1 b2 -> R' a1 a2) ->
  Forall2 P la lb -> StronglySorted R lb -> StronglySorted R' la.
Proof.
  intros HR. induction 1 as [|a b la lb Hab Hl IH]; intros Hs;
    [constructor|].
  inversion Hs as [|? ? Hs' Hb]; subst.
  constructor; [now apply IH|].
  rewrite Forall_forall in *. intros a2 Ha2.
  destruct (@Forall2_In_left _ _ P la lb a2 Hl Ha2) as [b2 [Hb2 Hp]].
  apply (HR a b a2 b2 Hab Hp). now apply Hb.
Qed.

End SimilarFacts.

(* ================================================================= *)
(** ** Content-based filtering: [get_recommendations_for_user] *)

Module UserFacts.
Import PyFacts SortFacts FloatFacts Specs ContentBased ContentFacts.
Import CollaborativeFacts CollaborativeOrder HybridFacts.
Local Open Scope Z_scope.

Lemma dict_set_keyed (d : dict Rec) (r : Rec) :
  keyed d -> keyed (dict_set d (product_id r) r).
Proof.
  unfold keyed. induction 1 as [|[k v] d Hk Hd IH]; simpl.
  - constructor; [reflexivity | constructor].
  - destruct (Z.eqb_spec (product_id r) k) as [E|Hne]; constructor; auto.
Qed.

Lemma merge_keyed (d d' : dict Rec) (rec : Rec) :
  keyed d -> merge (Some d) rec = Some d' -> keyed d'.
Proof.
  intros Hk. unfold merge.
  destruct (dict_get d (product_id rec)) as [old|] eqn:Hg.
  - destruct (similarity_score old) as [a|]; [|discriminate].
    destruct (similarity_score rec) as [b|]; [|discriminate].
    intros H. inversion H; subst. clear H.
    assert (Hold : product_id old = product_id rec).
    { apply dict_get_In in Hg. unfold keyed in Hk.
      rewrite Forall_forall in Hk. exact (Hk _ Hg). }
    rewrite <- Hold.
    change (product_id old)
      with (product_id (set_similarity_score old (Some (a + b)%py))) at 1.
    now apply dict_set_keyed.
  - intros H. inversion H; subst. now apply dict_set_keyed.
Qed.

Lemma fold_merge_keyed (similar : list Rec) (d d' : dict Rec) :
  keyed d -> fold_left merge similar (Some d) = Some d' -> keyed d'.
Proof.
  revert d. induction similar as [|rec similar IH]; intros d Hk H;
    cbn [fold_left] in H.
  - inversion H; subst. assumption.
  - destruct (merge (Some d) rec) as [d1|] eqn:Hm.
    + eapply IH; [|exact H]. eapply merge_keyed; eassumption.
    + exfalso. clear -H. induction similar as [|x l IHl];
        cbn [fold_left] in H; [discriminate | auto].
Qed.

(** The aggregation step: a product that is already in the dictionary has
    the new score added to its own, a new product enters with its record. *)
Lemma merge_adds (d : dict Rec) (rec old : Rec) (a b : float) :
  dict_get d (product_id rec) = Some old ->
  similarity_score old = Some a ->
  similarity_score rec = Some b ->
  exists d',
    merge (Some d) rec = Some d'
    /\ dict_get d' (product_id rec)
       = Some (set_similarity_score old (Some (a + b)%py))
    /\ forall k, k <> product_id rec -> dict_get d' k = dict_get d k.
Proof.
  intros Hg Ha Hb. unfold merge. rewrite Hg, Ha, Hb.
  eexists. split; [reflexivity|]. split.
  - now rewrite dict_get_set, Z.eqb_refl.
  - intros k Hk. rewrite dict_get_set.
    now destruct (Z.eqb_spec k (product_id rec)).
Qed.

Lemma merge_new (d : dict Rec) (rec : Rec) :
  dict_get d (product_id rec) = None ->
  exists d',
    merge (Some d) rec = Some d'
    /\ dict_get d' (product_id rec) = Some rec
    /\ forall k, k <> product_id rec -> dict_get d' k = dict_get d k.
Proof.
  intros Hg. unfold merge. rewrite Hg.
  eexists. split; [reflexivity|]. split.
  - now rewrite dict_get_set, Z.eqb_refl.
  - intros k Hk. rewrite dict_get_set.
    now destruct (Z.eqb_spec k (product_id rec)).
Qed.

Section WithSklearn.
Variable vocabulary : Type.
Variable fit : list string -> option vocabulary.
Variable transform : vocabulary -> string -> list Qc.
Variable cosine : list Qc -> list Qc -> Qc.

Lemma gather_keyed (user_products : list Product) (d d' : dict Rec)
      (self self' : CB vocabulary) :
  keyed d ->
  gather fit transform cosine user_products d self = (Some d', self') ->
  keyed d'.
Proof.
  revert d self. induction user_products as [|p ps IH]; simpl;
    intros d self Hk H.
  - apply MethodFacts.ret_Some in H. destruct H as [-> _]. assumption.
  - run_bind H similar s1 Hs. run_lift H dnew Hdnew.
    eapply IH; [|exact H]. eapply fold_merge_keyed; eassumption.
Qed.

(** A user without history gets the popularity ranking. *)
Lemma get_recommendations_for_user_cold_start (user_id : Z) (n : nat)
      (self : CB vocabulary) :
  recent_products (engine self) user_id = [] ->
  get_recommendations_for_user fit transform cosine user_id n self
  = get_popular_products n self.
Proof.
  intros H. unfold get_recommendations_for_user, bind, get. now rewrite H.
Qed.

(** What the filter of [get_recommendations_for_user] removes: the products
    the query returned, the user's ten most recent ones. *)
Lemma get_recommendations_for_user_excludes_recent (user_id : Z) (n : nat)
      (self self' : CB vocabulary) (recs : list Rec) :
  recent_products (engine self) user_id <> [] ->
  get_recommendations_for_user fit transform cosine user_id n self
  = (Some recs, self') ->
  (List.length recs <= n)%nat
  /\ forall r, In r recs ->
       ~ In (product_id r) (map p_id (recent_products (engine self) user_id)).
Proof.
  intros Hne H. unfold get_recommendations_for_user in H. run_get H.
  destruct (recent_products (engine self) user_id) as [|p ps] eqn:Hrec;
    [congruence|].
  run_bind H d s1 Hg. apply MethodFacts.ret_Some in H. destruct H as [-> _].
  split; [apply firstn_le_length|].
  intros r Hr. apply In_firstn in Hr. apply sort_desc_In in Hr.
  apply in_map_iff in Hr. destruct Hr as [[k v] [Hv Hin]]. simpl in Hv.
  subst v. apply filter_In in Hin. destruct Hin as [Hin Hmem].
  cbn [fst] in Hmem. apply negb_true_iff, mem_false in Hmem.
  assert (Hk : keyed d).
  { eapply gather_keyed; [|exact Hg]. constructor. }
  unfold keyed in Hk. rewrite Forall_forall in Hk.
  specialize (Hk _ Hin). simpl in Hk. now rewrite Hk.
Qed.

(** The result for a user with history is the first [n] records of a
    descending sort by aggregated score. *)
Lemma get_recommendations_for_user_ranked (user_id : Z) (n : nat)
      (self self' : CB vocabulary) (recs : list Rec) :
  recent_products (engine self) user_id <> [] ->
  get_recommendations_for_user fit transform cosine user_id n self
  = (Some recs, self') ->
  exists all,
    recs = firstn n (sorted_desc sim_of all)
    /\ (Forall (fun r => not_nan (sim_of r)) all ->
        StronglySorted (fun r1 r2 => ltb (sim_of r1) (sim_of r2) = false)
                       recs).
Proof.
  intros Hne H. unfold get_recommendations_for_user in H. run_get H.
  destruct (recent_products (engine self) user_id) as [|p ps] eqn:Hrec;
    [congruence|].
  run_bind H d s1 Hg. apply MethodFacts.ret_Some in H. destruct H as [-> _].
  eexists. split; [reflexivity|].
  intros Hall. apply StronglySorted_firstn.
  now apply (sorted_desc_ordered sim_of).
Qed.

(** The unknown-id answer of a recommender that still has to load: if the
    vectorizer accepts the catalog's documents, the call loads the catalog
    of the store, returns the empty list and leaves the store alone. *)
Lemma get_similar_products_unknown_lazy (db : Database) (v : vocabulary)
      (product_id : Z) (n : nat) (min_score : float) :
  fit (map combine_features (products db)) = Some v ->
  ~ In product_id (map p_id (products db)) ->
  exists self',
    get_similar_products fit transform cosine product_id n min_score
                         (init vocabulary db)
    = (Some [], self')
    /\ engine self' = db
    /\ loaded self' (products db)
              (map (transform v) (map combine_features (products db))).
Proof.
  intros Hfit Hnot. eexists. split; [|split].
  - unfold get_similar_products, ensure_loaded, build_tfidf_matrix,
      load_products, init, bind, get, put, ret, lift. simpl.
    rewrite Hfit. simpl.
    assert (Hf : find_index (fun p => Z.eqb (p_id p) product_id)
                            (products db) = None).
    { apply find_index_None. intros p Hp.
      destruct (Z.eqb_spec (p_id p) product_id) as [E|]; [|reflexivity].
      exfalso. apply Hnot. rewrite <- E. now apply in_map. }
    rewrite Hf. reflexivity.
  - reflexivity.
  - split; [|split].
    + eexists. split; reflexivity.
    + reflexivity.
    + now rewrite !length_map.
Qed.

(** The same for any recommender that misses the catalog or the index:
    the catalog is read from the store again and the index rebuilt. *)
Lemma get_similar_products_unknown_reload (self : CB vocabulary)
      (v : vocabulary) (product_id : Z) (n : nat) (min_score : float) :
  products_df self = None \/ tfidf_matrix self = None ->
  fit (map combine_features (products (engine self))) = Some v ->
  ~ In product_id (map p_id (products (engine self))) ->
  get_similar_products fit transform cosine product_id n min_score self
  = (Some [],
     mkCB (engine self)
          (Some (mkFrame (products (engine self))
                         (Some (map combine_features
                                    (products (engine self))))))
          (Some (map (transform v)
                     (map combine_features (products (engine self)))))
          (Some (Fitted v))).
Proof.
  intros Hmiss Hfit Hnot.
  assert (Hf : find_index (fun p => Z.eqb (p_id p) product_id)
                          (products (engine self)) = None).
  { apply find_index_None. intros p Hp.
    destruct (Z.eqb_spec (p_id p) product_id) as [E|]; [|reflexivity].
    exfalso. apply Hnot. rewrite <- E. now apply in_map. }
  unfold get_similar_products, ensure_loaded, build_tfidf_matrix,
    load_products, bind, get, put, ret, lift.
  destruct (products_df self) as [f|] eqn:Hdf;
    destruct (tfidf_matrix self) as [t|] eqn:Htf;
    try (destruct Hmiss; discriminate);
    cbn; rewrite Hfit; cbn; rewrite Hf; reflexivity.
Qed.

End WithSklearn.

End UserFacts.

Module CollaborativeMore.
Import PyFacts SortFacts FloatFacts MatrixFacts Specs Collaborative.
Import CollaborativeFacts CollaborativeOrder SimilarityFacts HybridFacts Reading.
Local Open Scope Z_scope.

Lemma column_values_tabulate {V : Type} (idx cols : list Z) (f : Z -> Z -> V)
      (j : nat) (p : Z) :
  nth_error cols j = Some p ->
  column_values (map (fun u => map (f u) cols) idx) j
  = Some (map (fun u => f u p) idx).
Proof.
  intros H. induction idx as [|u idx IH]; simpl; [reflexivity|].
  rewrite nth_error_map, H. simpl. now rewrite IH.
Qed.

Lemma col_tabulate {V : Type} (idx cols : list Z) (f : Z -> Z -> V) (p : Z) :
  In p cols ->
  col (mkDataFrame idx cols (map (fun u => map (f u) cols) idx)) p
  = Some (combine idx (map (fun u => f u p) idx)).
Proof.
  intros Hin. unfold col. simpl.
  destruct (find_index_In p cols Hin) as [j [Hj Hn]]. rewrite Hj.
  now rewrite (column_values_tabulate idx cols f j Hn).
Qed.

Lemma in_combine_map {A B : Type} (g : A -> B) (l : list A) (a : A) (b : B) :
  In (a, b) (combine l (map g l)) -> In a l /\ b = g a.
Proof.
  induction l as [|x l IH]; simpl; [tauto|].
  intros [H|H]; [inversion H; auto|]. destruct (IH H). auto.
Qed.

Lemma length_slice {A : Type} (n : nat) (l : list A) :
  (List.length (skipn 1 (firstn (n + 1) l)) <= n)%nat.
Proof.
  rewrite length_skipn, length_firstn. lia.
Qed.


Lemma Qc_pos_add (a b : Qc) : (0 < a -> 0 < b -> 0 < a + b)%Qc.
Proof.
  intros Ha Hb. apply Qclt_le_trans with a; [assumption|].
  replace a with (a + 0)%Qc at 1 by ring.
  apply Qcplus_le_compat; [apply Qcle_refl|now apply Qclt_le_weak].
Qed.

Lemma Qc_pos_mul (a b : Qc) : (0 < a -> 0 < b -> 0 < a * b)%Qc.
Proof.
  intros Ha Hb. replace 0%Qc with (0 * b)%Qc by ring.
  now apply Qcmult_lt_compat_r.
Qed.

Lemma Qc_pos_of_Z (z : Z) : 0 < z -> (0 < Q2Qc (inject_Z z))%Qc.
Proof.
  intros H. change 0%Qc with (Q2Qc (inject_Z 0)).
  unfold Qclt. cbn [this Q2Qc]. rewrite !Qred_correct.
  now rewrite <- Zlt_Qlt.
Qed.

(** Positive floats: closed under the sums and products of the scoring
    loop. *)
Lemma pos_add (x y : float) :
  ltb zero x = true -> ltb zero y = true -> ltb zero (x + y)%py = true.
Proof.
  destruct x as [a| | |], y as [b| | |]; simpl; try congruence.
  rewrite !Qc_ltb_lt. apply Qc_pos_add.
Qed.

Lemma pos_mul_of_Z (z : Z) (x : float) :
  0 < z -> ltb zero x = true -> ltb zero (of_Z z * x)%py = true.
Proof.
  intros Hz. apply Qc_pos_of_Z in Hz.
  destruct x as [b| | |]; try (simpl; congruence).
  - simpl. rewrite !Qc_ltb_lt. now apply Qc_pos_mul.
  - intros _. apply Qcgt_alt in Hz. unfold mul, of_Z. cbn [sign].
    rewrite Hz. reflexivity.
Qed.

Lemma pos_above (x y : float) :
  ltb zero y = true -> geb x y = true -> ltb zero x = true.
Proof.
  unfold geb, leb.
  destruct x as [a| | |], y as [b| | |]; simpl; try congruence.
  rewrite orb_true_iff, !Qc_ltb_lt, Qc_eqb_eq.
  intros Hb [H|H]; [now apply Qclt_trans with b|now subst].
Qed.

Lemma pos_not_nan (x : float) : ltb zero x = true -> not_nan x.
Proof. destruct x; simpl; try congruence; reflexivity. Qed.

Lemma StronglySorted_Forall_impl {A : Type} (P : A -> Prop)
      (R R' : A -> A -> Prop) (l : list A) :
  (forall a b, P a -> P b -> R a b -> R' a b) ->
  Forall P l -> StronglySorted R l -> StronglySorted R' l.
Proof.
  intros HR HP H. induction H as [|a l Hl IH Ha]; [constructor|].
  inversion HP; subst. constructor; [now apply IH|].
  rewrite Forall_forall in *. intros b Hb. apply HR; auto.
Qed.

Lemma NoDup_map_filter {A B : Type} (f : A -> B) (g : A -> bool)
      (l : list A) :
  NoDup (map f l) -> NoDup (map f (filter g l)).
Proof.
  induction l as [|x l IH]; simpl; [constructor|].
  intros H. inversion H; subst. destruct (g x); [|now apply IH].
  simpl. constructor; [|now apply IH].
  intros Hin. apply H2. apply in_map_iff in Hin.
  destruct Hin as [y [Hy Hin]]. apply filter_In in Hin.
  apply in_map_iff. exists y. tauto.
Qed.

Lemma popular_run (n : nat) (self : CF) :
  _get_popular_products n self
  = (Some (map (fun p =>
                  mkRec (p_id p) (p_title p) (p_category p) (Fin (p_price p))
                        (float_or_none (p_rating p)) None None None
                        (Some (picsum (p_id p))) None)
               (popularity_rank (engine self) n)), self).
Proof. reflexivity. Qed.

Lemma no_scores_no_rows (db : Database) :
  (forall i, In i (interactions db) -> score i = None) ->
  filter is_scored (read_scores db) = [].
Proof.
  unfold read_scores. induction (interactions db) as [|i l IH];
    intros H; [reflexivity|].
  simpl. rewrite (H i (or_introl eq_refl)). apply IH.
  intros j Hj. apply H. now right.
Qed.

Lemma no_scores_no_frame {V : Type} (cosine : list Z -> list Z -> V)
      (db : Database) :
  (forall i, In i (interactions db) -> score i = None) ->
  similarity_frame cosine (pivot_table (read_scores db)) = None.
Proof.
  intros H. unfold similarity_frame, pivot_table.
  rewrite (no_scores_no_rows db H). reflexivity.
Qed.

Section WithCosine.
Variable cosine : list Z -> list Z -> float.

(** What [calculate_user_similarity] leaves on a fresh recommender. *)
Lemma calculate_user_similarity_fresh (db : Database) (sim : DataFrame float)
      (s : CF) :
  calculate_user_similarity cosine (init db) = (Some sim, s) ->
  let m := pivot_table (read_scores db) in
  sim = mkDataFrame (index m) (index m)
          (map (fun u => map (fun v => cosine (matrix_row db u)
                                              (matrix_row db v))
                             (index m)) (index m))
  /\ s = mkCF db (Some m) (Some sim)
  /\ index m <> [].
Proof.
  intros H m. unfold calculate_user_similarity in H.
  run_get H. simpl user_item_matrix in H. cbv iota in H.
  run_bind H m' s1 Hb. rewrite build_user_item_matrix_run in Hb.
  inversion Hb; subst m' s1; clear Hb. simpl engine in *.
  run_lift H df Hdf. run_get H.
  run_bind H t s2 Hp. apply MethodFacts.put_Some in Hp. subst s2.
  apply MethodFacts.ret_Some in H. destruct H as [-> ->].
  simpl engine. simpl user_item_matrix.
  fold m in Hdf |- *.
  assert (Hne : index m <> []).
  { intros Hidx. unfold similarity_frame, cosine_similarity in Hdf.
    unfold m, pivot_table in Hdf, Hidx. simpl in Hidx, Hdf.
    rewrite Hidx in Hdf. simpl in Hdf. discriminate. }
  assert (Hin : exists u0, In u0 (index m)).
  { destruct (index m) as [|u0 idx]; [congruence|]. exists u0. now left. }
  destruct Hin as [u0 Hin].
  pose proof (similarity_frame_pivot cosine (read_scores db) u0 Hin) as E.
  cbv zeta in E. fold m in E. rewrite E in Hdf. injection Hdf as <-.
  repeat split; assumption.
Qed.


Lemma accrue_app (o : option float) (ws ws' : list float) :
  accrue o (ws ++ ws') = accrue (accrue o ws) ws'.
Proof. unfold accrue. apply fold_left_app. Qed.

Lemma accrue_total (ws : list float) : accrue None ws = total ws.
Proof.
  destruct ws as [|w ws]; [reflexivity|]. unfold accrue, total. simpl.
  revert w. induction ws as [|x ws IH]; intros w; simpl; [reflexivity|].
  apply IH.
Qed.

Lemma add_weighted_get (ups : list Z) (sim : float) (d : dict float)
      (e : Z * Z) (pid : Z) :
  mem pid ups = false ->
  dict_get (add_weighted ups sim d e) pid
  = accrue (dict_get d pid)
           (map (fun c => (of_Z (snd c) * sim)%py)
                (filter (fun c => Z.eqb (fst c) pid) [e])).
Proof.
  intros Hm. destruct e as [p sc]. unfold add_weighted. simpl.
  destruct (Z.eqb_spec p pid) as [->|Hne].
  - rewrite Hm. simpl.
    destruct (dict_get d pid) as [old|] eqn:Hd;
      rewrite dict_get_set, Z.eqb_refl; reflexivity.
  - simpl. destruct (mem p ups); [reflexivity|].
    destruct (dict_get d p); rewrite dict_get_set;
      (destruct (Z.eqb_spec pid p); [congruence|reflexivity]).
Qed.

Lemma fold_add_weighted_get (ups : list Z) (sim : float) (es : list (Z * Z))
      (d : dict float) (pid : Z) :
  mem pid ups = false ->
  dict_get (fold_left (add_weighted ups sim) es d) pid
  = accrue (dict_get d pid)
           (map (fun c => (of_Z (snd c) * sim)%py)
                (filter (fun c => Z.eqb (fst c) pid) es)).
Proof.
  intros Hm. revert d. induction es as [|e es IH]; intros d; [reflexivity|].
  cbn [fold_left]. rewrite IH, (add_weighted_get ups sim d e pid Hm).
  change (e :: es) with ([e] ++ es).
  now rewrite filter_app, map_app, accrue_app.
Qed.

Lemma accumulate_get (m : DataFrame Z) (ups : list Z)
      (sims : list (Z * float)) (d d' : dict float) (pid : Z) :
  mem pid ups = false ->
  accumulate m ups sims d = Some d' ->
  dict_get d' pid = accrue (dict_get d pid) (contributions m sims pid).
Proof.
  intros Hm. revert d. induction sims as [|[v s] sims IH]; intros d H.
  - simpl in H. inversion H. reflexivity.
  - simpl in H. destruct (loc m v) as [row|] eqn:Hrow; [|discriminate].
    apply IH in H. rewrite H, (fold_add_weighted_get ups s _ d pid Hm).
    unfold contributions. simpl. rewrite Hrow.
    now rewrite accrue_app.
Qed.

Lemma add_weighted_NoDup (ups : list Z) (sim : float) (d : dict float)
      (e : Z * Z) :
  NoDup (dict_keys d) -> NoDup (dict_keys (add_weighted ups sim d e)).
Proof.
  intros H. destruct e as [p sc]. unfold add_weighted.
  destruct (mem p ups); [assumption|].
  destruct (dict_get d p); now apply dict_set_NoDup.
Qed.

Lemma accumulate_NoDup (m : DataFrame Z) (ups : list Z)
      (sims : list (Z * float)) (d d' : dict float) :
  NoDup (dict_keys d) -> accumulate m ups sims d = Some d' ->
  NoDup (dict_keys d').
Proof.
  revert d. induction sims as [|[v s] sims IH]; intros d Hd H.
  - simpl in H. now inversion H; subst.
  - simpl in H. destruct (loc m v) as [row|]; [|discriminate].
    apply IH in H; [assumption|].
    clear IH H. revert d Hd. induction (positive row) as [|e es IHes];
      intros d Hd; [assumption|].
    cbn [fold_left]. apply IHes. now apply add_weighted_NoDup.
Qed.

Lemma dict_get_NoDup_In {V : Type} (d : dict V) (k : Z) (v : V) :
  NoDup (dict_keys d) -> In (k, v) d -> dict_get d k = Some v.
Proof.
  induction d as [|[k' v'] d IH]; simpl; [tauto|].
  intros Hnd [H|H].
  - inversion H; subst. now rewrite Z.eqb_refl.
  - inversion Hnd; subst. destruct (Z.eqb_spec k k') as [->|_].
    + exfalso. apply H2. unfold dict_keys. apply in_map_iff.
      now exists (k', v).
    + now apply IH.
Qed.

Lemma NoDup_firstn {A : Type} (n : nat) (l : list A) :
  NoDup l -> NoDup (firstn n l).
Proof.
  revert n. induction l as [|x l IH]; intros [|n] H; simpl;
    try constructor.
  - inversion H; subst. intros Hin. apply H2. now apply In_firstn in Hin.
  - inversion H; subst. now apply IH.
Qed.

Lemma fetch_recs_spec (sp : dict float) (fetched : list Product)
      (recs : list Rec) :
  fetch_recs sp fetched = Some recs ->
  Forall2 (fun r p => exists sc, dict_get sp (p_id p) = Some sc
                                 /\ r = scored_rec p sc) recs fetched.
Proof.
  revert recs. induction fetched as [|p fetched IH]; intros recs H.
  - simpl in H. inversion H. constructor.
  - simpl in H. fold (fetch_recs sp fetched) in H.
    destruct (dict_get sp (p_id p)) as [sc|] eqn:Hsc; [|discriminate].
    destruct (fetch_recs sp fetched) as [l|]; [|discriminate].
    inversion H; subst. constructor; [|now apply IH]. now exists sc.
Qed.

Lemma fetch_recs_ids (sp : dict float) (fetched : list Product)
      (recs : list Rec) :
  fetch_recs sp fetched = Some recs ->
  map product_id recs = map p_id fetched.
Proof.
  intros H. apply fetch_recs_spec in H.
  induction H as [|r p recs fetched [sc [_ ->]] _ IH]; [reflexivity|].
  simpl. now rewrite IH.
Qed.

(** The two ways [get_recommendations] ends: with the popularity list, or
    with the scored products of the neighbours. *)
Lemma get_recommendations_cases (u : Z) (n : nat) (min_similarity : float)
      (self self' : CF) (recs : list Rec) :
  get_recommendations cosine u n min_similarity self = (Some recs, self') ->
  exists m sim,
    user_item_matrix self' = Some m
    /\ user_similarity_matrix self' = Some sim
    /\ engine self' = engine self
    /\ (_get_popular_products n self' = (Some recs, self')
        \/ exists neighbours row ps recommendations,
             In u (index m)
             /\ get_similar_users cosine u 50 self' = (Some neighbours, self')
             /\ loc m u = Some row
             /\ accumulate m (map fst (positive row))
                  (filter (fun e => geb (snd e) min_similarity) neighbours) []
                = Some ps
             /\ fetch_recs (firstn n (sorted_desc snd ps))
                  (filter (fun p => mem (p_id p)
                                      (map fst (firstn n (sorted_desc snd ps))))
                          (products (engine self')))
                = Some recommendations
             /\ recs = sorted_desc score_of recommendations).
Proof.
  unfold get_recommendations. intros H.
  run_bind H t s1 He. destruct t.
  apply ensure_matrices_built in He. destruct He as [m [sim [Hm [Hs He]]]].
  run_get H. run_lift H m' Hm'. rewrite Hm in Hm'. inversion Hm'; subst m'.
  assert (Hpop : forall s, _get_popular_products n s1 = (Some recs, s) ->
    exists m sim,
      user_item_matrix s = Some m /\ user_similarity_matrix s = Some sim
      /\ engine s = engine self
      /\ (_get_popular_products n s = (Some recs, s) \/ False)).
  { intros s Hp. pose proof Hp as Hp'. apply popular_unscored in Hp'.
    destruct Hp' as [-> _]. exists m, sim. repeat split; auto. }
  assert (Hpop' : forall s, _get_popular_products n s1 = (Some recs, s) ->
    exists m sim,
      user_item_matrix s = Some m /\ user_similarity_matrix s = Some sim
      /\ engine s = engine self
      /\ (_get_popular_products n s = (Some recs, s)
          \/ exists neighbours row ps recommendations,
             In u (index m)
             /\ get_similar_users cosine u 50 s = (Some neighbours, s)
             /\ loc m u = Some row
             /\ accumulate m (map fst (positive row))
                  (filter (fun e => geb (snd e) min_similarity) neighbours) []
                = Some ps
             /\ fetch_recs (firstn n (sorted_desc snd ps))
                  (filter (fun p => mem (p_id p)
                                      (map fst (firstn n (sorted_desc snd ps))))
                          (products (engine s)))
                = Some recommendations
             /\ recs = sorted_desc score_of recommendations)).
  { intros s Hp. destruct (Hpop s Hp) as [m0 [sim0 [A [B [C [D|[]]]]]]].
    exists m0, sim0. auto. }
  clear Hpop.
  destruct (negb (mem u (index m))) eqn:Hu; [now apply Hpop'|].
  run_bind H su s2 Hsu.
  pose proof (get_similar_users_built cosine u 50 s1 Hs) as Hst.
  rewrite Hsu in Hst. simpl in Hst. subst s2.
  destruct (filter _ su) as [|e su'] eqn:Hf; [now apply Hpop'|].
  run_lift H row Hrow. run_lift H ps Hacc.
  destruct (firstn n (sorted_desc snd ps)) as [|sp0 sps] eqn:Hsp;
    [now apply Hpop'|].
  run_lift H rs Hrs. apply MethodFacts.ret_Some in H. destruct H as [-> ->].
  exists m, sim. repeat split; auto. right.
  exists su, row, ps, rs. rewrite Hf, Hsp.
  repeat split; auto.
  apply negb_false_iff in Hu. now apply mem_In.
Qed.


Lemma add_weighted_pos (ups : list Z) (sim : float) (d : dict float)
      (e : Z * Z) :
  0 < snd e -> ltb zero sim = true ->
  Forall (fun x => ltb zero (snd x) = true) d ->
  Forall (fun x => ltb zero (snd x) = true) (add_weighted ups sim d e).
Proof.
  intros He Hs Hd. destruct e as [p sc]. unfold add_weighted.
  destruct (mem p ups); [assumption|].
  simpl in He.
  destruct (dict_get d p) as [old|] eqn:Hold;
    apply (dict_set_Forall (fun v => ltb zero v = true));
    try assumption; [|now apply pos_mul_of_Z].
  apply pos_add; [|now apply pos_mul_of_Z].
  apply (@dict_get_Forall _ (fun v => ltb zero v = true) d p old Hd Hold).
Qed.

Lemma accumulate_pos (m : DataFrame Z) (ups : list Z)
      (sims : list (Z * float)) (d d' : dict float) :
  Forall (fun e => ltb zero (snd e) = true) sims ->
  Forall (fun x => ltb zero (snd x) = true) d ->
  accumulate m ups sims d = Some d' ->
  Forall (fun x => ltb zero (snd x) = true) d'.
Proof.
  revert d. induction sims as [|[v s] sims IH]; intros d Hs Hd H.
  - simpl in H. now inversion H; subst.
  - simpl in H. destruct (loc m v) as [row|]; [|discriminate].
    inversion Hs as [|? ? Hv Hs']; subst. simpl in Hv.
    apply IH in H; [assumption|assumption|].
    clear IH H. unfold positive.
    assert (Hrow : Forall (fun e => 0 < snd e)
                          (filter (fun e => 0 <? snd e) row)).
    { rewrite Forall_forall. intros e He. apply filter_In in He.
      now apply Z.ltb_lt. }
    revert d Hd. induction Hrow as [|e es He _ IHes]; intros d Hd;
      [assumption|].
    cbn [fold_left]. apply IHes. now apply add_weighted_pos.
Qed.

Lemma get_recommendations_length (u : Z) (n : nat) (min_similarity : float)
      (self self' : CF) (recs : list Rec) :
  unique_ids (products (engine self)) ->
  get_recommendations cosine u n min_similarity self = (Some recs, self') ->
  (List.length recs <= n)%nat.
Proof.
  intros Hu H. apply get_recommendations_cases in H.
  destruct H as [m [sim [_ [_ [He [Hp|Hcf]]]]]].
  - rewrite popular_run in Hp. injection Hp as <-.
    rewrite length_map. unfold Store.popularity_rank.
    apply firstn_le_length.
  - destruct Hcf as [su [row [ps [rs [_ [_ [_ [Hacc [Hrs ->]]]]]]]]].
    rewrite He in Hrs.
    set (sp := firstn n (sorted_desc snd ps)) in *.
    pose proof (fetch_recs_ids _ _ Hrs) as Hids.
    unfold sorted_desc. rewrite sort_desc_length.
    rewrite <- (length_map product_id), Hids.
    transitivity (List.length (map fst sp)).
    + apply NoDup_incl_length; [now apply NoDup_map_filter|].
      intros k Hk. apply in_map_iff in Hk. destruct Hk as [p [<- Hp]].
      apply filter_In in Hp. now apply mem_In.
    + rewrite length_map. unfold sp. apply firstn_le_length.
Qed.

End WithCosine.
End CollaborativeMore.

(* ================================================================= *)
(** ** The popularity query and the query of the recent products *)

Module StoreFacts.
Import PyFacts SortFacts FloatFacts Specs Store.
Local Open Scope Z_scope.

Lemma rating_before_asym (a b : option Qc) :
  rating_before a b = true -> rating_before b a = false.
Proof.
  destruct a as [x|], b as [y|]; simpl; try reflexivity; try discriminate.
  intros H. apply Qc_ltb_lt in H. apply Qc_ltb_ge. now apply Qclt_le_weak.
Qed.

Lemma rating_before_negtrans (a b c : option Qc) :
  rating_before b a = false -> rating_before c b = false ->
  rating_before c a = false.
Proof.
  destruct a as [x|], b as [y|], c as [z|]; simpl;
    try reflexivity; try discriminate.
  intros H1 H2. apply Qc_ltb_ge in H1, H2. apply Qc_ltb_ge.
  eapply Qcle_trans; eassumption.
Qed.

Lemma popular_before_asym (db : Database) (a b : Product) :
  popular_before db b a = true -> popular_before db a b = false.
Proof.
  unfold popular_before. intros H.
  apply orb_true_iff in H. apply orb_false_iff.
  destruct H as [H|H].
  - apply Z.ltb_lt in H. split; [apply Z.ltb_ge; lia|].
    apply andb_false_iff. left. apply Z.eqb_neq. lia.
  - apply andb_true_iff in H. destruct H as [H1 H2]. apply Z.eqb_eq in H1.
    split; [apply Z.ltb_ge; lia|].
    apply andb_false_iff. right. now apply rating_before_asym.
Qed.

Lemma popular_before_negtrans (db : Database) (a b c : Product) :
  popular_before db b a = false -> popular_before db c b = false ->
  popular_before db c a = false.
Proof.
  unfold popular_before. intros H1 H2.
  apply orb_false_iff in H1, H2. apply orb_false_iff.
  destruct H1 as [L1 E1], H2 as [L2 E2].
  apply Z.ltb_ge in L1, L2.
  split; [apply Z.ltb_ge; lia|].
  apply andb_false_iff.
  destruct (Z.eqb_spec (count_interactions db c) (count_interactions db a))
    as [Hca|Hca]; [right|now left].
  assert (Hb : count_interactions db b = count_interactions db a) by lia.
  rewrite Hb, Z.eqb_refl in E1. rewrite Hca, <- Hb, Z.eqb_refl in E2.
  simpl in E1, E2. eapply rating_before_negtrans; eassumption.
Qed.

Lemma insert_popular_perm (db : Database) (x : Product) (l : list Product) :
  Permutation (insert_popular db x l) (x :: l).
Proof.
  induction l as [|y l IH]; simpl; [reflexivity|].
  destruct (popular_before db y x); [|reflexivity].
  rewrite IH. apply perm_swap.
Qed.

Lemma rank_perm (db : Database) (l : list Product) :
  Permutation (fold_right (insert_popular db) [] l) l.
Proof.
  induction l as [|x l IH]; simpl; [reflexivity|].
  rewrite insert_popular_perm. now constructor.
Qed.

(** No product stands before one that the query orders strictly first. *)
Lemma insert_popular_sorted (db : Database) (x : Product) (l : list Product) :
  StronglySorted (fun a b => popular_before db b a = false) l ->
  StronglySorted (fun a b => popular_before db b a = false)
                 (insert_popular db x l).
Proof.
  induction l as [|y l IH]; intros H; simpl.
  - constructor; constructor.
  - inversion H as [|? ? Hl Hy]; subst.
    destruct (popular_before db y x) eqn:Hyx.
    + constructor; [now apply IH|].
      rewrite Forall_forall. intros z Hz.
      apply (Permutation_in _ (insert_popular_perm db x l)) in Hz.
      destruct Hz as [<-|Hz]; [now apply popular_before_asym|].
      rewrite Forall_forall in Hy. now apply Hy.
    + constructor; [assumption|]. constructor; [assumption|].
      rewrite Forall_forall in Hy |- *. intros z Hz.
      apply (popular_before_negtrans db x y z); [exact Hyx|now apply Hy].
Qed.

Lemma rank_sorted (db : Database) (l : list Product) :
  StronglySorted (fun a b => popular_before db b a = false)
                 (fold_right (insert_popular db) [] l).
Proof.
  induction l as [|x l IH]; simpl; [constructor|].
  now apply insert_popular_sorted.
Qed.

Lemma popularity_rank_In (db : Database) (n : nat) (p : Product) :
  In p (popularity_rank db n) -> In p (products db).
Proof.
  unfold popularity_rank. intros H. apply In_firstn in H.
  now apply (Permutation_in _ (rank_perm db (products db))) in H.
Qed.

Lemma popularity_rank_length (db : Database) (n : nat) :
  List.length (popularity_rank db n) = Nat.min n (List.length (products db)).
Proof.
  unfold popularity_rank. rewrite length_firstn.
  now rewrite (Permutation_length (rank_perm db (products db))).
Qed.

Lemma NoDup_map_firstn {A B : Type} (f : A -> B) (n : nat) (l : list A) :
  NoDup (map f l) -> NoDup (map f (firstn n l)).
Proof.
  revert n. induction l as [|x l IH]; intros [|n] H; simpl;
    try constructor.
  - inversion H; subst. intros Hin. apply H2.
    apply in_map_iff in Hin. destruct Hin as [y [Hy Hin]].
    apply in_map_iff. exists y. split; [assumption|].
    now apply In_firstn in Hin.
  - inversion H; subst. now apply IH.
Qed.

Lemma popularity_rank_NoDup (db : Database) (n : nat) :
  unique_ids (products db) -> NoDup (map p_id (popularity_rank db n)).
Proof.
  unfold unique_ids, popularity_rank. intros H.
  apply NoDup_map_firstn.
  eapply Permutation_NoDup; [|exact H].
  apply Permutation_map, Permutation_sym, rank_perm.
Qed.

(** [COUNT(i.id)] is the number of interactions that name the product. *)
Lemma count_interactions_occ (db : Database) (p : Product) :
  count_interactions db p
  = Z.of_nat (count_occ Z.eq_dec (map i_product_id (interactions db))
                        (p_id p)).
Proof.
  unfold count_interactions. f_equal.
  induction (interactions db) as [|i l IH]; simpl; [reflexivity|].
  destruct (Z.eq_dec (i_product_id i) (p_id p)) as [E|Hne].
  - rewrite E, Z.eqb_refl. simpl. now rewrite IH.
  - apply Z.eqb_neq in Hne. now rewrite Hne.
Qed.

(** A product the ranking leaves out has no more interactions than one it
    returns. *)
Lemma popularity_rank_top (db : Database) (n : nat) (p q : Product) :
  In p (products db) -> ~ In p (popularity_rank db n) ->
  In q (popularity_rank db n) ->
  count_interactions db p <= count_interactions db q.
Proof.
  unfold popularity_rank. intros Hp Hout Hq.
  set (l := fold_right (insert_popular db) [] (products db)) in *.
  assert (Hl : In p l).
  { apply (Permutation_in _ (Permutation_sym (rank_perm db (products db)))).
    exact Hp. }
  rewrite <- (firstn_skipn n l) in Hl. apply in_app_or in Hl.
  destruct Hl as [Hl|Hl]; [contradiction|].
  pose proof (rank_sorted db (products db)) as Hs. fold l in Hs.
  rewrite <- (firstn_skipn n l) in Hs.
  assert (Hqp : popular_before db p q = false).
  { revert Hs Hq Hl. generalize (firstn n l), (skipn n l).
    intros l1 l2. induction l1 as [|x l1 IH]; simpl; [tauto|].
    intros Hs [<-|Hq] Hl; inversion Hs as [|? ? Hs' Hf]; subst.
    - rewrite Forall_forall in Hf. apply Hf. apply in_or_app. now right.
    - now apply IH. }
  unfold popular_before in Hqp. apply orb_false_iff in Hqp.
  destruct Hqp as [Hqp _]. now apply Z.ltb_ge in Hqp.
Qed.

End StoreFacts.

(* ================================================================= *)
(** ** More on the loop of [get_similar_products] *)

Module ContentMore.
Import PyFacts SortFacts FloatFacts Specs ContentBased ContentFacts WalkFacts.
Import SimilarFacts.
Local Open Scope nat_scope.

(** [walk] with the reason why it stopped after [k] indices: the indices
    were exhausted, the next score was below [min_score], or the list was
    full. *)
Lemma walk_stop (df : list Product) (scores : list float)
      (product_idx n : nat) (min_score : float) (idxs : list nat)
      (acc : list Rec) :
  Forall (fun i => i < List.length scores /\ i < List.length df) idxs ->
  exists k new,
    walk df scores product_idx n min_score idxs acc = Some (acc ++ new)
    /\ Forall2 (entry_of df scores) new
               (filter (fun i => negb (Nat.eqb i product_idx))
                       (firstn k idxs))
    /\ (List.length idxs <= k
        \/ (exists j s, nth_error idxs k = Some j /\ j <> product_idx
                        /\ nth_error scores j = Some s
                        /\ ltb s min_score = true)
        \/ n <= List.length (acc ++ new)).
Proof.
  intros Hv. revert acc.
  induction Hv as [|i idxs [Hi1 Hi2] Hv IH]; intros acc.
  - exists 0, []. simpl. rewrite app_nil_r.
    split; [reflexivity|]. split; [constructor|]. left. lia.
  - simpl. destruct (Nat.eqb i product_idx) eqn:Hself.
    + destruct (IH acc) as [k [new [Hw [Hf Hstop]]]].
      exists (S k), new. simpl. rewrite Hself. simpl.
      split; [assumption|]. split; [assumption|].
      destruct Hstop as [H|[H|H]]; [left; lia|right; left; exact H|auto].
    + destruct (nth_error scores i) as [s|] eqn:Hs;
        [|apply nth_error_None in Hs; lia].
      destruct (nth_error df i) as [p|] eqn:Hp;
        [|apply nth_error_None in Hp; lia].
      destruct (ltb s min_score) eqn:Hlt.
      * exists 0, []. simpl. rewrite app_nil_r.
        split; [reflexivity|]. split; [constructor|]. right. left.
        exists i, s. apply Nat.eqb_neq in Hself. auto.
      * destruct (Nat.leb n (List.length (acc ++ [entry p s]))) eqn:Hn.
        -- exists 1, [entry p s]. simpl. rewrite Hself. simpl.
           split; [reflexivity|]. split.
           ++ constructor; [|constructor]. now exists p, s.
           ++ right. right. now apply Nat.leb_le in Hn.
        -- destruct (IH (acc ++ [entry p s])) as [k [new [Hw [Hf Hstop]]]].
           exists (S k), (entry p s :: new). simpl. rewrite Hself. simpl.
           rewrite <- app_assoc in Hw, Hstop. simpl in Hw, Hstop.
           split; [assumption|]. split.
           ++ constructor; [now exists p, s | assumption].
           ++ destruct Hstop as [H|[H|H]];
                [left; lia|right; left; exact H|auto].
Qed.

Lemma Forall2_In_right {A B : Type} (P : A -> B -> Prop) (la : list A)
      (lb : list B) (b : B) :
  Forall2 P la lb -> In b lb -> exists a, In a la /\ P a b.
Proof.
  induction 1 as [|x y la lb Hxy _ IH]; simpl; [tauto|].
  intros [<-|Hin]; [exists x; auto|].
  destruct (IH Hin) as [a [Ha HP]]. exists a. auto.
Qed.

Lemma StronglySorted_app_inv {A : Type} (R : A -> A -> Prop)
      (l1 l2 : list A) (a b : A) :
  StronglySorted R (l1 ++ l2) -> In a l1 -> In b l2 -> R a b.
Proof.
  induction l1 as [|x l1 IH]; simpl; [tauto|].
  intros H [<-|Ha] Hb; inversion H as [|? ? Hs Hf]; subst.
  - rewrite Forall_forall in Hf. apply Hf. apply in_or_app. now right.
  - now apply IH.
Qed.

Lemma NoDup_filter {A : Type} (f : A -> bool) (l : list A) :
  NoDup l -> NoDup (filter f l).
Proof.
  induction 1 as [|x l Hx _ IH]; simpl; [constructor|].
  destruct (f x); [|assumption]. constructor; [|assumption].
  intros Hin. apply filter_In in Hin. tauto.
Qed.

Lemma NoDup_firstn' {A : Type} (n : nat) (l : list A) :
  NoDup l -> NoDup (firstn n l).
Proof.
  revert n. induction l as [|x l IH]; intros [|n] H; simpl;
    try constructor.
  - inversion H; subst. intros Hin. apply H2. now apply In_firstn in Hin.
  - inversion H; subst. now apply IH.
Qed.

Lemma argsort_NoDup (a : list float) : NoDup (argsort a).
Proof.
  eapply Permutation_NoDup; [apply Permutation_sym, argsort_perm|].
  apply seq_NoDup.
Qed.

(** Distinct ids: two positions of the catalog with the same id are the
    same position. *)
Lemma unique_ids_position (df : list Product) (i j : nat) (p q : Product) :
  unique_ids df ->
  nth_error df i = Some p -> nth_error df j = Some q ->
  p_id p = p_id q -> i = j.
Proof.
  unfold unique_ids. intros Hu Hi Hj Hpq.
  rewrite NoDup_nth_error in Hu. apply Hu.
  - rewrite length_map. apply nth_error_Some. congruence.
  - rewrite !nth_error_map, Hi, Hj. simpl. now rewrite Hpq.
Qed.

Lemma entries_distinct (df : list Product) (scores : list float)
      (new : list Rec) (l : list nat) :
  unique_ids df -> NoDup l ->
  Forall2 (entry_of df scores) new l ->
  NoDup (map product_id new).
Proof.
  intros Hu Hl H. induction H as [|r i new l Hri Hrest IH];
    simpl; [constructor|].
  inversion Hl as [|? ? Hi Hl']; subst.
  constructor; [|now apply IH].
  intros Hin. apply in_map_iff in Hin. destruct Hin as [r' [Hid Hr']].
  destruct (@Forall2_In_left _ _ _ _ _ _ Hrest Hr') as [j [Hj Hr'j]].
  destruct Hri as [p [s [Hp [_ ->]]]].
  destruct Hr'j as [q [t [Hq [_ ->]]]].
  simpl in Hid. assert (j = i) by (eapply unique_ids_position; eauto).
  subst j. contradiction.
Qed.

Lemma valid_indices (df : list Product) (scores : list float) :
  List.length scores = List.length df ->
  Forall (fun i => i < List.length scores /\ i < List.length df)
         (rev (argsort scores)).
Proof.
  intros Hlen. apply Forall_forall. intros i Hi.
  apply in_rev in Hi. apply argsort_In in Hi. lia.
Qed.

Lemma StronglySorted_Forall_impl_all {A : Type} (R R' : A -> A -> Prop)
      (l : list A) :
  (forall a b, R a b -> R' a b) ->
  StronglySorted R l -> StronglySorted R' l.
Proof.
  intros HR H. induction H as [|a l Hl IH Ha]; constructor; [assumption|].
  rewrite Forall_forall in *. intros b Hb. apply HR; auto.
Qed.

Lemma Qc_abs_opp (x : Qc) : Qc_abs (- x) = Qc_abs x.
Proof.
  unfold Qc_abs.
  destruct (Qc_ltb (- x) 0) eqn:E1, (Qc_ltb x 0) eqn:E2.
  - exfalso. apply Qc_ltb_lt in E1, E2.
    apply Qclt_minus_iff in E2.
    replace (0 + - x)%Qc with (- x)%Qc in E2 by ring.
    apply (Qclt_not_eq 0 0); [|reflexivity].
    eapply Qclt_trans; eassumption.
  - apply Qcopp_involutive.
  - reflexivity.
  - apply Qc_ltb_ge in E1, E2.
    assert (Hx : (x <= 0)%Qc).
    { apply Qcopp_le_compat in E1. rewrite Qcopp_involutive in E1.
      replace (- 0)%Qc with 0%Qc in E1 by ring. exact E1. }
    assert (x = 0%Qc) by (apply Qcle_antisym; assumption).
    subst x. reflexivity.
Qed.

Lemma category_sim_sym (a b : Product) : category_sim a b = category_sim b a.
Proof. unfold category_sim. now rewrite String.eqb_sym. Qed.

Lemma price_sim_sym (m : float) (a b : Product) :
  price_sim m a b = price_sim m b a.
Proof.
  unfold price_sim. f_equal. f_equal. unfold sub, neg, add, abs. f_equal.
  rewrite <- (Qc_abs_opp (p_price b + - p_price a)). f_equal. ring.
Qed.

(** [calculate_similarity] returns for the positions of the catalog, and
    only for them. *)
Lemma calculate_similarity_Some
      (vocabulary : Type) (cosine : list Qc -> list Qc -> Qc)
      (self : CB vocabulary) (df : list Product) (tfidf : list (list Qc))
      (i : nat) (scores : list float) :
  loaded self df tfidf ->
  fst (calculate_similarity cosine i self) = Some scores ->
  exists ref row,
    nth_error df i = Some ref /\ nth_error tfidf i = Some row
    /\ scores = map (fun rp =>
                       blend (Fin (cosine row (fst rp)))
                             (category_sim ref (snd rp))
                             (price_sim (price_max df) ref (snd rp)))
                    (combine tfidf df).
Proof.
  intros Hl H.
  destruct (nth_error tfidf i) as [row|] eqn:Hrow.
  - destruct (nth_error df i) as [ref|] eqn:Href.
    + rewrite (calculate_similarity_run cosine i Hl Href Hrow) in H.
      simpl in H. injection H as <-. eauto.
    + exfalso. apply nth_error_None in Href.
      assert (Hi : i < List.length tfidf)
        by (apply nth_error_Some; congruence).
      destruct Hl as [_ [_ Hlen]]. lia.
  - exfalso. destruct Hl as [[f [Hdf Hrows]] [Htf Hlen]].
    unfold calculate_similarity, bind, get, lift in H.
    rewrite Hdf, Htf in H. simpl in H. rewrite Hrow in H. discriminate.
Qed.

(** On a loaded recommender [get_similar_products] returns, the state is
    kept, and the records are entries of catalog products. *)
Lemma get_similar_products_loaded
      (vocabulary : Type) (fit : list string -> option vocabulary)
      (transform : vocabulary -> string -> list Qc)
      (cosine : list Qc -> list Qc -> Qc)
      (self : CB vocabulary) (df : list Product) (tfidf : list (list Qc))
      (pid : Z) (n : nat) (min_score : float) :
  loaded self df tfidf ->
  exists recs,
    get_similar_products fit transform cosine pid n min_score self
    = (Some recs, self)
    /\ forall r, In r recs -> exists p s, In p df /\ r = entry p s.
Proof.
  intros Hl.
  destruct (find_index (fun p => Z.eqb (p_id p) pid) df) as [idx|] eqn:Hfind.
  - destruct (get_similar_products_found fit transform cosine pid n
                min_score Hl Hfind)
      as [ref [ref_row [Href [_ [_ Hrun]]]]].
    set (scores := scores_of cosine df tfidf ref ref_row) in *.
    assert (Hlen : List.length scores = List.length df).
    { apply scores_of_length. now destruct Hl as [_ [_ Hlen]]. }
    destruct (@walk_stop df scores idx n min_score
                (rev (argsort scores)) [] (valid_indices df scores Hlen))
      as [k [new [Hw [Hf _]]]].
    simpl app in Hw. exists new. rewrite Hrun, Hw.
    split; [reflexivity|].
    intros r Hr.
    destruct (@Forall2_In_left _ _ _ _ _ _ Hf Hr)
      as [i [_ [p [s [Hp [_ ->]]]]]].
    exists p, s. split; [|reflexivity]. eapply nth_error_In; eassumption.
  - exists []. destruct Hl as [[f [Hf Hrows]] [Ht _]]. subst df.
    rewrite (@get_similar_products_unknown vocabulary fit transform cosine
               self f tfidf pid n min_score Hf Ht Hfind).
    split; [reflexivity|]. intros r [].
Qed.

End ContentMore.

(* ================================================================= *)
(** ** The query of the user's recent products *)

Module RecentFacts.
Import PyFacts SortFacts FloatFacts Specs Store StoreFacts.
Local Open Scope Z_scope.

Lemma last_seen_interaction (db : Database) (u : Z) (p : Product) (t : Z) :
  last_seen db u p = Some t ->
  exists i, In i (interactions db) /\ i_user_id i = u
            /\ i_product_id i = p_id p.
Proof.
  unfold last_seen. intros H.
  destruct (filter _ (interactions db)) as [|i l] eqn:Hf; [discriminate|].
  assert (Hin : In i (filter (fun i => Z.eqb (i_user_id i) u
                                       && Z.eqb (i_product_id i) (p_id p))
                             (interactions db)))
    by (rewrite Hf; now left).
  apply filter_In in Hin. destruct Hin as [Hin Hb].
  apply andb_true_iff in Hb. destruct Hb as [Hu Hp].
  apply Z.eqb_eq in Hu, Hp. exists i. auto.
Qed.

Lemma last_seen_None (db : Database) (u : Z) (p : Product) :
  (forall i, In i (interactions db) -> i_user_id i <> u) ->
  last_seen db u p = None.
Proof.
  intros H. unfold last_seen.
  destruct (filter _ (interactions db)) as [|i l] eqn:Hf; [reflexivity|].
  assert (Hin : In i (filter (fun i => Z.eqb (i_user_id i) u
                                       && Z.eqb (i_product_id i) (p_id p))
                             (interactions db)))
    by (rewrite Hf; now left).
  apply filter_In in Hin. destruct Hin as [Hin Hb].
  apply andb_true_iff in Hb. destruct Hb as [Hu _].
  apply Z.eqb_eq in Hu. now apply H in Hin.
Qed.

(** The rows before [DISTINCT ON] sorts them: one per product the user
    has an interaction with, in catalog order. *)
Lemma seen_rows_In (db : Database) (u : Z) (l : list Product) (p : Product)
      (t : Z) :
  In (p, t) (flat_map (fun p => match last_seen db u p with
                                | Some t => [(p, t)]
                                | None => []
                                end) l)
  <-> In p l /\ last_seen db u p = Some t.
Proof.
  rewrite in_flat_map. split.
  - intros [q [Hq Hin]]. destruct (last_seen db u q) as [t'|] eqn:Hl;
      [|destruct Hin].
    destruct Hin as [H|[]]. inversion H; subst. auto.
  - intros [Hin Hl]. exists p. split; [assumption|]. rewrite Hl. now left.
Qed.

Lemma seen_rows_NoDup (db : Database) (u : Z) (l : list Product) :
  NoDup (map p_id l) ->
  NoDup (map (fun r => p_id (fst r))
             (flat_map (fun p => match last_seen db u p with
                                 | Some t => [(p, t)]
                                 | None => []
                                 end) l)).
Proof.
  induction l as [|p l IH]; simpl; [constructor|].
  intros H. inversion H as [|? ? Hp Hl]; subst.
  destruct (last_seen db u p) as [t|]; simpl; [|now apply IH].
  constructor; [|now apply IH].
  intros Hin. apply Hp. apply in_map_iff in Hin.
  destruct Hin as [[q tq] [Hq Hin]]. simpl in Hq.
  apply seen_rows_In in Hin. destruct Hin as [Hin _].
  apply in_map_iff. now exists q.
Qed.

Lemma distinct_on_id_In (db : Database) (u : Z) (p : Product) (t : Z) :
  In (p, t) (distinct_on_id db u)
  <-> In p (products db) /\ last_seen db u p = Some t.
Proof.
  unfold distinct_on_id. rewrite sort_asc_In. apply seen_rows_In.
Qed.

Lemma Z_ltb_asym (a b : Z) : Z.ltb a b = true -> Z.ltb b a = false.
Proof. rewrite Z.ltb_lt, Z.ltb_ge. lia. Qed.

Lemma Z_ltb_negtrans (a b c : Z) :
  Z.ltb a b = false -> Z.ltb b c = false -> Z.ltb a c = false.
Proof. rewrite !Z.ltb_ge. lia. Qed.

(** The rows of the query, most recent first, before [LIMIT 10]. *)
Lemma recent_rows_sorted (db : Database) (u : Z) :
  StronglySorted (fun a b => snd b <= snd a)
                 (sort_desc Z.ltb snd (distinct_on_id db u)).
Proof.
  assert (H : StronglySorted (ge_key Z.ltb snd)
                (sort_desc Z.ltb snd (distinct_on_id db u))).
  { apply (@sort_desc_sorted _ _ Z.ltb snd (fun _ => True)).
    - intros a b _ _. apply Z_ltb_asym.
    - intros a b c _ _ _. apply Z_ltb_negtrans.
    - apply Forall_forall. auto. }
  induction H as [|a l Hl IH Ha]; constructor; [assumption|].
  rewrite Forall_forall in *. intros b Hb. specialize (Ha b Hb).
  unfold ge_key in Ha. now apply Z.ltb_ge in Ha.
Qed.

Lemma recent_rows_In (db : Database) (u : Z) (p : Product) (t : Z) :
  In (p, t) (sort_desc Z.ltb snd (distinct_on_id db u))
  <-> In p (products db) /\ last_seen db u p = Some t.
Proof. rewrite sort_desc_In. apply distinct_on_id_In. Qed.

Lemma recent_products_In (db : Database) (u : Z) (p : Product) :
  In p (recent_products db u) ->
  In p (products db) /\ exists t, last_seen db u p = Some t.
Proof.
  unfold recent_products. intros H. apply in_map_iff in H.
  destruct H as [[q t] [Hq Hin]]. simpl in Hq. subst q.
  apply In_firstn in Hin. apply recent_rows_In in Hin.
  destruct Hin. eauto.
Qed.

Lemma recent_products_empty (db : Database) (u : Z) :
  (forall i, In i (interactions db) -> i_user_id i <> u) ->
  recent_products db u = [].
Proof.
  intros H. destruct (recent_products db u) as [|p l] eqn:Hr; [reflexivity|].
  assert (Hin : In p (recent_products db u)) by (rewrite Hr; now left).
  apply recent_products_In in Hin. destruct Hin as [_ [t Ht]].
  rewrite (@last_seen_None db u p H) in Ht. discriminate.
Qed.

Lemma recent_products_NoDup (db : Database) (u : Z) :
  unique_ids (products db) -> NoDup (map p_id (recent_products db u)).
Proof.
  intros Hu. unfold recent_products. rewrite map_map.
  apply NoDup_map_firstn.
  eapply Permutation_NoDup.
  - apply Permutation_map, Permutation_sym, sort_desc_perm.
  - unfold distinct_on_id. eapply Permutation_NoDup.
    + apply Permutation_map, Permutation_sym, sort_asc_perm.
    + now apply seen_rows_NoDup.
Qed.

Lemma StronglySorted_map_In {A B : Type} (R : A -> A -> Prop)
      (R' : B -> B -> Prop) (f : A -> B) (l : list A) :
  (forall x y, In x l -> In y l -> R x y -> R' (f x) (f y)) ->
  StronglySorted R l -> StronglySorted R' (map f l).
Proof.
  intros HR H. induction H as [|a l Hl IH Ha]; simpl; [constructor|].
  constructor.
  - apply IH. intros x y Hx Hy. apply HR; now right.
  - rewrite Forall_forall in *. intros b Hb. apply in_map_iff in Hb.
    destruct Hb as [y [<- Hy]]. apply HR; [now left|now right|auto].
Qed.

Lemma StronglySorted_split {A : Type} (R : A -> A -> Prop)
      (l1 l2 : list A) (a b : A) :
  StronglySorted R (l1 ++ l2) -> In a l1 -> In b l2 -> R a b.
Proof.
  induction l1 as [|x l1 IH]; simpl; [tauto|].
  intros H [<-|Ha] Hb; inversion H as [|? ? Hs Hf]; subst.
  - rewrite Forall_forall in Hf. apply Hf. apply in_or_app. now right.
  - now apply IH.
Qed.

(** Most recent first. *)
Lemma recent_products_sorted (db : Database) (u : Z) :
  StronglySorted
    (fun a b => forall ta tb, last_seen db u a = Some ta ->
                              last_seen db u b = Some tb -> tb <= ta)
    (recent_products db u).
Proof.
  unfold recent_products.
  apply (@StronglySorted_map_In _ _ (fun a b => snd b <= snd a)).
  - intros [a ta] [b tb] Ha Hb Hab ta' tb' Hta Htb.
    apply In_firstn in Ha, Hb. apply recent_rows_In in Ha, Hb.
    simpl in *. destruct Ha as [_ Ha], Hb as [_ Hb]. congruence.
  - apply StronglySorted_firstn, recent_rows_sorted.
Qed.

(** [LIMIT 10] cuts the oldest. *)
Lemma recent_products_complete (db : Database) (u : Z) (p : Product)
      (t : Z) :
  In p (products db) -> last_seen db u p = Some t ->
  In p (recent_products db u)
  \/ (List.length (recent_products db u) = 10%nat
      /\ forall q tq, In q (recent_products db u) ->
                      last_seen db u q = Some tq -> t <= tq).
Proof.
  intros Hp Ht. unfold recent_products.
  set (L := sort_desc Z.ltb snd (distinct_on_id db u)).
  assert (Hin : In (p, t) L) by (apply recent_rows_In; auto).
  pose proof (recent_rows_sorted db u) as Hs. fold L in Hs.
  rewrite <- (firstn_skipn 10 L) in Hin, Hs.
  apply in_app_or in Hin. destruct Hin as [Hin|Hin].
  - left. apply in_map_iff. now exists (p, t).
  - right. split.
    + rewrite length_map, length_firstn.
      assert (List.length (skipn 10 L) <> 0%nat)
        by (destruct (skipn 10 L); [destruct Hin|discriminate]).
      rewrite length_skipn in H. lia.
    + intros q tq Hq Htq. apply in_map_iff in Hq.
      destruct Hq as [[q' tq'] [Hq' Hq]]. simpl in Hq'. subst q'.
      pose proof (@StronglySorted_split _ _ _ _ _ _ Hs Hq Hin) as Hle.
      simpl in Hle. apply In_firstn in Hq. apply recent_rows_In in Hq.
      destruct Hq as [_ Hq]. congruence.
Qed.

Lemma recent_products_length (db : Database) (u : Z) :
  (List.length (recent_products db u) <= 10)%nat.
Proof.
  unfold recent_products. rewrite length_map. apply firstn_le_length.
Qed.

End RecentFacts.

(* ================================================================= *)
(** ** The aggregation loop of [get_recommendations_for_user] *)

Module UserMore.
Import PyFacts SortFacts FloatFacts Specs ContentBased ContentFacts.
Import CollaborativeFacts HybridFacts UserFacts Reading CollaborativeMore.
Import SimilarFacts ContentMore.
Local Open Scope Z_scope.

Lemma merge_NoDup (d d' : dict Rec) (rec : Rec) :
  NoDup (dict_keys d) -> merge (Some d) rec = Some d' ->
  NoDup (dict_keys d').
Proof.
  unfold merge. intros Hd H.
  destruct (dict_get d (product_id rec)) as [old|].
  - destruct (similarity_score old), (similarity_score rec);
      try discriminate.
    inversion H; subst. now apply dict_set_NoDup.
  - inversion H; subst. now apply dict_set_NoDup.
Qed.

Lemma fold_merge_Some (similar : list Rec) (o : option (dict Rec))
      (d' : dict Rec) :
  fold_left merge similar o = Some d' -> exists d, o = Some d.
Proof.
  revert o. induction similar as [|r l IH]; simpl; intros o H; [eauto|].
  apply IH in H. destruct H as [d Hd]. destruct o as [d0|]; [eauto|].
  discriminate.
Qed.

Lemma fold_merge_NoDup (similar : list Rec) (d d' : dict Rec) :
  NoDup (dict_keys d) -> fold_left merge similar (Some d) = Some d' ->
  NoDup (dict_keys d').
Proof.
  revert d. induction similar as [|r l IH]; simpl; intros d Hd H.
  - now inversion H; subst.
  - destruct (fold_merge_Some _ _ H) as [d1 Hd1]. rewrite Hd1 in H.
    eapply IH; [|exact H]. eapply merge_NoDup; eassumption.
Qed.

Lemma merge_score (d d' : dict Rec) (rec : Rec) (b : float) :
  all_scored d -> similarity_score rec = Some b ->
  merge (Some d) rec = Some d' ->
  all_scored d'
  /\ forall pid, held_score d' pid
                 = accrue (held_score d pid) (scores_for pid [rec]).
Proof.
  unfold merge, all_scored. intros Hd Hb H.
  destruct (dict_get d (product_id rec)) as [old|] eqn:Hold.
  - rewrite Hb in H.
    destruct (similarity_score old) as [a|] eqn:Ha; [|discriminate].
    inversion H; subst d'. split.
    + apply (dict_set_Forall (fun r => similarity_score r <> None));
        [assumption|]. simpl. discriminate.
    + intros pid. unfold held_score, scores_for. simpl.
      rewrite dict_get_set, (Z.eqb_sym (product_id rec) pid).
      destruct (Z.eqb_spec pid (product_id rec)) as [->|Hne].
      * rewrite Hold, Ha, Hb. reflexivity.
      * reflexivity.
  - inversion H; subst d'. split.
    + apply (dict_set_Forall (fun r => similarity_score r <> None));
        [assumption|]. congruence.
    + intros pid. unfold held_score, scores_for. simpl.
      rewrite dict_get_set, (Z.eqb_sym (product_id rec) pid).
      destruct (Z.eqb_spec pid (product_id rec)) as [->|Hne].
      * rewrite Hold, Hb. reflexivity.
      * reflexivity.
Qed.

Lemma scores_for_app (pid : Z) (l1 l2 : list Rec) :
  scores_for pid (l1 ++ l2) = scores_for pid l1 ++ scores_for pid l2.
Proof. unfold scores_for. apply flat_map_app. Qed.

Lemma fold_merge_score (similar : list Rec) (d d' : dict Rec) :
  all_scored d ->
  Forall (fun r => similarity_score r <> None) similar ->
  fold_left merge similar (Some d) = Some d' ->
  all_scored d'
  /\ forall pid, held_score d' pid
                 = accrue (held_score d pid) (scores_for pid similar).
Proof.
  revert d. induction similar as [|r l IH]; cbn [fold_left];
    intros d Hd Hs H.
  - inversion H; subst. split; [assumption|reflexivity].
  - inversion Hs as [|? ? Hr Hl]; subst.
    destruct (similarity_score r) as [b|] eqn:Hb; [|congruence].
    destruct (fold_merge_Some _ _ H) as [d1 Hd1]. rewrite Hd1 in H.
    destruct (@merge_score d d1 r b Hd Hb Hd1) as [Hd1s Hd1g].
    destruct (IH d1 Hd1s Hl H) as [Hd's Hd'g].
    split; [assumption|]. intros pid.
    change (r :: l) with ([r] ++ l).
    now rewrite scores_for_app, accrue_app, <- Hd1g, Hd'g.
Qed.

Section WithSklearn.
Variable vocabulary : Type.
Variable fit : list string -> option vocabulary.
Variable transform : vocabulary -> string -> list Qc.
Variable cosine : list Qc -> list Qc -> Qc.

Lemma gather_NoDup (user_products : list Product) (d d' : dict Rec)
      (self self' : CB vocabulary) :
  NoDup (dict_keys d) ->
  gather fit transform cosine user_products d self = (Some d', self') ->
  NoDup (dict_keys d').
Proof.
  revert d self. induction user_products as [|p ps IH]; simpl;
    intros d self Hk H.
  - apply MethodFacts.ret_Some in H. destruct H as [-> _]. assumption.
  - run_bind H similar s1 Hs. run_lift H dnew Hdnew.
    eapply IH; [|exact H]. eapply fold_merge_NoDup; eassumption.
Qed.

(** On a loaded recommender the loop adds up, product by product, the
    scores of the lists [get_similar_products] returns. *)
Lemma gather_score (df : list Product) (tfidf : list (list Qc))
      (user_products : list Product) (d d' : dict Rec)
      (self self' : CB vocabulary) :
  loaded self df tfidf ->
  all_scored d ->
  gather fit transform cosine user_products d self = (Some d', self') ->
  self' = self
  /\ all_scored d'
  /\ forall pid,
       held_score d' pid
       = accrue (held_score d pid)
           (flat_map
              (fun p =>
                 scores_for pid
                   (match fst (get_similar_products fit transform cosine
                                 (p_id p) 20 default_min_score self) with
                    | Some l => l
                    | None => []
                    end)) user_products).
Proof.
  intros Hl. revert d. induction user_products as [|p ps IH]; simpl;
    intros d Hd H.
  - apply MethodFacts.ret_Some in H. destruct H as [-> ->].
    repeat split; assumption.
  - run_bind H similar s1 Hs.
    destruct (@get_similar_products_loaded vocabulary fit transform cosine
                self df tfidf (p_id p) 20%nat default_min_score Hl)
      as [recs [Hrun Hrecs]].
    rewrite Hrun in Hs. inversion Hs; subst similar s1; clear Hs.
    run_lift H dnew Hdnew.
    assert (Hsc : Forall (fun r => similarity_score r <> None) recs).
    { apply Forall_forall. intros r Hr.
      destruct (Hrecs r Hr) as [q [s [_ ->]]]. simpl. discriminate. }
    destruct (@fold_merge_score recs d dnew Hd Hsc Hdnew) as [Hdn Hget].
    destruct (IH dnew Hdn H) as [-> [Hd' Hget']].
    split; [reflexivity|]. split; [assumption|].
    intros pid. rewrite Hrun. simpl fst.
    now rewrite accrue_app, <- Hget, Hget'.
Qed.

Lemma get_recommendations_for_user_length (u : Z) (n : nat)
      (self self' : CB vocabulary) (recs : list Rec) :
  get_recommendations_for_user fit transform cosine u n self
  = (Some recs, self') ->
  (List.length recs <= n)%nat.
Proof.
  intros H.
  destruct (Store.recent_products (engine self) u) as [|p0 ps] eqn:Hrec.
  - rewrite (@get_recommendations_for_user_cold_start vocabulary fit
               transform cosine u n self Hrec) in H.
    unfold get_popular_products, bind, get, ret in H.
    injection H as <- _. rewrite length_map.
    unfold Store.popularity_rank. apply firstn_le_length.
  - assert (Hne : Store.recent_products (engine self) u <> [])
      by (rewrite Hrec; discriminate).
    now destruct (@get_recommendations_for_user_excludes_recent vocabulary
                    fit transform cosine u n self self' recs Hne H).
Qed.

End WithSklearn.
End UserMore.

(* ================================================================= *)
(** ** The entries of [hybrid_scores] *)

Module HybridMore.
Import PyFacts SortFacts FloatFacts CollaborativeFacts Specs Hybrid.
Import HybridFacts CollaborativeMore StoreFacts.
Local Open Scope Z_scope.

Lemma lookup_last_id (recs : list Rec) (pid : Z) (r : Rec) :
  lookup_last recs pid = Some r -> product_id r = pid /\ In r recs.
Proof.
  unfold lookup_last. intros H. apply find_some in H.
  destruct H as [Hin Heq]. apply Z.eqb_eq in Heq.
  split; [assumption|]. now apply in_rev.
Qed.

Section WithArithmetic.
Context {A : Arithmetic}.

Lemma fold_add_collab_NoDup (items : dict Rec) (d : dict Scored) :
  NoDup (dict_keys d) -> NoDup (dict_keys (fold_left add_collab items d)).
Proof.
  revert d. induction items as [|[k r] items IH]; intros d Hd;
    [assumption|].
  cbn [fold_left]. apply IH. unfold add_collab. now apply dict_set_NoDup.
Qed.

Lemma fold_add_content_NoDup (items : dict Rec) (d : dict Scored) :
  NoDup (dict_keys d) -> NoDup (dict_keys (fold_left add_content items d)).
Proof.
  revert d. induction items as [|[k r] items IH]; intros d Hd;
    [assumption|].
  cbn [fold_left]. apply IH. unfold add_content.
  destruct (dict_get d k); now apply dict_set_NoDup.
Qed.

Lemma hybrid_scores_NoDup (content_recs collab_recs : list Rec) :
  NoDup (dict_keys (hybrid_scores content_recs collab_recs)).
Proof.
  unfold hybrid_scores. apply fold_add_content_NoDup, fold_add_collab_NoDup.
  constructor.
Qed.

Lemma hybrid_scores_keys (content_recs collab_recs : list Rec) (pid : Z) :
  In pid (dict_keys (hybrid_scores content_recs collab_recs))
  <-> In pid (map product_id (collab_recs ++ content_recs)).
Proof.
  rewrite map_app, in_app_iff, <- !lookup_last_Some.
  pose proof (hybrid_scores_get content_recs collab_recs pid) as Hg.
  split.
  - intros Hin.
    destruct (dict_get (hybrid_scores content_recs collab_recs) pid)
      as [h|] eqn:Hd.
    + destruct (lookup_last content_recs pid) as [rs|];
        destruct (lookup_last collab_recs pid) as [rc|]; eauto.
      discriminate.
    + apply dict_get_None in Hd. contradiction.
  - intros H.
    destruct (dict_get (hybrid_scores content_recs collab_recs) pid)
      as [h|] eqn:Hd; [now apply dict_get_key in Hd|].
    exfalso. destruct H as [[r Hr]|[r Hr]]; rewrite Hr in Hg;
      destruct (lookup_last content_recs pid);
      destruct (lookup_last collab_recs pid); discriminate.
Qed.

(** The record an entry carries: the collaborative one when the
    collaborative list has the product, the content one otherwise. *)
Lemma hybrid_scores_data (content_recs collab_recs : list Rec) (pid : Z)
      (h : Scored) :
  In (pid, h) (hybrid_scores content_recs collab_recs) ->
  product_id (data h) = pid
  /\ (lookup_last collab_recs pid = Some (data h)
      \/ (lookup_last collab_recs pid = None
          /\ lookup_last content_recs pid = Some (data h))).
Proof.
  intros Hin.
  pose proof (@dict_get_NoDup_In _ _ pid h
                (hybrid_scores_NoDup content_recs collab_recs) Hin) as Hd.
  rewrite hybrid_scores_get in Hd.
  destruct (lookup_last content_recs pid) as [rs|] eqn:Hs;
    destruct (lookup_last collab_recs pid) as [rc|] eqn:Hc;
    try discriminate; injection Hd as <-; simpl.
  - split; [now apply lookup_last_id in Hc|now left].
  - split; [now apply lookup_last_id in Hs|now right].
  - split; [now apply lookup_last_id in Hc|now left].
Qed.

(** An entry of [hybrid_scores] sits under the product id of its record
    and carries the weighted score of the specification. *)
Lemma hybrid_scores_entry (content_recs collab_recs : list Rec) (pid : Z)
      (h : Scored) :
  In (pid, h) (hybrid_scores content_recs collab_recs) ->
  dict_get (hybrid_scores content_recs collab_recs) pid = Some h
  /\ weighted_score collab_recs content_recs pid = Some (score h)
  /\ product_id (data h) = pid.
Proof.
  intros Hin.
  pose proof (@dict_get_NoDup_In _ _ pid h
                (hybrid_scores_NoDup content_recs collab_recs) Hin) as Hd.
  split; [exact Hd|]. split; [now apply hybrid_scores_weighted|].
  now apply hybrid_scores_data in Hin.
Qed.

End WithArithmetic.

(** Rounding can decide the order.  A content score 0.27 and a
    collaborative score 0.18 give the same hybrid score on the rationals,
    so the exact combiner leaves the collaborative product first; in
    binary64 [0.27 * 0.4] is above [0.18 * 0.6], and the content product
    comes first. *)
Lemma rounding_decides_order :
  map product_id
      (@_combine_recommendations exact [Samples.content_rec 1 (27 # 100)]
                                 [Samples.collab_rec 2 (18 # 100)] 10)
  = [2; 1]
  /\ map product_id
         (@_combine_recommendations binary64
                                    [Samples.content_rec 1 (27 # 100)]
                                    [Samples.collab_rec 2 (18 # 100)] 10)
     = [1; 2].
Proof. split; vm_compute; reflexivity. Qed.

End HybridMore.

(* ================================================================= *)
(** ** What the methods leave of the recommender objects *)

Module StateFacts.
Import PyFacts SortFacts FloatFacts Specs.
Local Open Scope Z_scope.

Lemma bind_keeps {S A B E : Type} (f : S -> E) (c : M S A) (k : A -> M S B) :
  (forall s, f (snd (c s)) = f s) ->
  (forall a s, f (snd (k a s)) = f s) ->
  forall s, f (snd (bind c k s)) = f s.
Proof.
  intros Hc Hk s. unfold bind. specialize (Hc s).
  destruct (c s) as [[a|] s1]; simpl in *; [|assumption].
  now rewrite Hk.
Qed.

Lemma lift_keeps {S A : Type} (o : option A) (s : S) :
  snd (lift o s) = s.
Proof. now destruct o. Qed.

Section Content.
Import ContentBased.
Variable vocabulary : Type.
Variable fit : list string -> option vocabulary.
Variable transform : vocabulary -> string -> list Qc.
Variable cosine : list Qc -> list Qc -> Qc.

Lemma load_products_engine (s : CB vocabulary) :
  engine (snd (load_products s)) = engine s.
Proof. reflexivity. Qed.

Lemma build_tfidf_matrix_engine (s : CB vocabulary) :
  engine (snd (build_tfidf_matrix fit transform s)) = engine s.
Proof.
  unfold build_tfidf_matrix, bind, get, put, load_products, lift, ret, raise.
  destruct (products_df s) as [df|]; cbn;
    match goal with |- context [fit ?d] => destruct (fit d) end;
    reflexivity.
Qed.

Lemma ensure_loaded_engine (s : CB vocabulary) :
  engine (snd (ensure_loaded fit transform s)) = engine s.
Proof.
  unfold ensure_loaded. unfold bind at 1, get.
  destruct (products_df s), (tfidf_matrix s); try reflexivity;
    (apply (bind_keeps (@engine vocabulary));
     [apply load_products_engine|]; intros _;
     apply (bind_keeps (@engine vocabulary));
     [apply build_tfidf_matrix_engine|]; reflexivity).
Qed.

Lemma calculate_similarity_state (idx : nat) (s : CB vocabulary) :
  snd (calculate_similarity cosine idx s) = s.
Proof.
  unfold calculate_similarity. unfold bind at 1, get.
  repeat (apply (bind_keeps (fun x : CB vocabulary => x));
          [apply lift_keeps|]; intros ?).
  apply lift_keeps.
Qed.

Lemma get_similar_products_engine (pid : Z) (n : nat) (min_score : float)
      (s : CB vocabulary) :
  engine (snd (get_similar_products fit transform cosine pid n min_score s))
  = engine s.
Proof.
  unfold get_similar_products.
  apply (bind_keeps (@engine vocabulary)); [apply ensure_loaded_engine|].
  intros _ s1. unfold bind at 1, get.
  apply (bind_keeps (@engine vocabulary));
    [intros s2; now rewrite lift_keeps|].
  intros df s2.
  destruct (find_index _ (rows df)); [|reflexivity].
  apply (bind_keeps (@engine vocabulary)).
  - intros s3. now rewrite calculate_similarity_state.
  - intros a s3. now rewrite lift_keeps.
Qed.

Lemma gather_engine (user_products : list Product) (d : dict Rec)
      (s : CB vocabulary) :
  engine (snd (gather fit transform cosine user_products d s)) = engine s.
Proof.
  revert d s. induction user_products as [|p ps IH]; intros d s;
    [reflexivity|].
  cbn [gather].
  apply (bind_keeps (@engine vocabulary));
    [apply get_similar_products_engine|].
  intros similar s1.
  apply (bind_keeps (@engine vocabulary));
    [intros s2; now rewrite lift_keeps|].
  intros d' s2. apply IH.
Qed.

Lemma get_popular_products_state (n : nat) (s : CB vocabulary) :
  snd (get_popular_products n s) = s.
Proof. reflexivity. Qed.

Lemma get_recommendations_for_user_engine (u : Z) (n : nat)
      (s : CB vocabulary) :
  engine (snd (get_recommendations_for_user fit transform cosine u n s))
  = engine s.
Proof.
  unfold get_recommendations_for_user. unfold bind at 1, get.
  destruct (Store.recent_products (engine s) u); [reflexivity|].
  apply (bind_keeps (@engine vocabulary)); [apply gather_engine|].
  reflexivity.
Qed.

End Content.

Section Collaborative.
Import Collaborative.
Variable cosine : list Z -> list Z -> float.

Lemma build_user_item_matrix_engine (s : CF) :
  engine (snd (build_user_item_matrix s)) = engine s.
Proof. reflexivity. Qed.

Lemma calculate_user_similarity_engine (s : CF) :
  engine (snd (calculate_user_similarity cosine s)) = engine s.
Proof.
  unfold calculate_user_similarity, bind, get, put, lift, ret, raise.
  destruct (user_item_matrix s) as [m|]; cbn;
    match goal with
    | |- context [similarity_frame cosine ?m] =>
        destruct (similarity_frame cosine m)
    end; reflexivity.
Qed.

Lemma ensure_matrices_engine (s : CF) :
  engine (snd (ensure_matrices cosine s)) = engine s.
Proof.
  unfold ensure_matrices. unfold bind at 1, get.
  destruct (user_item_matrix s), (user_similarity_matrix s);
    try reflexivity;
    (apply (bind_keeps engine); [apply build_user_item_matrix_engine|];
     intros _; apply (bind_keeps engine);
     [apply calculate_user_similarity_engine|]; reflexivity).
Qed.

Lemma get_similar_users_engine (u : Z) (n : nat) (s : CF) :
  engine (snd (get_similar_users cosine u n s)) = engine s.
Proof.
  unfold get_similar_users. unfold bind at 1, get.
  apply (bind_keeps engine).
  - intros s1. destruct (user_similarity_matrix s); [reflexivity|].
    apply calculate_user_similarity_engine.
  - intros sim s1. destruct (negb (mem u (index sim))); [reflexivity|].
    apply (bind_keeps engine); [intros s2; now rewrite lift_keeps|].
    reflexivity.
Qed.

Lemma get_recommendations_engine (u : Z) (n : nat) (min_similarity : float)
      (s : CF) :
  engine (snd (get_recommendations cosine u n min_similarity s)) = engine s.
Proof.
  unfold get_recommendations.
  apply (bind_keeps engine); [apply ensure_matrices_engine|].
  intros _ s1. unfold bind at 1, get.
  apply (bind_keeps engine); [intros s2; now rewrite lift_keeps|].
  intros m s2. destruct (negb (mem u (index m))); [reflexivity|].
  apply (bind_keeps engine); [apply get_similar_users_engine|].
  intros su s3. destruct (filter _ su); [reflexivity|].
  apply (bind_keeps engine); [intros s4; now rewrite lift_keeps|].
  intros row s4.
  apply (bind_keeps engine); [intros s5; now rewrite lift_keeps|].
  intros ps s5. destruct (firstn n (sorted_desc snd ps)); [reflexivity|].
  apply (bind_keeps engine); [intros s6; now rewrite lift_keeps|].
  reflexivity.
Qed.

Lemma get_metrics_engine (s : CF) :
  engine (snd (CollaborativeMetrics.get_metrics s)) = engine s.
Proof.
  unfold CollaborativeMetrics.get_metrics. unfold bind at 1, get.
  apply (bind_keeps engine); [|reflexivity].
  intros s1. destruct (user_item_matrix s); reflexivity.
Qed.

End Collaborative.

End StateFacts.

(* ================================================================= *)
(** ** Running the endpoints *)

Module ApiFacts.
Import PyFacts SortFacts FloatFacts Specs Api StateFacts StoreFacts.
Import CollaborativeFacts CollaborativeMore UserFacts UserMore SimilarFacts.
Local Open Scope Z_scope.

Lemma hbind_inl {V A B : Type} (c : Handler V A) (k : A -> Handler V B)
      (app app' : App V) (b : B) :
  hbind c k app = (inl b, app') ->
  exists a app1, c app = (inl a, app1) /\ k a app1 = (inl b, app').
Proof.
  unfold hbind. destruct (c app) as [[a|e] app1]; intros H;
    [eauto|discriminate].
Qed.

Lemma try_500_inl {V A : Type} (body : Handler V A) (app app' : App V)
      (a : A) :
  try_500 body app = (inl a, app') -> body app = (inl a, app').
Proof.
  unfold try_500. destruct (body app) as [[x|e] app1]; intros H;
    [assumption|discriminate].
Qed.

Lemma try_500_inr {V A : Type} (body : Handler V A) (app : App V) (e : exn) :
  fst (try_500 body app) = inr e -> e = HTTPException 500.
Proof.
  unfold try_500. destruct (body app) as [[x|e'] app1]; simpl; congruence.
Qed.

Lemma on_content_inl {V A : Type} (method : M (ContentBased.CB V) A)
      (app app' : App V) (a : A) :
  on_content method app = (inl a, app') ->
  exists rec rec', content_recommender app = Some rec
                   /\ method rec = (Some a, rec')
                   /\ app' = set_content app rec'.
Proof.
  unfold on_content. destruct (content_recommender app) as [rec|];
    [|discriminate].
  destruct (method rec) as [[x|] rec'] eqn:Hm; intros H; inversion H; subst.
  eauto.
Qed.

Lemma on_collaborative_inl {V A : Type} (method : M Collaborative.CF A)
      (app app' : App V) (a : A) :
  on_collaborative method app = (inl a, app') ->
  exists rec rec', collaborative_recommender app = Some rec
                   /\ method rec = (Some a, rec')
                   /\ app' = set_collaborative app rec'.
Proof.
  unfold on_collaborative. destruct (collaborative_recommender app) as [rec|];
    [|discriminate].
  destruct (method rec) as [[x|] rec'] eqn:Hm; intros H; inversion H; subst.
  eauto.
Qed.

(** A method that keeps the engine keeps the application coherent, whether
    it returns or raises. *)
Lemma on_content_coherent {V A : Type} (method : M (ContentBased.CB V) A)
      (app : App V) :
  (forall s, ContentBased.engine (snd (method s)) = ContentBased.engine s) ->
  coherent app ->
  coherent (snd (on_content method app))
  /\ database (snd (on_content method app)) = database app.
Proof.
  intros Hm [Hc Hk]. unfold on_content.
  destruct (content_recommender app) as [rec|] eqn:Hrec;
    [|simpl; split; [split|reflexivity]; [now rewrite Hrec|assumption]].
  specialize (Hm rec).
  destruct (method rec) as [[x|] rec']; simpl in *;
    (split; [split|reflexivity]; simpl;
     [intros r Hr; injection Hr as <-; rewrite Hm; now apply Hc
     |assumption]).
Qed.

Lemma on_collaborative_coherent {V A : Type}
      (method : M Collaborative.CF A) (app : App V) :
  (forall s, Collaborative.engine (snd (method s)) = Collaborative.engine s) ->
  coherent app ->
  coherent (snd (on_collaborative method app))
  /\ database (snd (on_collaborative method app)) = database app.
Proof.
  intros Hm [Hc Hk]. unfold on_collaborative.
  destruct (collaborative_recommender app) as [rec|] eqn:Hrec;
    [|simpl; split; [split|reflexivity]; [assumption|now rewrite Hrec]].
  specialize (Hm rec).
  destruct (method rec) as [[x|] rec']; simpl in *;
    (split; [split|reflexivity]; simpl;
     [assumption
     |intros r Hr; injection Hr as <-; rewrite Hm; now apply Hk]).
Qed.

Lemma hbind_coherent {V A B : Type} (c : Handler V A) (k : A -> Handler V B)
      (app : App V) :
  (forall app, coherent app ->
               coherent (snd (c app)) /\ database (snd (c app)) = database app) ->
  (forall a app, coherent app ->
                 coherent (snd (k a app))
                 /\ database (snd (k a app)) = database app) ->
  coherent app ->
  coherent (snd (hbind c k app))
  /\ database (snd (hbind c k app)) = database app.
Proof.
  intros Hc Hk Happ. unfold hbind. specialize (Hc app Happ).
  destruct (c app) as [[a|e] app1]; simpl in *; [|assumption].
  destruct Hc as [Hc1 Hd1]. destruct (Hk a app1 Hc1) as [H1 H2].
  split; [assumption|congruence].
Qed.

Lemma hret_coherent {V A : Type} (a : A) (app : App V) :
  coherent app ->
  coherent (snd (hret a app)) /\ database (snd (hret a app)) = database app.
Proof. intros H. split; [assumption|reflexivity]. Qed.

Section WithSklearn.
Variable vocabulary : Type.
Variable fit : list string -> option vocabulary.
Variable transform : vocabulary -> string -> list Qc.
Variable cosine_text : list Qc -> list Qc -> Qc.
Variable features : vocabulary -> Z.
Variable cosine_rows : list Z -> list Z -> float.

Lemma get_content_recommender_eq (app : App vocabulary) :
  get_content_recommender fit transform app
  = match content_recommender app with
    | Some _ => (inl tt, app)
    | None =>
        hbind (on_content (@ContentBased.load_products vocabulary)) (fun _ =>
        hbind (on_content (ContentBased.build_tfidf_matrix fit transform))
              (fun _ => hret tt))
          (set_content app (ContentBased.init vocabulary (database app)))
    end.
Proof.
  unfold get_content_recommender, hbind, hget, hput. cbv beta iota.
  destruct (content_recommender app); reflexivity.
Qed.

Lemma get_collaborative_recommender_eq (app : App vocabulary) :
  get_collaborative_recommender cosine_rows app
  = match collaborative_recommender app with
    | Some _ => (inl tt, app)
    | None =>
        hbind (on_collaborative Collaborative.build_user_item_matrix)
              (fun _ =>
        hbind (on_collaborative
                 (Collaborative.calculate_user_similarity cosine_rows))
              (fun _ => hret tt))
          (set_collaborative app (Collaborative.init (database app)))
    end.
Proof.
  unfold get_collaborative_recommender, hbind, hget, hput. cbv beta iota.
  destruct (collaborative_recommender app); reflexivity.
Qed.

Lemma get_content_recommender_coherent (app : App vocabulary) :
  coherent app ->
  coherent (snd (get_content_recommender fit transform app))
  /\ database (snd (get_content_recommender fit transform app))
     = database app.
Proof.
  intros Hc. rewrite get_content_recommender_eq.
  destruct (content_recommender app) as [rec|] eqn:Hrec;
    [simpl; auto|].
  assert (H0 : coherent (set_content app
                           (ContentBased.init vocabulary (database app)))).
  { destruct Hc as [_ Hk]. split; simpl; [|assumption].
    intros r Hr. now injection Hr as <-. }
  change (database app)
    with (database (set_content app
                      (ContentBased.init vocabulary (database app)))) at 3.
  generalize dependent (set_content app
                          (ContentBased.init vocabulary (database app))).
  intros app0 H0.
  apply hbind_coherent; [| |assumption].
  - intros a Ha. apply on_content_coherent; [|assumption].
    apply load_products_engine.
  - intros _ a Ha. apply hbind_coherent; [| |assumption].
    + intros a' Ha'. apply on_content_coherent; [|assumption].
      apply build_tfidf_matrix_engine.
    + intros _ a' Ha'. now apply hret_coherent.
Qed.

Lemma get_collaborative_recommender_coherent (app : App vocabulary) :
  coherent app ->
  coherent (snd (get_collaborative_recommender cosine_rows app))
  /\ database (snd (get_collaborative_recommender cosine_rows app))
     = database app.
Proof.
  intros Hc. rewrite get_collaborative_recommender_eq.
  destruct (collaborative_recommender app) as [rec|] eqn:Hrec;
    [simpl; auto|].
  assert (H0 : coherent (set_collaborative app
                           (Collaborative.init (database app)))).
  { destruct Hc as [Hk _]. split; simpl; [assumption|].
    intros r Hr. now injection Hr as <-. }
  change (database app)
    with (database (set_collaborative app
                      (Collaborative.init (database app)))) at 3.
  generalize dependent (set_collaborative app
                          (Collaborative.init (database app))).
  intros app0 H0.
  apply hbind_coherent; [| |assumption].
  - intros a Ha. apply on_collaborative_coherent; [|assumption].
    apply build_user_item_matrix_engine.
  - intros _ a Ha. apply hbind_coherent; [| |assumption].
    + intros a' Ha'. apply on_collaborative_coherent; [|assumption].
      apply calculate_user_similarity_engine.
    + intros _ a' Ha'. now apply hret_coherent.
Qed.

(** After [get_content_recommender] has returned, the global names an
    object. *)
Lemma get_content_recommender_inl (app app' : App vocabulary) (t : unit) :
  get_content_recommender fit transform app = (inl t, app') ->
  exists rec, content_recommender app' = Some rec.
Proof.
  rewrite get_content_recommender_eq.
  destruct (content_recommender app) as [rec|] eqn:Hrec.
  - intros H. inversion H; subst. eauto.
  - intros H.
    apply hbind_inl in H. destruct H as [a [app1 [H1 H]]].
    apply hbind_inl in H. destruct H as [b [app2 [H2 H]]].
    inversion H; subst.
    apply on_content_inl in H2. destruct H2 as [r [r' [_ [_ ->]]]].
    simpl. eauto.
Qed.

Lemma recommend_coherent (u : Z) (limit : nat) (algorithm : string)
      (app : App vocabulary) :
  coherent app ->
  coherent (snd (recommend fit transform cosine_text cosine_rows u limit
                           algorithm app))
  /\ database (snd (recommend fit transform cosine_text cosine_rows u limit
                              algorithm app))
     = database app.
Proof.
  intros Hc. unfold recommend.
  destruct (String.eqb algorithm "content");
    [|destruct (String.eqb algorithm "collaborative")].
  - apply hbind_coherent; [| |assumption].
    + apply get_content_recommender_coherent.
    + intros _ a Ha. apply hbind_coherent; [| |assumption].
      * intros a' Ha'. apply on_content_coherent; [|assumption].
        apply get_recommendations_for_user_engine.
      * intros r a' Ha'. now apply hret_coherent.
  - apply hbind_coherent; [| |assumption].
    + apply get_collaborative_recommender_coherent.
    + intros _ a Ha. apply hbind_coherent; [| |assumption].
      * intros a' Ha'. apply on_collaborative_coherent; [|assumption].
        apply get_recommendations_engine.
      * intros r a' Ha'. now apply hret_coherent.
  - apply hbind_coherent; [| |assumption].
    + apply get_content_recommender_coherent.
    + intros _ a Ha. apply hbind_coherent; [| |assumption].
      * apply get_collaborative_recommender_coherent.
      * intros _ a1 Ha1. apply hbind_coherent; [| |assumption].
        -- intros a' Ha'. apply on_content_coherent; [|assumption].
           apply get_recommendations_for_user_engine.
        -- intros r a2 Ha2. apply hbind_coherent; [| |assumption].
           ++ intros a' Ha'. apply on_collaborative_coherent; [|assumption].
              apply get_recommendations_engine.
           ++ intros r' a3 Ha3. now apply hret_coherent.
Qed.

Lemma averages_state (sample : list nat) (s : ContentBased.CB vocabulary) :
  snd (ContentMetrics.averages cosine_text sample s) = s.
Proof.
  revert s. induction sample as [|i l IH]; intros s; [reflexivity|].
  cbn [ContentMetrics.averages].
  apply (bind_keeps (fun x : ContentBased.CB vocabulary => x));
    [apply calculate_similarity_state|].
  intros a s1.
  apply (bind_keeps (fun x : ContentBased.CB vocabulary => x));
    [apply IH|reflexivity].
Qed.

(** What [recommend] hands to the formatting loop. *)
Lemma recommend_inl (u : Z) (limit : nat) (algorithm : string)
      (app app1 : App vocabulary) (recs : list Rec) (name : string) :
  coherent app ->
  unique_ids (products (database app)) ->
  recommend fit transform cosine_text cosine_rows u limit algorithm app
  = (inl (recs, name), app1) ->
  (List.length recs <= limit)%nat
  /\ name = (if String.eqb algorithm "content" then "content_based"
             else if String.eqb algorithm "collaborative"
                  then "collaborative_filtering"
                  else "hybrid")%string.
Proof.
  intros Hc Hu H. unfold recommend in H.
  destruct (String.eqb algorithm "content");
    [|destruct (String.eqb algorithm "collaborative")].
  - apply hbind_inl in H. destruct H as [t [a1 [H1 H]]].
    apply hbind_inl in H. destruct H as [r [a2 [H2 H]]].
    inversion H; subst. split; [|reflexivity].
    apply on_content_inl in H2. destruct H2 as [rec [rec' [_ [Hm _]]]].
    eapply get_recommendations_for_user_length; eassumption.
  - apply hbind_inl in H. destruct H as [t [a1 [H1 H]]].
    apply hbind_inl in H. destruct H as [r [a2 [H2 H]]].
    inversion H; subst. split; [|reflexivity].
    apply on_collaborative_inl in H2.
    destruct H2 as [rec [rec' [Hrec [Hm _]]]].
    pose proof (@get_collaborative_recommender_coherent app Hc) as [Hc1 Hd1].
    rewrite H1 in Hc1, Hd1. simpl in Hc1, Hd1.
    destruct Hc1 as [_ Hk]. specialize (Hk rec Hrec).
    eapply get_recommendations_length; [|exact Hm].
    now rewrite Hk, Hd1.
  - apply hbind_inl in H. destruct H as [t [a1 [H1 H]]].
    apply hbind_inl in H. destruct H as [t' [a2 [H2 H]]].
    apply hbind_inl in H. destruct H as [cr [a3 [H3 H]]].
    apply hbind_inl in H. destruct H as [kr [a4 [H4 H]]].
    inversion H; subst. split; [|reflexivity].
    unfold Hybrid._combine_recommendations, Hybrid.sorted_recs.
    rewrite length_map. apply firstn_le_length.
Qed.

(** The dictionary of the collaborative [get_metrics] does not validate. *)
Lemma collaborative_metrics_invalid (rec rec' : Collaborative.CF)
      (metrics : Values.sdict) :
  CollaborativeMetrics.get_metrics rec = (Some metrics, rec') ->
  validate_metrics metrics = None.
Proof.
  intros Hm. unfold CollaborativeMetrics.get_metrics in Hm.
  run_get Hm. run_bind Hm m s1 Hb.
  apply MethodFacts.ret_Some in Hm. destruct Hm as [-> _]. reflexivity.
Qed.

Lemma get_recommendation_metrics_collaborative_500_aux
      (sample_indices : list nat) (app : App vocabulary) :
  fst (get_recommendation_metrics fit transform cosine_text features
         cosine_rows "collaborative" sample_indices app)
  = inr (HTTPException 500).
Proof.
  destruct (get_recommendation_metrics fit transform cosine_text features
              cosine_rows "collaborative" sample_indices app)
    as [[response|e] app'] eqn:H; simpl.
  - exfalso. apply try_500_inl in H.
    apply hbind_inl in H. destruct H as [metrics [a1 [Hm H]]].
    rewrite String.eqb_refl in Hm.
    apply hbind_inl in Hm. destruct Hm as [t [a2 [_ Hm]]].
    apply on_collaborative_inl in Hm.
    destruct Hm as [rec [rec' [_ [Hm _]]]].
    rewrite (collaborative_metrics_invalid _ Hm) in H. discriminate.
  - unfold get_recommendation_metrics in H.
    match type of H with
    | try_500 ?b ?a = _ => pose proof (@try_500_inr _ _ b a e) as Ht
    end.
    rewrite H in Ht. f_equal. now apply Ht.
Qed.

(** Without a scored interaction the collaborative recommender cannot be
    initialised. *)
Lemma get_collaborative_recommender_fails (app : App vocabulary) :
  collaborative_recommender app = None ->
  (forall i, In i (interactions (database app)) ->
             Collaborative.score i = None) ->
  fst (get_collaborative_recommender cosine_rows app) = inr Error.
Proof.
  intros Hnone Hsc. rewrite get_collaborative_recommender_eq, Hnone.
  pose proof (no_scores_no_frame cosine_rows (database app) Hsc) as Hf.
  unfold hbind, on_collaborative. cbn [collaborative_recommender
    set_collaborative]. rewrite build_user_item_matrix_run.
  cbn [collaborative_recommender set_collaborative Collaborative.engine
       Collaborative.init Collaborative.user_similarity_matrix].
  unfold Collaborative.calculate_user_similarity, bind, get.
  cbn [Collaborative.user_item_matrix]. unfold ret at 1.
  rewrite Hf. reflexivity.
Qed.

(** [get_content_recommender] touches neither the database nor the other
    global. *)
Lemma get_content_recommender_others (app : App vocabulary) :
  database (snd (get_content_recommender fit transform app)) = database app
  /\ collaborative_recommender (snd (get_content_recommender fit transform
                                                             app))
     = collaborative_recommender app.
Proof.
  rewrite get_content_recommender_eq.
  destruct (content_recommender app) as [rec|]; [split; reflexivity|].
  unfold hbind, on_content. cbn [content_recommender set_content].
  destruct (ContentBased.load_products _) as [[a|] r1];
    cbn [content_recommender set_content];
    [|split; reflexivity].
  destruct (ContentBased.build_tfidf_matrix fit transform r1)
    as [[b|] r2]; split; reflexivity.
Qed.

End WithSklearn.

End ApiFacts.

(* ================================================================= *)
(** ** The columns of the user-item matrix *)

Module MetricsFacts.
Import PyFacts SortFacts FloatFacts MatrixFacts Specs Collaborative.
Import SimilarityFacts CollaborativeMetrics Values.
Local Open Scope Z_scope.

Lemma fold_add_shift (l : list Z) (a : Z) :
  fold_left Z.add l a = a + fold_left Z.add l 0.
Proof.
  revert a. induction l as [|x l IH]; intros a; simpl; [lia|].
  rewrite (IH (a + x)), (IH x). lia.
Qed.

Lemma sum_Z_cons (x : Z) (l : list Z) : sum_Z (x :: l) = x + sum_Z l.
Proof. unfold sum_Z. simpl. apply fold_add_shift. Qed.

Lemma sum_Z_nonneg (l : list Z) :
  Forall (fun x => 0 <= x) l -> 0 <= sum_Z l.
Proof.
  induction 1 as [|x l Hx _ IH]; [unfold sum_Z; simpl; lia|].
  rewrite sum_Z_cons. lia.
Qed.

Lemma sum_Z_pos (l : list Z) (x : Z) :
  Forall (fun x => 0 <= x) l -> In x l -> 0 < x -> 0 < sum_Z l.
Proof.
  intros H. induction H as [|y l Hy Hl IH]; [intros []|].
  rewrite sum_Z_cons. intros [->|Hin] Hx.
  - pose proof (sum_Z_nonneg Hl). lia.
  - specialize (IH Hin Hx). lia.
Qed.

(** Column [j] of a pivot table: the cells of the [j]-th product. *)
Lemma column_pivot (rows : list (Z * Z * option Z)) (j : nat) (p : Z) :
  nth_error (columns (pivot_table rows)) j = Some p ->
  column (pivot_table rows) j
  = map (fun u => cell_value rows u p) (index (pivot_table rows)).
Proof.
  intros Hj. unfold column, pivot_table in *. cbn [values index columns] in *.
  rewrite map_map. apply map_ext. intros u.
  apply nth_error_nth. now rewrite nth_error_map, Hj.
Qed.

(** Under the rating constraint every column of the matrix has a positive
    sum: its product has a scored interaction, and no cell is negative. *)
Lemma column_sum_positive (db : Database) (j : nat) (p : Z) :
  valid_ratings db ->
  nth_error (columns (pivot_table (read_scores db))) j = Some p ->
  0 < sum_Z (column (pivot_table (read_scores db)) j).
Proof.
  intros Hv Hj. rewrite (column_pivot _ _ Hj).
  assert (Hp : In p (columns (pivot_table (read_scores db))))
    by (eapply nth_error_In; eassumption).
  apply pivot_table_columns in Hp. destruct Hp as [i [s [Hin [Hip Hs]]]].
  assert (Hu : In (i_user_id i) (index (pivot_table (read_scores db)))).
  { apply pivot_table_index. now exists i, s. }
  apply sum_Z_pos with (x := cell_value (read_scores db) (i_user_id i) p).
  - apply Forall_forall. intros x Hx. apply in_map_iff in Hx.
    destruct Hx as [u [<- _]]. now apply cell_value_nonneg.
  - apply in_map_iff. now exists (i_user_id i).
  - pose proof (@score_at_least_1 db i s Hv Hin Hs) as H1.
    destruct (cell_value_spec db (i_user_id i) p) as [[_ Hmax]|[Hno _]].
    + specialize (Hmax i s Hin eq_refl Hip Hs). lia.
    + exfalso. now apply (Hno i s Hin eq_refl Hip).
Qed.

Lemma filter_all {A : Type} (f : A -> bool) (l : list A) :
  (forall x, In x l -> f x = true) -> filter f l = l.
Proof.
  induction l as [|x l IH]; intros H; [reflexivity|]. simpl.
  rewrite (H x (or_introl eq_refl)). f_equal. apply IH.
  intros y Hy. apply H. now right.
Qed.

Lemma covered_all (db : Database) :
  valid_ratings db ->
  filter (fun col => 0 <? sum_Z col)
         (columns_of (pivot_table (read_scores db)))
  = columns_of (pivot_table (read_scores db)).
Proof.
  intros Hv. apply filter_all. intros col Hcol.
  unfold columns_of in Hcol. apply in_map_iff in Hcol.
  destruct Hcol as [j [<- Hj]]. apply in_seq in Hj.
  destruct (nth_error (columns (pivot_table (read_scores db))) j)
    as [p|] eqn:Hp; [|apply nth_error_None in Hp; lia].
  apply Z.ltb_lt. eapply column_sum_positive; eassumption.
Qed.

(** [n / n * 100] is 100 for a positive count [n]. *)
Lemma full_percentage (n : Z) :
  0 < n -> (true_div n n * of_Z 100)%py = of_Z 100.
Proof.
  intros Hn. unfold true_div, of_Z, div, mul.
  assert (Hq : (0 < Q2Qc (inject_Z n))%Qc).
  { change 0%Qc with (Q2Qc (inject_Z 0)).
    unfold Qclt. cbn [this Q2Qc]. rewrite !Qred_correct.
    now rewrite <- Zlt_Qlt. }
  assert (Hne : Q2Qc (inject_Z n) <> 0%Qc).
  { intros E. rewrite E in Hq. now apply Qclt_not_eq in Hq. }
  destruct (Qc_eqb (Q2Qc (inject_Z n)) 0) eqn:E;
    [apply Qc_eqb_eq in E; contradiction|].
  f_equal. field. exact Hne.
Qed.

End MetricsFacts.

(* ================================================================= *)
(** ** The matrix after one more interaction *)

Module InteractionsFacts.
Import PyFacts SortFacts FloatFacts MatrixFacts Specs Collaborative.
Import SimilarityFacts Api Interactions.
Local Open Scope Z_scope.






(** What a successful [track_interaction] did. *)
Lemma track_interaction_inl (b : InteractionCreate) (new_id now : Z)
      (t t' : Tables) (row : Interaction) :
  track_interaction b new_id now t = (inl row, t') ->
  is_valid_type (ic_interaction_type b) = true
  /\ (String.eqb (ic_interaction_type b) "rating" = true ->
      exists r, ic_rating b = Some r)
  /\ insert t new_id now b = Some (row, t').
Proof.
  unfold track_interaction. intros H.
  destruct (is_valid_type (ic_interaction_type b)); simpl in H;
    [|discriminate].
  split; [reflexivity|].
  destruct (String.eqb (ic_interaction_type b) "rating") eqn:Hr.
  - destruct (ic_rating b) as [r|] eqn:Hrat; [|discriminate].
    destruct (negb ((1 <=? r) && (r <=? 5))); [discriminate|].
    destruct (insert t new_id now b) as [[row0 t0]|]; [|discriminate].
    simpl in H. inversion H; subst. split; [eauto|reflexivity].
  - destruct (insert t new_id now b) as [[row0 t0]|]; [|discriminate].
    simpl in H. inversion H; subst. split; [discriminate|reflexivity].
Qed.

Lemma insert_Some (t t' : Tables) (new_id now : Z) (b : InteractionCreate)
      (row : Interaction) :
  insert t new_id now b = Some (row, t') ->
  row = mkInteraction new_id (ic_user_id b) (ic_product_id b)
                      (ic_interaction_type b) (ic_rating b) now
  /\ t' = mkTables (mkDatabase (products (store t))
                               (interactions (store t) ++ [row]))
                   (users t)
  /\ ~ In new_id (map i_id (interactions (store t)))
  /\ In (ic_user_id b) (users t)
  /\ In (ic_product_id b) (map p_id (products (store t)))
  /\ (forall r, ic_rating b = Some r -> 1 <= r <= 5).
Proof.
  unfold insert. intros H.
  destruct (negb (mem new_id (map i_id (interactions (store t)))))
    eqn:Hid; [|discriminate].
  destruct (mem (ic_user_id b) (users t)) eqn:Hu; [|discriminate].
  destruct (mem (ic_product_id b) (map p_id (products (store t))))
    eqn:Hp; [|discriminate].
  simpl in H.
  assert (Hr : forall r, ic_rating b = Some r -> 1 <= r <= 5).
  { intros r Hr. rewrite Hr in H.
    destruct ((1 <=? r) && (r <=? 5)) eqn:E; [|discriminate].
    apply andb_true_iff in E. destruct E as [E1 E2].
    apply Z.leb_le in E1, E2. lia. }
  assert (Hrow : row = mkInteraction new_id (ic_user_id b) (ic_product_id b)
                         (ic_interaction_type b) (ic_rating b) now
                 /\ t' = mkTables
                           (mkDatabase (products (store t))
                              (interactions (store t) ++ [row]))
                           (users t)).
  { destruct (ic_rating b) as [r|];
      [destruct ((1 <=? r) && (r <=? 5)); [|discriminate]|];
      inversion H; subst; split; reflexivity. }
  destruct Hrow as [Hrow Ht]. split; [assumption|]. split; [assumption|].
  apply negb_true_iff, mem_false in Hid. apply mem_In in Hu, Hp.
  repeat split; try assumption; now apply Hr.
Qed.

Lemma sort_desc_Z_sorted {A : Type} (key : A -> Z) (l : list A) :
  StronglySorted (fun a b => key b <= key a) (sort_desc Z.ltb key l).
Proof.
  assert (H : StronglySorted (ge_key Z.ltb key) (sort_desc Z.ltb key l)).
  { apply (@sort_desc_sorted _ _ Z.ltb key (fun _ => True)).
    - intros a b _ _. rewrite Z.ltb_lt, Z.ltb_ge. lia.
    - intros a b c _ _ _. rewrite !Z.ltb_ge. lia.
    - apply Forall_forall. auto. }
  induction H as [|a l' Hl IH Ha]; constructor; [assumption|].
  rewrite Forall_forall in *. intros b Hb. specialize (Ha b Hb).
  unfold ge_key in Ha. now apply Z.ltb_ge in Ha.
Qed.

Lemma joined_In (db : Database) (u : Z) (r : InteractionRow) :
  In r (joined db u)
  <-> exists i p,
        In i (interactions db) /\ In p (products db)
        /\ i_user_id i = u /\ i_product_id i = p_id p
        /\ r = mkInteractionRow (i_id i) (i_user_id i) (i_product_id i)
                 (i_interaction_type i) (i_rating i) (i_timestamp i)
                 (p_title p) (p_category p) (Fin (p_price p)).
Proof.
  unfold joined. rewrite in_flat_map. split.
  - intros [i [Hi Hr]].
    destruct (Z.eqb_spec (i_user_id i) u) as [Hu|]; [|destruct Hr].
    apply in_map_iff in Hr. destruct Hr as [p [<- Hp]].
    apply filter_In in Hp. destruct Hp as [Hp Hid].
    apply Z.eqb_eq in Hid. exists i, p. auto.
  - intros [i [p [Hi [Hp [Hu [Hid ->]]]]]]. exists i.
    split; [assumption|]. rewrite Hu, Z.eqb_refl.
    apply in_map_iff. exists p. split; [reflexivity|].
    apply filter_In. split; [assumption|]. now apply Z.eqb_eq.
Qed.

End InteractionsFacts.

(* ================================================================= *)
(** * The claims *)

Module Claims.

Import PyFacts SortFacts FloatFacts MatrixFacts Specs Samples Concrete.
Import Collaborative CollaborativeFacts CollaborativeOrder SimilarityFacts.
Import Hybrid HybridFacts ContentFacts WalkFacts SimilarFacts UserFacts.
Import MoreSamples HybridMore RecentFacts.
Local Open Scope Z_scope.

(* ----------------------------------------------------------------- *)
(** *** C1 *)

(** C1, as amended.  Whatever the similarity function, the threshold and
    [n]: in the list [get_recommendations(u, n, min_similarity)] returns,
    every entry that carries a [recommendation_score] (every entry computed
    from the neighbours; the popularity fallback leaves the score at
    [None]) names a product whose cell in [u]'s row of the user-item matrix
    is not positive. *)
Theorem get_recommendations_scored_not_own
        (cosine : list Z -> list Z -> float) (u : Z) (n : nat)
        (min_similarity : float)
        (self self' : Collaborative.CF) (recs : list Rec) :
  Collaborative.get_recommendations cosine u n min_similarity self
  = (Some recs, self') ->
  exists m, Collaborative.user_item_matrix self' = Some m
    /\ forall r, In r recs -> recommendation_score r <> None ->
         forall c, at_ m u (product_id r) = Some c -> c <= 0.
Proof.
  unfold get_recommendations. intros H.
  run_bind H t s1 He. destruct t.
  apply ensure_matrices_built in He. destruct He as [m [sim [Hm [Hs _]]]].
  run_get H. run_lift H m' Hm'. rewrite Hm in Hm'. inversion Hm'; subst m'.
  assert (Hpop : forall s, _get_popular_products n s1 = (Some recs, s) ->
    exists m, user_item_matrix s = Some m
    /\ forall r, In r recs -> recommendation_score r <> None ->
         forall c, at_ m u (product_id r) = Some c -> c <= 0).
  { intros s Hp. apply popular_unscored in Hp. destruct Hp as [-> Hnone].
    exists m. split; [assumption|]. intros r Hr Hsc. now apply Hnone in Hr. }
  destruct (negb (mem u (index m))); [now apply Hpop|].
  run_bind H su s2 Hsu.
  pose proof (get_similar_users_built cosine u 50 s1 Hs) as Hst.
  rewrite Hsu in Hst. simpl in Hst. subst s2.
  destruct (filter _ su) as [|e su'] eqn:Hf; [now apply Hpop|].
  run_lift H row Hrow. run_lift H ps Hacc.
  destruct (firstn n (sorted_desc snd ps)) as [|sp0 sps] eqn:Hsp;
    [now apply Hpop|].
  run_lift H rs Hrs. apply MethodFacts.ret_Some in H. destruct H as [-> ->].
  exists m. split; [assumption|].
  intros r Hr _ c Hc.
  destruct (Z_lt_le_dec 0 c) as [Hpos|]; [exfalso|assumption].
  apply sort_desc_In in Hr.
  pose proof (fetched_recs_keys _ _ Hrs r Hr) as Hk.
  assert (Hk' : In (product_id r) (dict_keys ps)).
  { unfold dict_keys in *. apply in_map_iff in Hk.
    destruct Hk as [x [Hx Hin]]. apply in_map_iff. exists x.
    split; [assumption|]. rewrite <- Hsp in Hin.
    apply In_firstn in Hin. now apply sort_desc_In in Hin. }
  destruct (accumulate_keys _ _ _ _ _ Hacc Hk') as [[]|Hnot].
  unfold at_ in Hc. rewrite Hrow in Hc.
  rewrite (positive_row_mem _ _ Hc Hpos) in Hnot. discriminate.
Qed.

(** The amended C1 applies to user 1 of [db_three], who is recommended the
    products of the two neighbours. *)
Lemma get_recommendations_scored_not_own_witness :
  exists recs self',
    get_recommendations cosine_binary64 1 10 tenth (init db_three)
    = (Some recs, self')
    /\ map product_id recs = [3; 2]
    /\ exists m, user_item_matrix self' = Some m
         /\ forall r, In r recs -> recommendation_score r <> None ->
              forall c, at_ m 1 (product_id r) = Some c -> c <= 0.
Proof.
  eexists. eexists. split; [vm_compute; reflexivity|].
  split; [reflexivity|].
  apply (get_recommendations_scored_not_own cosine_binary64 1 10 tenth
           (init db_three)).
  vm_compute. reflexivity.
Defined.

(** C1 as stated fails.  User 1 of [db_single] is in the matrix and has no
    neighbour, so [get_recommendations] answers with the popularity
    fallback, which contains product 1: the product the user viewed, with
    the positive score 1 in the user's own row. *)
Lemma get_recommendations_fallback_returns_own_product :
  exists recs self' m r,
    get_recommendations cosine_binary64 1 10 tenth (init db_single)
    = (Some recs, self')
    /\ user_item_matrix self' = Some m
    /\ In 1 (index m)
    /\ In r recs
    /\ at_ m 1 (product_id r) = Some 1
    /\ 0 < 1.
Proof.
  eexists. eexists. eexists. eexists.
  split; [vm_compute; reflexivity|].
  split; [reflexivity|].
  split; [now left|].
  split; [now left|].
  split; [reflexivity | lia].
Qed.

(* ----------------------------------------------------------------- *)
(** *** C2 *)

(** C2, as amended.  Whatever the two lists and the arithmetic of floats
    (exact or binary64): a product id has an entry in [hybrid_scores]
    exactly when it occurs in one of the lists; the entry holds a record of
    that product, and its score is 0.6 times the collaborative score plus
    0.4 times the content score when the id occurs in both lists, and the
    weighted score of its one list alone otherwise, a score that is missing
    counting as 0.  [_combine_recommendations] returns at most [limit]
    records, those of the first [limit] entries in an order of all
    entries.  Provided no hybrid score is [nan], that order is descending
    by score, and so is the list returned: no record stands before one
    whose product has a greater hybrid score.
    ([HybridFacts.weighted_score_exact] gives the score on the rationals as
    the one formula with 0 for the list that does not have the product;
    [HybridFacts.hybrid_scores_finite] shows that finite scores in the two
    lists leave no [nan] there.) *)
Theorem combine_recommendations_weighted_sorted
        (A : Arithmetic) (content_recs collab_recs : list Rec) (limit : nat) :
  let H := @hybrid_scores A content_recs collab_recs in
  let out := @_combine_recommendations A content_recs collab_recs limit in
  let hybrid_score := @weighted_score A collab_recs content_recs in
  (forall pid,
      (exists h, dict_get H pid = Some h)
      <-> In pid (map product_id collab_recs)
          \/ In pid (map product_id content_recs))
  /\ (forall pid h,
         dict_get H pid = Some h ->
         hybrid_score pid = Some (score h) /\ product_id (data h) = pid)
  /\ (List.length out <= limit)%nat
  /\ exists all,
       Permutation all H
       /\ out = map (fun item => data (snd item)) (firstn limit all)
       /\ ((forall pid s, hybrid_score pid = Some s -> not_nan s) ->
           StronglySorted
             (fun a b => ltb (score (snd a)) (score (snd b)) = false) all
           /\ StronglySorted
                (fun a b => forall sa sb,
                     hybrid_score (product_id a) = Some sa ->
                     hybrid_score (product_id b) = Some sb ->
                     ltb sa sb = false) out).
Proof.
  intros H out hybrid_score. split; [|split; [|split]].
  - intros pid. unfold H. rewrite hybrid_scores_get.
    rewrite <- !lookup_last_Some.
    destruct (lookup_last content_recs pid) as [rs|],
             (lookup_last collab_recs pid) as [rc|]; split;
      try (intros _; eauto; fail).
    + intros [h Hh]. discriminate.
    + intros [[r Hr]|[r Hr]]; discriminate.
  - intros pid h Hh. apply dict_get_In in Hh.
    now apply hybrid_scores_entry in Hh.
  - unfold out, _combine_recommendations, sorted_recs.
    rewrite length_map. apply firstn_le_length.
  - exists (sorted_desc (fun e => score (snd e)) H). split; [|split].
    + apply sort_desc_perm.
    + reflexivity.
    + intros Hnan.
      assert (Hs : StronglySorted
                     (fun a b => ltb (score (snd a)) (score (snd b)) = false)
                     (sorted_desc (fun e => score (snd e)) H)).
      { apply (sorted_desc_ordered (fun e : Z * Scored => score (snd e))).
        apply Forall_forall. intros [pid h] Hin.
        apply hybrid_scores_entry in Hin. destruct Hin as [_ [Hw _]].
        exact (Hnan pid _ Hw). }
      split; [exact Hs|].
      unfold out, _combine_recommendations, sorted_recs. fold H.
      apply (@StronglySorted_map_In _ _
               (fun a b => ltb (score (snd a)) (score (snd b)) = false)).
      * intros [k1 h1] [k2 h2] H1 H2 Hlt sa sb Ha Hb.
        apply In_firstn, sort_desc_In, hybrid_scores_entry in H1.
        apply In_firstn, sort_desc_In, hybrid_scores_entry in H2.
        destruct H1 as [_ [Hw1 Hp1]]. destruct H2 as [_ [Hw2 Hp2]].
        cbn [snd] in Ha, Hb, Hlt. rewrite Hp1 in Ha. rewrite Hp2 in Hb.
        unfold hybrid_score in Ha, Hb. rewrite Hw1 in Ha. rewrite Hw2 in Hb.
        injection Ha as <-. injection Hb as <-. exact Hlt.
      * now apply StronglySorted_firstn.
Qed.

(** The amended C2 applies, in binary64, to the sample content list and a
    collaborative list that ends with a record of the popularity fallback.
    Product 3 (collaborative only, [2.0 * 0.6 = 1.2]) comes before
    product 2 (both lists, [1.0 * 0.6 + 0.5 * 0.4 = 0.8]); product 1
    (content only, [0.9 * 0.4 = 0.36000000000000004]) and product 4
    (collaborative without a score, [0 * 0.6 = 0]) are cut by the limit. *)
Lemma combine_recommendations_weighted_sorted_witness :
  let H := @hybrid_scores binary64 content_sample collab_with_fallback in
  let out := @_combine_recommendations binary64 content_sample
               collab_with_fallback 2 in
  let hybrid_score :=
    @weighted_score binary64 collab_with_fallback content_sample in
  (forall pid s, hybrid_score pid = Some s -> not_nan s)
  /\ map product_id out = [3; 2]
  /\ map (fun pid => option_map show (hybrid_score pid)) [1; 2; 3; 4; 5]
     = [Some (Some (6485183463413515 # 18014398509481984));
        Some (Some (3602879701896397 # 4503599627370496));
        Some (Some (5404319552844595 # 4503599627370496));
        Some (Some 0%Q);
        None]
  /\ (forall pid h,
         dict_get H pid = Some h ->
         hybrid_score pid = Some (score h) /\ product_id (data h) = pid)
  /\ (exists all,
         Permutation all H
         /\ out = map (fun item => data (snd item)) (firstn 2 all)
         /\ StronglySorted
              (fun a b => ltb (score (snd a)) (score (snd b)) = false) all)
  /\ StronglySorted
       (fun a b => forall sa sb,
            hybrid_score (product_id a) = Some sa ->
            hybrid_score (product_id b) = Some sb ->
            ltb sa sb = false) out.
Proof.
  intros H out hybrid_score.
  destruct (combine_recommendations_weighted_sorted binary64 content_sample
              collab_with_fallback 2)
    as [Hkeys [Hw [_ [all [Hperm [Hout Hsorted]]]]]].
  assert (Hnan : forall pid s, hybrid_score pid = Some s -> not_nan s).
  { intros pid s Hs.
    assert (Hin : In pid (map product_id collab_with_fallback)
                  \/ In pid (map product_id content_sample)).
    { apply Hkeys. unfold hybrid_score, weighted_score in Hs.
      rewrite hybrid_scores_get.
      destruct (lookup_last collab_with_fallback pid),
               (lookup_last content_sample pid); eauto; discriminate. }
    simpl in Hin.
    destruct Hin as [[<-|[<-|[<-|[]]]]|[<-|[<-|[]]]];
      vm_compute in Hs; injection Hs as <-; reflexivity. }
  split; [exact Hnan|].
  split; [vm_compute; reflexivity|].
  split; [vm_compute; reflexivity|].
  split; [exact Hw|].
  destruct (Hsorted Hnan) as [Hall Hlist].
  split; [|exact Hlist].
  exists all. split; [exact Hperm|]. split; [exact Hout|]. exact Hall.
Defined.

(** C2 as stated fails when a score is [nan], which is what the content
    recommender returns over a catalog where everything is free.  Of the
    content records 1 (score 0.5), 2 ([nan]) and 3 (score 0.9) the
    combiner makes the hybrid scores 0.2, [nan] and 0.36.  Neither
    [nan < 0.36] nor [0.2 < nan] holds, so [sorted] finds the three in
    order already and leaves them in place: product 1 is returned before
    product 3, whose hybrid score is greater.  It is so in binary64 and in
    exact arithmetic. *)
Lemma combine_recommendations_nan_not_descending :
  (exists h1 h3,
      map product_id
          (@_combine_recommendations binary64 content_with_nan [] 10)
      = [1; 2; 3]
      /\ dict_get (@hybrid_scores binary64 content_with_nan []) 1 = Some h1
      /\ dict_get (@hybrid_scores binary64 content_with_nan []) 3 = Some h3
      /\ ltb (score h1) (score h3) = true)
  /\ (exists h1 h3,
        map product_id
            (@_combine_recommendations exact content_with_nan [] 10)
        = [1; 2; 3]
        /\ dict_get (@hybrid_scores exact content_with_nan []) 1 = Some h1
        /\ dict_get (@hybrid_scores exact content_with_nan []) 3 = Some h3
        /\ ltb (score h1) (score h3) = true).
Proof.
  split; eexists; eexists.
  - split; [vm_compute; reflexivity|].
    split; [vm_compute; reflexivity|].
    split; [vm_compute; reflexivity|]. vm_compute. reflexivity.
  - split; [vm_compute; reflexivity|].
    split; [vm_compute; reflexivity|].
    split; [vm_compute; reflexivity|]. vm_compute. reflexivity.
Qed.

(* ----------------------------------------------------------------- *)
(** *** C3 *)

(** C3.  On a loaded recommender and for a reference index [product_idx] of
    the catalog, [calculate_similarity] returns one score per product, and
    the score of the product at index [i] is
    [0.6 * text + 0.3 * category + 0.1 * price], where [text] is the cosine
    of the two TF-IDF rows, [price] the price similarity, and [category] is
    1 when the two categories are identical and 0 otherwise. *)
Theorem calculate_similarity_blend
        (vocabulary : Type) (cosine : list Qc -> list Qc -> Qc)
        (self : ContentBased.CB vocabulary) (df : list Product)
        (tfidf : list (list Qc)) (product_idx : nat) (ref : Product) :
  loaded self df tfidf ->
  nth_error df product_idx = Some ref ->
  exists ref_row scores,
    nth_error tfidf product_idx = Some ref_row
    /\ ContentBased.calculate_similarity cosine product_idx self
       = (Some scores, self)
    /\ List.length scores = List.length df
    /\ forall i p row,
         nth_error df i = Some p -> nth_error tfidf i = Some row ->
         exists category,
           nth_error scores i
           = Some (blend (Fin (cosine ref_row row)) category
                         (ContentBased.price_sim (ContentBased.price_max df)
                                                 ref p))
           /\ (p_category p = p_category ref -> category = one)
           /\ (p_category p <> p_category ref -> category = zero).
Proof.
  intros Hl Href.
  assert (Hlen : List.length tfidf = List.length df) by apply Hl.
  destruct (nth_error tfidf product_idx) as [ref_row|] eqn:Hrow.
  2:{ apply nth_error_None in Hrow.
      assert (nth_error df product_idx <> None) by congruence.
      apply nth_error_Some in H. lia. }
  exists ref_row. eexists. split; [reflexivity|].
  split; [exact (@calculate_similarity_run _ cosine _ _ _ _ _ _ Hl Href Hrow)|].
  split; [now rewrite length_map, length_combine_same|].
  intros i p row Hp Hr. exists (ContentBased.category_sim ref p).
  split.
  - rewrite nth_error_map, (nth_error_combine _ _ _ Hr Hp). reflexivity.
  - destruct (category_sim_binary ref p) as [[H1 H2]|[H1 H2]]; split;
      intros; congruence.
Qed.

(** C3 applies to the loaded sample catalog, with product 1 as reference:
    product 2 (same text and category, price 20 against 10 of at most 40)
    scores [0.6 + 0.3 + 0.1 * 0.75]. *)
Lemma calculate_similarity_blend_witness :
  loaded (cb_loaded db_catalog) (products db_catalog) (bag_tfidf db_catalog)
  /\ nth_error (products db_catalog) 0 = Some (book 1 10)
  /\ option_map (map show)
       (fst (ContentBased.calculate_similarity Bag.cosine 0
               (cb_loaded db_catalog)))
     = Some [Some 1%Q; Some (39 # 40); Some (1 # 40)]
  /\ exists ref_row scores,
    nth_error (bag_tfidf db_catalog) 0 = Some ref_row
    /\ ContentBased.calculate_similarity Bag.cosine 0 (cb_loaded db_catalog)
       = (Some scores, cb_loaded db_catalog)
    /\ List.length scores = List.length (products db_catalog)
    /\ forall i p row,
         nth_error (products db_catalog) i = Some p ->
         nth_error (bag_tfidf db_catalog) i = Some row ->
         exists category,
           nth_error scores i
           = Some (blend (Fin (Bag.cosine ref_row row)) category
                         (ContentBased.price_sim
                            (ContentBased.price_max (products db_catalog))
                            (book 1 10) p))
           /\ (p_category p = p_category (book 1 10) -> category = one)
           /\ (p_category p <> p_category (book 1 10) -> category = zero).
Proof.
  assert (Hl : loaded (cb_loaded db_catalog) (products db_catalog)
                      (bag_tfidf db_catalog)).
  { split; [|split; reflexivity]. eexists. split; reflexivity. }
  split; [exact Hl|]. split; [reflexivity|].
  split; [vm_compute; reflexivity|].
  exact (@calculate_similarity_blend _ Bag.cosine _ _ _ 0%nat _ Hl eq_refl).
Defined.

(* ----------------------------------------------------------------- *)
(** *** C4 *)

(** C4.  A purchase counts 5, a rating its value, a view 1, and any other
    interaction has no score.  Two stores whose interactions give every
    (user, product) pair the same scores, as a store and a copy with its
    interactions in another order and recorded again do
    ([MatrixFacts.same_events_same_scores]), get the same matrix from
    [build_user_item_matrix].  Its rows are the users and its columns the
    products that have a score, and each cell is the greatest score of the
    pair's interactions, or 0 when the pair has none. *)
Theorem build_user_item_matrix_max_invariant (self self' : CF) :
  same_scores (interactions (engine self)) (interactions (engine self')) ->
  exists m,
    fst (build_user_item_matrix self) = Some m
    /\ fst (build_user_item_matrix self') = Some m
    /\ (forall u, In u (index m)
                  <-> exists p s, scored_as (interactions (engine self)) u p s)
    /\ (forall p, In p (columns m)
                  <-> exists u s, scored_as (interactions (engine self)) u p s)
    /\ forall u p, In u (index m) -> In p (columns m) ->
         exists c, at_ m u p = Some c
                   /\ max_score (interactions (engine self)) u p c
                   /\ max_score (interactions (engine self')) u p c.
Proof.
  intros H. exists (pivot_table (read_scores (engine self))).
  split; [reflexivity|]. split; [|split; [|split]].
  - simpl. f_equal. symmetry. now apply pivot_table_same_scores.
  - apply pivot_table_index_scored.
  - apply pivot_table_columns_scored.
  - intros u p Hu Hp. unfold pivot_table in *. simpl in Hu, Hp.
    rewrite at_tabulate by assumption.
    eexists. split; [reflexivity|].
    split; [apply cell_value_max_score|].
    destruct (cell_value_max_score (engine self) u p) as [[Hc Hmax]|[Hno ->]].
    + left. split; [now apply H|]. intros s Hs. apply Hmax. now apply H.
    + right. split; [|reflexivity]. intros s Hs. apply (Hno s). now apply H.
Qed.

(** C4 applies to [db_rated] and its reshuffled copy with three
    interactions recorded twice: both give the matrix [[4 0] [3 5]].
    User 1 viewed product 1 and rated it 4, which gives the cell 4; the
    wishlist entry for product 2 has no score and leaves the cell 0; user 2
    rated product 1 with 3 and purchased product 2. *)
Lemma build_user_item_matrix_max_invariant_witness :
  same_scores (interactions db_rated) (interactions db_rated_shuffled)
  /\ fst (build_user_item_matrix (init db_rated_shuffled))
     = Some (mkDataFrame [1; 2] [1; 2] [[4; 0]; [3; 5]])
  /\ exists m,
    fst (build_user_item_matrix (init db_rated)) = Some m
    /\ fst (build_user_item_matrix (init db_rated_shuffled)) = Some m
    /\ (forall u, In u (index m)
                  <-> exists p s, scored_as (interactions db_rated) u p s)
    /\ (forall p, In p (columns m)
                  <-> exists u s, scored_as (interactions db_rated) u p s)
    /\ forall u p, In u (index m) -> In p (columns m) ->
         exists c, at_ m u p = Some c
                   /\ max_score (interactions db_rated) u p c
                   /\ max_score (interactions db_rated_shuffled) u p c.
Proof.
  assert (H : same_scores (interactions db_rated)
                          (interactions db_rated_shuffled)).
  { apply same_events_same_scores. intros e. simpl. intuition. }
  split; [exact H|]. split; [reflexivity|].
  exact (build_user_item_matrix_max_invariant (init db_rated)
           (init db_rated_shuffled) H).
Defined.

(* ----------------------------------------------------------------- *)
(** *** C5 *)




(* ----------------------------------------------------------------- *)
(** *** C6 *)

(** C6, at two failing inputs.  In [db_pair] users 1 and 2 have the same
    row, so every similarity is 1.0: the sorted column of user 2 starts with
    user 1, the slice [[1:n+1]] drops that entry, and
    [get_similar_users(2, 10)] returns user 2 itself.  In [db_view_and_rate]
    nothing ties: the rows are [[1; 1]] and [[3; 3]], the binary64 similarity
    of user 1 to itself is [0.9999999999999998] and to user 2 it is [1.0],
    so user 2 comes first, is dropped, and [get_similar_users(1, 10)]
    returns user 1 itself.
    ([CollaborativeOrder.get_similar_users_ordered] proves the other half of
    the claim, the descending order; [CollaborativeOrder.drop_first_of_a_tie]
    shows that no tie-break avoids the first failure for both users.) *)
Theorem get_similar_users_returns_self :
  (exists l self',
      get_similar_users cosine_binary64 2 10 (init db_pair) = (Some l, self')
      /\ map fst l = [2]
      /\ map (fun e => show (snd e)) l = [Some 1%Q])
  /\ (exists l self',
        get_similar_users cosine_binary64 1 10 (init db_view_and_rate)
        = (Some l, self')
        /\ map fst l = [1]
        /\ map (fun e => show (snd e)) l
           = [Some (4503599627370495 # 4503599627370496)]).
Proof.
  split.
  - eexists. eexists. split; [vm_compute; reflexivity|].
    split; reflexivity.
  - eexists. eexists. split; [vm_compute; reflexivity|].
    split; reflexivity.
Qed.

(* ----------------------------------------------------------------- *)
(** *** C7 *)

(** C7, as amended.  On a loaded recommender whose catalog has distinct ids
    and a greatest price other than 0, for a product id of the catalog, a
    threshold that is a number and [n >= 1]: [get_similar_products] returns
    a list that does not contain the queried id, in which every score is at
    least [min_score], the scores do not increase along the list, and
    there are at most [n] entries. *)
Theorem get_similar_products_sound
        (vocabulary : Type) (fit : list string -> option vocabulary)
        (transform : vocabulary -> string -> list Qc)
        (cosine : list Qc -> list Qc -> Qc)
        (self : ContentBased.CB vocabulary) (df : list Product)
        (tfidf : list (list Qc)) (M : Qc)
        (pid : Z) (n : nat) (min_score : float) :
  loaded self df tfidf ->
  unique_ids df ->
  max_price df M -> M <> 0%Qc ->
  In pid (map p_id df) ->
  not_nan min_score ->
  (1 <= n)%nat ->
  exists recs,
    ContentBased.get_similar_products fit transform cosine pid n min_score self
    = (Some recs, self)
    /\ (forall r, In r recs -> product_id r <> pid)
    /\ (forall r, In r recs ->
          exists s, similarity_score r = Some s /\ geb s min_score = true)
    /\ StronglySorted
         (fun r1 r2 => geb (ContentBased.sim_of r1) (ContentBased.sim_of r2)
                       = true) recs
    /\ (List.length recs <= n)%nat.
Proof.
  intros Hl Hu HM Hne Hin Hmin Hn.
  destruct (find_index (fun p => Z.eqb (p_id p) pid) df) as [idx|] eqn:Hf.
  2:{ exfalso. rewrite find_index_None in Hf.
      apply in_map_iff in Hin. destruct Hin as [p [Hp Hin]].
      specialize (Hf p Hin). simpl in Hf. rewrite Hp, Z.eqb_refl in Hf.
      discriminate. }
  destruct (@get_similar_products_found _ fit transform cosine self df tfidf
              pid n min_score idx Hl Hf)
    as [ref [ref_row [Href [Hid [Hrow Hrun]]]]].
  assert (Hlen : List.length tfidf = List.length df) by apply Hl.
  set (scores := scores_of cosine df tfidf ref ref_row) in *.
  assert (Hslen : List.length scores = List.length df)
    by now apply scores_of_length.
  assert (Hfin : Forall (fun s => is_finite s = true) scores)
    by exact (@scores_of_finite cosine df tfidf ref ref_row M HM Hne).
  destruct (@walk_spec df scores idx n min_score (rev (argsort scores)) [])
    as [k [new [Hw [Hf2 [Hlt Hcount]]]]].
  { apply Forall_forall. intros i Hi. apply in_rev, argsort_In in Hi. lia. }
  simpl in Hw, Hcount. rewrite Hw in Hrun.
  set (taken := filter (fun i => negb (Nat.eqb i idx))
                       (firstn k (rev (argsort scores)))) in *.
  assert (Hentry : forall r, In r new ->
            exists i p s, In i taken /\ nth_error df i = Some p
                          /\ nth_error scores i = Some s
                          /\ r = ContentBased.entry p s
                          /\ is_finite s = true).
  { intros r Hr.
    destruct (@Forall2_In_left _ _ _ new taken r Hf2 Hr)
      as [i [Hi [p [s [Hp [Hs He]]]]]].
    exists i, p, s. repeat split; try assumption.
    rewrite Forall_forall in Hfin. apply Hfin.
    eapply nth_error_In; eassumption. }
  exists new. split; [exact Hrun|]. split; [|split; [|split]].
  - intros r Hr Heq.
    destruct (Hentry r Hr) as [i [p [s [Hi [Hp [Hs [He _]]]]]]].
    subst r. simpl in Heq.
    apply filter_In in Hi. destruct Hi as [_ Hi].
    apply negb_true_iff, Nat.eqb_neq in Hi. apply Hi.
    unfold unique_ids in Hu. rewrite NoDup_nth_error in Hu.
    apply Hu.
    + rewrite length_map. apply nth_error_Some. congruence.
    + rewrite !nth_error_map, Hp, Href. simpl. congruence.
  - intros r Hr.
    destruct (Hentry r Hr) as [i [p [s [Hi [Hp [Hs [He Hfs]]]]]]].
    exists s. split; [now subst r|].
    rewrite Forall_forall in Hlt. specialize (Hlt r Hr).
    subst r. unfold ContentBased.sim_of in Hlt. simpl in Hlt.
    rewrite geb_not_ltb; [now rewrite Hlt | now apply finite_not_nan
                          | assumption].
  - apply (@Forall2_sorted _ _ (entry_of df scores)
             (fun i j => sort_ltb (nth i scores NaN) (nth j scores NaN)
                         = false) _ new taken); [|exact Hf2|].
    + intros r1 i1 r2 i2 [p1 [s1 [Hp1 [Hs1 He1]]]]
             [p2 [s2 [Hp2 [Hs2 He2]]]] Hord.
      subst r1 r2. unfold ContentBased.sim_of. simpl.
      rewrite (nth_error_nth _ _ NaN Hs1), (nth_error_nth _ _ NaN Hs2)
        in Hord.
      rewrite Forall_forall in Hfin.
      assert (F1 : is_finite s1 = true)
        by (apply Hfin; eapply nth_error_In; eassumption).
      assert (F2 : is_finite s2 = true)
        by (apply Hfin; eapply nth_error_In; eassumption).
      unfold sort_ltb in Hord. apply orb_false_iff in Hord.
      destruct Hord as [Hord _].
      rewrite geb_not_ltb by now apply finite_not_nan.
      now rewrite Hord.
    + unfold taken. apply StronglySorted_filter, StronglySorted_firstn,
        rev_argsort_sorted.
  - apply Hcount. lia.
Qed.

(** The amended C7 applies to the loaded sample catalog and product 1:
    product 2 is returned with score 0.975, product 3 (0.025) is below the
    threshold. *)
Lemma get_similar_products_sound_witness :
  loaded (cb_loaded db_catalog) (products db_catalog) (bag_tfidf db_catalog)
  /\ unique_ids (products db_catalog)
  /\ max_price (products db_catalog) (Q2Qc 40)
  /\ Q2Qc 40 <> 0%Qc
  /\ In 1 (map p_id (products db_catalog))
  /\ not_nan tenth
  /\ (1 <= 10)%nat
  /\ exists recs,
    ContentBased.get_similar_products Bag.fit Bag.transform Bag.cosine
      1 10 tenth (cb_loaded db_catalog)
    = (Some recs, cb_loaded db_catalog)
    /\ (forall r, In r recs -> product_id r <> 1)
    /\ (forall r, In r recs ->
          exists s, similarity_score r = Some s /\ geb s tenth = true)
    /\ StronglySorted
         (fun r1 r2 => geb (ContentBased.sim_of r1) (ContentBased.sim_of r2)
                       = true) recs
    /\ (List.length recs <= 10)%nat.
Proof.
  assert (Hl : loaded (cb_loaded db_catalog) (products db_catalog)
                      (bag_tfidf db_catalog)).
  { split; [|split; reflexivity]. eexists. split; reflexivity. }
  assert (Hu : unique_ids (products db_catalog)).
  { unfold unique_ids. simpl. repeat constructor; simpl; intuition lia. }
  assert (HM : max_price (products db_catalog) (Q2Qc 40)).
  { split; [simpl; auto|].
    intros q [<-|[<-|[<-|[]]]]; apply Q2Qc_inject_Z_le; lia. }
  assert (Hne : Q2Qc 40 <> 0%Qc).
  { apply not_eq_sym, Qclt_not_eq. reflexivity. }
  assert (Hin : In 1 (map p_id (products db_catalog))) by (simpl; auto).
  assert (Hmin : not_nan tenth) by reflexivity.
  assert (Hn : (1 <= 10)%nat) by lia.
  repeat (split; [assumption|]).
  exact (@get_similar_products_sound _ Bag.fit Bag.transform Bag.cosine
           _ _ _ _ 1 10%nat tenth Hl Hu HM Hne Hin Hmin Hn).
Defined.

(** C7 as stated fails twice.  With [n = 0] the loop appends an entry before
    it compares the length with [n]: one entry is returned, not at most 0.
    In the catalog where every price is 0 the blended scores are [nan]
    (the unguarded [0 / 0]), [nan < min_score] is false, and product 2 is
    returned with the score [nan], which is not at least [min_score]. *)
Lemma get_similar_products_zero_n_and_free_catalog :
  (exists recs,
      fst (ContentBased.get_similar_products Bag.fit Bag.transform Bag.cosine
             1 0 tenth (cb_loaded db_catalog)) = Some recs
      /\ map product_id recs = [2]
      /\ ~ (List.length recs <= 0)%nat)
  /\ (exists recs r,
        fst (ContentBased.get_similar_products Bag.fit Bag.transform
               Bag.cosine 1 10 tenth (cb_loaded db_free)) = Some recs
        /\ In r recs
        /\ product_id r = 2
        /\ similarity_score r = Some NaN
        /\ geb NaN tenth = false).
Proof.
  split.
  - eexists. split; [vm_compute; reflexivity|].
    split; [reflexivity | simpl; lia].
  - eexists. eexists. split; [vm_compute; reflexivity|].
    split; [now left|]. repeat split.
Qed.

(* ----------------------------------------------------------------- *)
(** *** C8 *)

(** C8, as amended.  Take a product id that is not in the catalog.  On a
    recommender that holds a catalog and a TF-IDF matrix,
    [get_similar_products] raises nothing, returns the empty list and
    leaves the recommender, catalog included, as it was.  On a recommender
    that misses one of the two, the call first reads the catalog of the
    store and builds the matrix; if the vectorizer accepts the texts of
    that catalog, the call raises nothing, returns the empty list and
    leaves the recommender with the store's catalog, its texts, the matrix
    and the fitted vectorizer. *)
Theorem get_similar_products_unknown_id
        (vocabulary : Type) (fit : list string -> option vocabulary)
        (transform : vocabulary -> string -> list Qc)
        (cosine : list Qc -> list Qc -> Qc)
        (self : ContentBased.CB vocabulary)
        (pid : Z) (n : nat) (min_score : float) :
  (forall (f : ContentBased.ProductsFrame) (tfidf : list (list Qc)),
      ContentBased.products_df self = Some f ->
      ContentBased.tfidf_matrix self = Some tfidf ->
      ~ In pid (map p_id (ContentBased.rows f)) ->
      ContentBased.get_similar_products fit transform cosine pid n min_score
                                        self
      = (Some [], self))
  /\ (forall v : vocabulary,
        ContentBased.products_df self = None
        \/ ContentBased.tfidf_matrix self = None ->
        let catalog := products (ContentBased.engine self) in
        let texts := map ContentBased.combine_features catalog in
        fit texts = Some v ->
        ~ In pid (map p_id catalog) ->
        ContentBased.get_similar_products fit transform cosine pid n
                                          min_score self
        = (Some [],
           ContentBased.mkCB
             (ContentBased.engine self)
             (Some (ContentBased.mkFrame catalog (Some texts)))
             (Some (map (transform v) texts))
             (Some (ContentBased.Fitted v)))).
Proof.
  split.
  - intros f tfidf Hdf Htf Hnot.
    apply (@get_similar_products_unknown _ fit transform cosine self f tfidf);
      try assumption.
    apply find_index_None. intros p Hp.
    destruct (Z.eqb_spec (p_id p) pid) as [E|]; [|reflexivity].
    exfalso. apply Hnot. rewrite <- E. now apply in_map.
  - intros v Hmiss catalog texts Hfit Hnot.
    now apply get_similar_products_unknown_reload.
Qed.

(** The amended C8 applies to product id 7 on the sample catalog: on the
    loaded recommender, which stays as it is, and on the new one, which
    comes out loaded. *)
Lemma get_similar_products_unknown_id_witness :
  ~ In 7 (map p_id (products db_catalog))
  /\ ContentBased.get_similar_products Bag.fit Bag.transform Bag.cosine
       7 10 tenth (cb_loaded db_catalog)
     = (Some [], cb_loaded db_catalog)
  /\ ContentBased.get_similar_products Bag.fit Bag.transform Bag.cosine
       7 10 tenth (ContentBased.init Bag.vocabulary db_catalog)
     = (Some [], cb_loaded db_catalog).
Proof.
  assert (Hnot : ~ In 7 (map p_id (products db_catalog))).
  { simpl. intuition lia. }
  split; [exact Hnot|]. split.
  - exact (proj1 (@get_similar_products_unknown_id _ Bag.fit Bag.transform
                    Bag.cosine (cb_loaded db_catalog) 7 10%nat tenth)
                 _ _ eq_refl eq_refl Hnot).
  - exact (proj2 (@get_similar_products_unknown_id _ Bag.fit Bag.transform
                    Bag.cosine (ContentBased.init Bag.vocabulary db_catalog)
                    7 10%nat tenth)
                 _ (or_introl eq_refl) eq_refl Hnot).
Defined.

(** C8 as stated fails on a recommender that has not loaded yet when the
    vectorizer rejects the texts of the catalog, as scikit-learn does for a
    catalog without products: the call raises instead of returning the
    empty list.  So it is for the new recommender over the empty store,
    and for the one that has read the empty catalog and not built the
    matrix. *)
Lemma get_similar_products_unknown_id_raises :
  ~ In 7 (map p_id (products db_empty))
  /\ fst (ContentBased.get_similar_products Bag.fit Bag.transform Bag.cosine
            7 10 tenth (ContentBased.init Bag.vocabulary db_empty))
     = None
  /\ fst (ContentBased.get_similar_products Bag.fit Bag.transform Bag.cosine
            7 10 tenth
            (snd (@ContentBased.load_products Bag.vocabulary
                    (ContentBased.init Bag.vocabulary db_empty))))
     = None.
Proof.
  split; [intros []|]. split; reflexivity.
Qed.

(* ----------------------------------------------------------------- *)
(** *** C9 *)



(* ----------------------------------------------------------------- *)
(** *** C10 *)

(** C10, at the failing input.  User 1 of [db_history] has viewed products
    1 to 11.  The query keeps the ten most recent of them, products 2 to 11,
    and only these are removed from the result: product 1, which the user
    has viewed, is recommended, with the sum of the ten scores it received
    from products 2 to 11.
    ([UserFacts.get_recommendations_for_user_excludes_recent] proves what
    the filter does remove, [UserFacts.merge_adds] the summation,
    [UserFacts.get_recommendations_for_user_ranked] the order and the
    truncation, [UserFacts.get_recommendations_for_user_cold_start] the
    fallback for an empty history.) *)
Theorem get_recommendations_for_user_returns_seen_product :
  exists recs r,
    fst (ContentBased.get_recommendations_for_user
           Bag.fit Bag.transform Bag.cosine 1 10 (cb_loaded db_history))
    = Some recs
    /\ map p_id (recent_products db_history 1)
       = [11; 10; 9; 8; 7; 6; 5; 4; 3; 2]
    /\ In r recs
    /\ product_id r = 1
    /\ In (view 1 1 1 101) (interactions db_history)
    /\ option_map show (similarity_score r) = Some (Some (229 # 24)).
Proof.
  eexists. eexists. split; [vm_compute; reflexivity|].
  split; [vm_compute; reflexivity|].
  split; [right; now left|].
  split; [reflexivity|]. split; [now left|]. reflexivity.
Qed.

End Claims.

(* ================================================================= *)
(** * Further properties of [app/algorithms/collaborative.py] *)

Module CollaborativeExtras.
Import PyFacts SortFacts FloatFacts MatrixFacts Specs Samples Concrete Reading.
Import Collaborative CollaborativeFacts CollaborativeOrder SimilarityFacts.
Import HybridFacts CollaborativeMore StoreFacts MetricsFacts Values.
Local Open Scope Z_scope.

(** X1.  On a fresh recommender [get_similar_users(u, n)] returns at most
    [n] entries; each of them is a user of the user-item matrix together
    with the cosine of that user's matrix row and the row of [u]; and for a
    [u] that is not in the matrix the result is empty. *)
Theorem get_similar_users_cosine_of_rows
        (cosine : list Z -> list Z -> float) (db : Database) (u : Z)
        (n : nat) (l : list (Z * float)) (self' : CF) :
  get_similar_users cosine u n (init db) = (Some l, self') ->
  (List.length l <= n)%nat
  /\ (~ In u (index (pivot_table (read_scores db))) -> l = [])
  /\ forall v s, In (v, s) l ->
       In v (index (pivot_table (read_scores db)))
       /\ s = cosine (matrix_row db v) (matrix_row db u).
Proof.
  intros H. unfold get_similar_users in H. run_get H.
  simpl user_similarity_matrix in H. cbv iota in H.
  run_bind H sim s1 Hs. apply calculate_user_similarity_fresh in Hs.
  cbv zeta in Hs. destruct Hs as [Hsim [_ _]].
  set (m := pivot_table (read_scores db)) in *.
  assert (Hidx : index sim = index m) by (rewrite Hsim; reflexivity).
  rewrite Hidx in H.
  destruct (mem u (index m)) eqn:Hu; simpl negb in H; cbv iota in H.
  - apply mem_In in Hu. run_lift H series Hcol.
    apply MethodFacts.ret_Some in H. destruct H as [-> _].
    rewrite Hsim in Hcol.
    rewrite (col_tabulate (index m) (index m)
               (fun a b => cosine (matrix_row db a) (matrix_row db b)) u Hu)
      in Hcol.
    injection Hcol as <-.
    split; [apply length_slice|]. split; [tauto|].
    intros v s Hin. apply In_skipn, In_firstn in Hin.
    apply (proj1 (sort_values_desc_In _ _)) in Hin.
    now apply in_combine_map in Hin.
  - apply MethodFacts.ret_Some in H. destruct H as [-> _].
    split; [simpl; lia|]. split; [reflexivity|]. intros v s [].
Qed.

(** X1 applies to user 1 of [db_three], whose neighbours are users 2 and
    3. *)
Lemma get_similar_users_cosine_of_rows_witness :
  exists l self',
    get_similar_users cosine_binary64 1 10 (init db_three) = (Some l, self')
    /\ map fst l = [2; 3]
    /\ (List.length l <= 10)%nat
    /\ (~ In 1 (index (pivot_table (read_scores db_three))) -> l = [])
    /\ forall v s, In (v, s) l ->
         In v (index (pivot_table (read_scores db_three)))
         /\ s = cosine_binary64 (matrix_row db_three v)
                                (matrix_row db_three 1).
Proof.
  eexists. eexists. split; [vm_compute; reflexivity|].
  split; [reflexivity|].
  eapply (get_similar_users_cosine_of_rows cosine_binary64 db_three 1 10).
  vm_compute. reflexivity.
Defined.


(** X2.  A user who is not a row of the user-item matrix the recommender
    holds gets the popularity list: [get_recommendations] returns what
    [_get_popular_products(n)] returns, in which no record carries a
    score. *)
Theorem get_recommendations_unknown_user_popular
        (cosine : list Z -> list Z -> float) (u : Z) (n : nat)
        (min_similarity : float) (self self' : CF) (recs : list Rec)
        (m : DataFrame Z) :
  get_recommendations cosine u n min_similarity self = (Some recs, self') ->
  user_item_matrix self' = Some m ->
  ~ In u (index m) ->
  fst (_get_popular_products n self) = Some recs
  /\ forall r, In r recs ->
       recommendation_score r = None /\ similarity_score r = None.
Proof.
  intros H Hm Hu. apply get_recommendations_cases in H.
  destruct H as [m' [sim [Hm' [_ [He [Hp|Hcf]]]]]].
  - rewrite popular_run in Hp. rewrite popular_run. simpl fst.
    rewrite <- He. injection Hp as <-. split; [reflexivity|].
    intros r Hr. apply in_map_iff in Hr. now destruct Hr as [p [<- _]].
  - destruct Hcf as [? [? [? [? [Hin _]]]]].
    rewrite Hm in Hm'. injection Hm' as <-. contradiction.
Qed.

(** X2 applies to user 9 of [db_three], who has no interaction. *)
Lemma get_recommendations_unknown_user_popular_witness :
  exists recs self' m,
    get_recommendations cosine_binary64 9 2 tenth (init db_three)
    = (Some recs, self')
    /\ user_item_matrix self' = Some m
    /\ ~ In 9 (index m)
    /\ map product_id recs = [1; 2]
    /\ fst (_get_popular_products 2 (init db_three)) = Some recs
    /\ forall r, In r recs ->
         recommendation_score r = None /\ similarity_score r = None.
Proof.
  eexists. eexists. eexists.
  split; [vm_compute; reflexivity|].
  split; [reflexivity|].
  assert (Hu : ~ In 9 [1; 2; 3]) by (simpl; lia).
  split; [exact Hu|]. split; [reflexivity|].
  eapply (get_recommendations_unknown_user_popular cosine_binary64 9 2 tenth
            (init db_three)).
  - vm_compute. reflexivity.
  - reflexivity.
  - exact Hu.
Defined.

(** X3.  In a store where no interaction carries a score (an empty
    [interactions] table, or wishlist entries only) the matrix has no row,
    scikit-learn rejects it, and the recommender raises: so do
    [calculate_user_similarity], [get_similar_users] and
    [get_recommendations], for every user; there is no popularity fallback
    in that case. *)
Theorem get_recommendations_raises_without_scores
        (cosine : list Z -> list Z -> float) (db : Database) (u : Z)
        (n : nat) (min_similarity : float) :
  (forall i, In i (interactions db) -> Collaborative.score i = None) ->
  fst (calculate_user_similarity cosine (init db)) = None
  /\ fst (get_similar_users cosine u n (init db)) = None
  /\ fst (get_recommendations cosine u n min_similarity (init db)) = None.
Proof.
  intros H. pose proof (no_scores_no_frame cosine db H) as Hf.
  assert (Hc : forall sim, calculate_user_similarity cosine
                  (mkCF db (Some (pivot_table (read_scores db))) sim)
                = (None, mkCF db (Some (pivot_table (read_scores db))) sim)).
  { intros sim. unfold calculate_user_similarity, bind, get, ret.
    cbn [user_item_matrix]. rewrite Hf. reflexivity. }
  assert (Hc0 : calculate_user_similarity cosine (init db)
                = (None, mkCF db (Some (pivot_table (read_scores db))) None)).
  { unfold calculate_user_similarity, bind, get, init.
    cbn [user_item_matrix]. rewrite build_user_item_matrix_run.
    cbn [engine user_similarity_matrix]. rewrite Hf. reflexivity. }
  split; [now rewrite Hc0|]. split.
  - unfold get_similar_users, bind, get.
    change (user_similarity_matrix (init db)) with (@None (DataFrame float)).
    cbv beta iota. now rewrite Hc0.
  - unfold get_recommendations, ensure_matrices, bind, get.
    change (user_item_matrix (init db)) with (@None (DataFrame Z)).
    cbv beta iota. rewrite build_user_item_matrix_run.
    cbn [engine user_similarity_matrix init].
    unfold bind in Hc. now rewrite Hc.
Qed.

(** X3 applies to [db_catalog], which has products and no interaction. *)
Lemma get_recommendations_raises_without_scores_witness :
  (forall i, In i (interactions db_catalog) -> Collaborative.score i = None)
  /\ fst (calculate_user_similarity cosine_binary64 (init db_catalog)) = None
  /\ fst (get_similar_users cosine_binary64 1 10 (init db_catalog)) = None
  /\ fst (get_recommendations cosine_binary64 1 10 tenth (init db_catalog))
     = None.
Proof.
  assert (H : forall i, In i (interactions db_catalog) ->
                        Collaborative.score i = None)
    by (intros i []).
  split; [exact H|].
  exact (get_recommendations_raises_without_scores cosine_binary64 db_catalog
           1 10 tenth H).
Defined.

(** X4.  Over a catalog with distinct product ids, [get_recommendations]
    returns at most [n] records, no product twice, and every record is a
    product of the catalog. *)
Theorem get_recommendations_at_most_n_distinct
        (cosine : list Z -> list Z -> float) (u : Z) (n : nat)
        (min_similarity : float) (self self' : CF) (recs : list Rec) :
  unique_ids (products (engine self)) ->
  get_recommendations cosine u n min_similarity self = (Some recs, self') ->
  (List.length recs <= n)%nat
  /\ NoDup (map product_id recs)
  /\ forall r, In r recs ->
       In (product_id r) (map p_id (products (engine self))).
Proof.
  intros Hu H. apply get_recommendations_cases in H.
  destruct H as [m [sim [_ [_ [He [Hp|Hcf]]]]]].
  - rewrite popular_run in Hp. injection Hp as <-. rewrite He.
    assert (Hids : forall l : list Product,
               map product_id
                 (map (fun p =>
                         mkRec (p_id p) (p_title p) (p_category p)
                               (Fin (p_price p)) (float_or_none (p_rating p))
                               None None None (Some (picsum (p_id p))) None)
                      l) = map p_id l).
    { intros l. rewrite map_map. reflexivity. }
    split; [|split].
    + rewrite length_map, popularity_rank_length. apply Nat.le_min_l.
    + rewrite Hids. now apply popularity_rank_NoDup.
    + intros r Hr. apply (in_map product_id) in Hr. rewrite Hids in Hr.
      apply in_map_iff in Hr. destruct Hr as [p [<- Hp]].
      apply in_map. now apply popularity_rank_In in Hp.
  - destruct Hcf as [su [row [ps [rs [_ [_ [_ [Hacc [Hrs ->]]]]]]]]].
    rewrite He in Hrs.
    set (sp := firstn n (sorted_desc snd ps)) in *.
    set (fetched := filter (fun p => mem (p_id p) (map fst sp))
                           (products (engine self))) in *.
    pose proof (fetch_recs_ids _ _ Hrs) as Hids.
    assert (Hperm : Permutation (map product_id (sorted_desc score_of rs))
                                (map p_id fetched)).
    { rewrite <- Hids. apply Permutation_map. apply sort_desc_perm. }
    assert (Hnd : NoDup (map p_id fetched)) by now apply NoDup_map_filter.
    split; [|split].
    + unfold sorted_desc. rewrite sort_desc_length.
      rewrite <- (length_map product_id), Hids.
      transitivity (List.length (map fst sp)).
      * apply NoDup_incl_length; [assumption|].
        intros k Hk. apply in_map_iff in Hk. destruct Hk as [p [<- Hp]].
        apply filter_In in Hp. now apply mem_In.
      * rewrite length_map. unfold sp. apply firstn_le_length.
    + eapply Permutation_NoDup; [apply Permutation_sym; exact Hperm|].
      assumption.
    + intros r Hr. apply (in_map product_id) in Hr.
      apply (Permutation_in _ Hperm) in Hr.
      apply in_map_iff in Hr. destruct Hr as [p [<- Hp]].
      apply in_map. now apply filter_In in Hp.
Qed.

(** X4 applies to user 1 of [db_three]. *)
Lemma get_recommendations_at_most_n_distinct_witness :
  exists recs self',
    unique_ids (products (engine (init db_three)))
    /\ get_recommendations cosine_binary64 1 10 tenth (init db_three)
       = (Some recs, self')
    /\ (List.length recs <= 10)%nat
    /\ NoDup (map product_id recs)
    /\ forall r, In r recs ->
         In (product_id r) (map p_id (products (engine (init db_three)))).
Proof.
  assert (Hu : unique_ids (products (engine (init db_three)))).
  { unfold unique_ids. simpl.
    repeat (constructor; [simpl; lia|]). constructor. }
  eexists. eexists. split; [exact Hu|].
  split; [vm_compute; reflexivity|].
  eapply (get_recommendations_at_most_n_distinct cosine_binary64 1 10 tenth
            (init db_three) Hu).
  vm_compute. reflexivity.
Defined.

(** X5.  The [recommendation_score] of a returned product is the sum, over
    the neighbours of the user that pass [min_similarity] (in decreasing
    order of similarity), of the neighbour's positive matrix cell for the
    product times the neighbour's similarity. *)
Theorem get_recommendations_score_is_weighted_sum
        (cosine : list Z -> list Z -> float) (u : Z) (n : nat)
        (min_similarity : float) (self self' : CF) (recs : list Rec)
        (r : Rec) (sc : float) :
  get_recommendations cosine u n min_similarity self = (Some recs, self') ->
  In r recs ->
  recommendation_score r = Some sc ->
  exists m neighbours,
    user_item_matrix self' = Some m
    /\ fst (get_similar_users cosine u 50 self') = Some neighbours
    /\ total (contributions m
                (filter (fun e => geb (snd e) min_similarity) neighbours)
                (product_id r))
       = Some sc.
Proof.
  intros H Hr Hsc. apply get_recommendations_cases in H.
  destruct H as [m [sim [Hm [_ [_ [Hp|Hcf]]]]]].
  - apply popular_unscored in Hp. destruct Hp as [_ Hnone].
    rewrite (Hnone r Hr) in Hsc. discriminate.
  - destruct Hcf as [su [row [ps [rs [_ [Hsu [_ [Hacc [Hrs ->]]]]]]]]].
    exists m, su. split; [assumption|]. split; [now rewrite Hsu|].
    apply sort_desc_In in Hr.
    apply fetch_recs_spec in Hrs.
    destruct (@SimilarFacts.Forall2_In_left _ _ _ _ _ _ Hrs Hr)
      as [p [_ [sc' [Hget ->]]]].
    simpl in Hsc. injection Hsc as ->. simpl product_id.
    apply dict_get_In in Hget. apply In_firstn in Hget.
    apply sort_desc_In in Hget.
    assert (Hnd : NoDup (dict_keys ps)).
    { eapply accumulate_NoDup; [|exact Hacc]. constructor. }
    pose proof (@dict_get_NoDup_In _ ps (p_id p) sc Hnd Hget) as Hps.
    assert (Hk : In (p_id p) (dict_keys ps)).
    { unfold dict_keys. apply in_map_iff. now exists (p_id p, sc). }
    destruct (accumulate_keys _ _ _ _ _ Hacc Hk) as [[]|Hnot].
    rewrite (@accumulate_get _ _ _ _ _ _ Hnot Hacc) in Hps.
    simpl dict_get in Hps. now rewrite accrue_total in Hps.
Qed.

(** X5 applies to user 1 of [db_three] and product 3, which user 3 alone
    purchased: its score is 5 times the similarity of users 1 and 3. *)
Lemma get_recommendations_score_is_weighted_sum_witness :
  exists recs self' r sc,
    get_recommendations cosine_binary64 1 10 tenth (init db_three)
    = (Some recs, self')
    /\ In r recs
    /\ product_id r = 3
    /\ recommendation_score r = Some sc
    /\ sc = (of_Z 5 * cosine_binary64 [1; 0; 0] [1; 0; 5])%py
    /\ exists m neighbours,
         user_item_matrix self' = Some m
         /\ fst (get_similar_users cosine_binary64 1 50 self')
            = Some neighbours
         /\ total (contributions m
                     (filter (fun e => geb (snd e) tenth) neighbours)
                     (product_id r))
            = Some sc.
Proof.
  eexists. eexists. eexists. eexists.
  split; [vm_compute; reflexivity|].
  split; [left; reflexivity|].
  split; [reflexivity|]. split; [reflexivity|].
  split; [vm_compute; reflexivity|].
  eapply (get_recommendations_score_is_weighted_sum cosine_binary64 1 10
            tenth (init db_three)).
  - vm_compute. reflexivity.
  - left. reflexivity.
  - reflexivity.
Defined.

(** X6.  With a positive [min_similarity] (the default is 0.1), every
    [recommendation_score] in the result of [get_recommendations] is
    positive, and the scores do not increase along the list. *)
Theorem get_recommendations_ranked_positive
        (cosine : list Z -> list Z -> float) (u : Z) (n : nat)
        (min_similarity : float) (self self' : CF) (recs : list Rec) :
  ltb zero min_similarity = true ->
  get_recommendations cosine u n min_similarity self = (Some recs, self') ->
  (forall r x, In r recs -> recommendation_score r = Some x ->
               ltb zero x = true)
  /\ StronglySorted
       (fun a b => forall x y,
            recommendation_score a = Some x ->
            recommendation_score b = Some y -> geb x y = true) recs.
Proof.
  intros Hmin H. apply get_recommendations_cases in H.
  destruct H as [m [sim [_ [_ [_ [Hp|Hcf]]]]]].
  - apply popular_unscored in Hp. destruct Hp as [_ Hnone].
    split.
    + intros r x Hr Hx. rewrite (Hnone r Hr) in Hx. discriminate.
    + assert (HF : Forall (fun r => recommendation_score r = None) recs)
        by now apply Forall_forall.
      clear Hnone. induction HF as [|a l Ha _ IH]; constructor;
        [assumption|].
      apply Forall_forall. intros b _ x y Hx. congruence.
  - destruct Hcf as [su [row [ps [rs [_ [_ [_ [Hacc [Hrs ->]]]]]]]]].
    assert (Hpos : Forall (fun x => ltb zero (snd x) = true) ps).
    { eapply accumulate_pos; [| |exact Hacc]; [|constructor].
      apply Forall_forall. intros e He. apply filter_In in He.
      destruct He as [_ He]. now apply pos_above with min_similarity. }
    assert (Hrec : Forall (fun r => exists x, recommendation_score r = Some x
                                              /\ ltb zero x = true) rs).
    { apply fetch_recs_spec in Hrs. apply Forall_forall. intros r Hr.
      destruct (@SimilarFacts.Forall2_In_left _ _ _ _ _ _ Hrs Hr)
        as [p [_ [sc [Hget ->]]]].
      exists sc. split; [reflexivity|].
      apply dict_get_In in Hget. apply In_firstn in Hget.
      apply sort_desc_In in Hget.
      rewrite Forall_forall in Hpos. exact (Hpos _ Hget). }
    assert (Hrec' : Forall (fun r => exists x, recommendation_score r = Some x
                                               /\ ltb zero x = true)
                           (sorted_desc score_of rs)).
    { apply Forall_forall. intros r Hr. apply sort_desc_In in Hr.
      rewrite Forall_forall in Hrec. now apply Hrec. }
    split.
    + intros r x Hr Hx. rewrite Forall_forall in Hrec'.
      destruct (Hrec' r Hr) as [x' [Hx' Hp]]. congruence.
    + apply (@StronglySorted_Forall_impl _
               (fun r => exists x, recommendation_score r = Some x
                                   /\ ltb zero x = true)
               (fun a b => ltb (score_of a) (score_of b) = false));
        [|assumption|].
      * intros a b [x [Hx Px]] [y [Hy Py]] Hab x' y' Hx' Hy'.
        rewrite Hx in Hx'. rewrite Hy in Hy'.
        injection Hx' as <-. injection Hy' as <-.
        unfold score_of in Hab. rewrite Hx, Hy in Hab.
        rewrite geb_not_ltb by now apply pos_not_nan.
        now rewrite Hab.
      * apply sorted_desc_ordered. apply Forall_forall. intros r Hr.
        rewrite Forall_forall in Hrec. destruct (Hrec r Hr) as [x [Hx Px]].
        unfold score_of. rewrite Hx. now apply pos_not_nan.
Qed.

(** X6 applies to user 1 of [db_three] with the default threshold. *)
Lemma get_recommendations_ranked_positive_witness :
  exists recs self',
    ltb zero tenth = true
    /\ get_recommendations cosine_binary64 1 10 tenth (init db_three)
       = (Some recs, self')
    /\ map product_id recs = [3; 2]
    /\ (forall r x, In r recs -> recommendation_score r = Some x ->
                    ltb zero x = true)
    /\ StronglySorted
         (fun a b => forall x y,
              recommendation_score a = Some x ->
              recommendation_score b = Some y -> geb x y = true) recs.
Proof.
  eexists. eexists. split; [reflexivity|].
  split; [vm_compute; reflexivity|].
  split; [reflexivity|].
  eapply (get_recommendations_ranked_positive cosine_binary64 1 10 tenth
            (init db_three)).
  - reflexivity.
  - vm_compute. reflexivity.
Defined.


(** X25.  [coverage_products] says nothing.  For a store that satisfies
    the rating constraint and has a scored interaction, [get_metrics] on a
    fresh recommender builds the matrix, returns [total_users] and
    [total_products] as the numbers of its rows and columns, and reports
    [coverage_products] as exactly 100, just as the constant
    [coverage_users]: every column of the matrix belongs to a product with
    a scored interaction, so its sum is positive. *)
Theorem get_metrics_coverage_is_100 (db : Database) :
  valid_ratings db ->
  (exists i s, In i (interactions db) /\ Collaborative.score i = Some s) ->
  let m := pivot_table (read_scores db) in
  exists metrics self',
    CollaborativeMetrics.get_metrics (init db) = (Some metrics, self')
    /\ user_item_matrix self' = Some m
    /\ sget metrics "total_users"
       = Some (VInt (Z.of_nat (List.length (index m))))
    /\ sget metrics "total_products"
       = Some (VInt (Z.of_nat (List.length (columns m))))
    /\ sget metrics "coverage_users" = Some (VFloat (of_Z 100))
    /\ sget metrics "coverage_products" = Some (VFloat (of_Z 100)).
Proof.
  intros Hv [i [s [Hin Hs]]] m.
  assert (Hcols : (0 < Z.of_nat (List.length (columns m)))).
  { assert (Hp : In (i_product_id i) (columns m)).
    { apply pivot_table_columns. now exists i, s. }
    destruct (columns m); [destruct Hp|simpl; lia]. }
  eexists. eexists. split.
  { unfold CollaborativeMetrics.get_metrics, bind, get, ret.
    cbn [user_item_matrix init]. rewrite build_user_item_matrix_run.
    cbn [engine init]. reflexivity. }
  split; [reflexivity|]. split; [reflexivity|]. split; [reflexivity|].
  split; [reflexivity|].
  cbn [sget String.eqb Ascii.eqb Bool.eqb]. f_equal. f_equal.
  subst m. rewrite (@covered_all db Hv).
  unfold CollaborativeMetrics.columns_of. rewrite length_map, length_seq.
  now apply full_percentage.
Qed.

(** X25 applies to [db_three]. *)
Lemma get_metrics_coverage_is_100_witness :
  valid_ratings db_three
  /\ (exists i s, In i (interactions db_three)
                  /\ Collaborative.score i = Some s)
  /\ exists metrics self',
       CollaborativeMetrics.get_metrics (init db_three)
       = (Some metrics, self')
       /\ user_item_matrix self' = Some (pivot_table (read_scores db_three))
       /\ sget metrics "total_users"
          = Some (VInt (Z.of_nat (List.length
                                    (index (pivot_table
                                              (read_scores db_three))))))
       /\ sget metrics "total_products"
          = Some (VInt (Z.of_nat (List.length
                                    (columns (pivot_table
                                                (read_scores db_three))))))
       /\ sget metrics "coverage_users" = Some (VFloat (of_Z 100))
       /\ sget metrics "coverage_products" = Some (VFloat (of_Z 100)).
Proof.
  assert (Hv : valid_ratings db_three).
  { intros i r Hi Hr. simpl in Hi.
    repeat (destruct Hi as [<-|Hi]; [discriminate|]). destruct Hi. }
  assert (He : exists i s, In i (interactions db_three)
                           /\ Collaborative.score i = Some s).
  { exists (view 1 1 1 100), 1. split; [left; reflexivity|reflexivity]. }
  split; [exact Hv|]. split; [exact He|].
  exact (get_metrics_coverage_is_100 Hv He).
Defined.

End CollaborativeExtras.

(* ================================================================= *)
(** * Further properties of [app/algorithms/content_based.py] *)

Module ContentExtras.
Import PyFacts SortFacts FloatFacts Specs Samples Concrete.
Import ContentBased ContentFacts WalkFacts SimilarFacts ContentMore.
Import CollaborativeFacts HybridFacts StoreFacts RecentFacts UserFacts.
Import Reading CollaborativeMore UserMore.
Local Open Scope nat_scope.

(** X7.  On a recommender that holds the catalog and one TF-IDF row per
    product, [get_similar_products] never raises and leaves the recommender
    as it was, whatever the product id, [n] and [min_score]; every record
    it returns is made of a product of the catalog; and over a catalog with
    distinct ids no product is returned twice. *)
Theorem get_similar_products_total
        (vocabulary : Type) (fit : list string -> option vocabulary)
        (transform : vocabulary -> string -> list Qc)
        (cosine : list Qc -> list Qc -> Qc)
        (self : CB vocabulary) (df : list Product) (tfidf : list (list Qc))
        (pid : Z) (n : nat) (min_score : float) :
  loaded self df tfidf ->
  exists recs,
    get_similar_products fit transform cosine pid n min_score self
    = (Some recs, self)
    /\ (forall r, In r recs -> exists p s, In p df /\ r = entry p s)
    /\ (unique_ids df -> NoDup (map product_id recs)).
Proof.
  intros Hl.
  destruct (find_index (fun p => Z.eqb (p_id p) pid) df) as [idx|] eqn:Hfind.
  - destruct (get_similar_products_found fit transform cosine pid n
                min_score Hl Hfind)
      as [ref [ref_row [Href [_ [_ Hrun]]]]].
    set (scores := scores_of cosine df tfidf ref ref_row) in *.
    assert (Hlen : List.length scores = List.length df).
    { apply scores_of_length. now destruct Hl as [_ [_ Hlen]]. }
    destruct (@walk_stop df scores idx n min_score
                (rev (argsort scores)) [] (valid_indices df scores Hlen))
      as [k [new [Hw [Hf _]]]].
    simpl app in Hw. exists new. rewrite Hrun, Hw.
    split; [reflexivity|]. split.
    + intros r Hr.
      destruct (@Forall2_In_left _ _ _ _ _ _ Hf Hr) as [i [_ [p [s [Hp [_ ->]]]]]].
      exists p, s. split; [|reflexivity]. eapply nth_error_In; eassumption.
    + intros Hu. eapply entries_distinct; [exact Hu| |exact Hf].
      apply NoDup_filter, NoDup_firstn', NoDup_rev, argsort_NoDup.
  - exists []. destruct Hl as [[f [Hf Hrows]] [Ht _]]. subst df.
    rewrite (@get_similar_products_unknown vocabulary fit transform cosine
               self f tfidf pid n min_score Hf Ht Hfind).
    split; [reflexivity|]. split; [intros r []|intros _; constructor].
Qed.

(** X7 applies to the loaded sample catalog. *)
Lemma get_similar_products_total_witness :
  loaded (cb_loaded db_catalog) (products db_catalog) (bag_tfidf db_catalog)
  /\ exists recs,
    get_similar_products Bag.fit Bag.transform Bag.cosine 1 10 tenth
                         (cb_loaded db_catalog)
    = (Some recs, cb_loaded db_catalog)
    /\ (forall r, In r recs ->
          exists p s, In p (products db_catalog) /\ r = entry p s)
    /\ (unique_ids (products db_catalog) -> NoDup (map product_id recs)).
Proof.
  assert (Hl : loaded (cb_loaded db_catalog) (products db_catalog)
                      (bag_tfidf db_catalog)).
  { split; [eexists; split; reflexivity|]. split; reflexivity. }
  split; [exact Hl|].
  exact (get_similar_products_total Bag.fit Bag.transform Bag.cosine
           1 10 tenth Hl).
Defined.

(** X8.  [get_similar_products] returns the best: on a loaded recommender
    whose catalog has a greatest price other than 0, for a product id of the
    catalog, every other product of the catalog is in the result unless
    its score is below [min_score], or the result is full (it has [n]
    entries or more) and none of its entries scores less than that
    product. *)
Theorem get_similar_products_top_n
        (vocabulary : Type) (fit : list string -> option vocabulary)
        (transform : vocabulary -> string -> list Qc)
        (cosine : list Qc -> list Qc -> Qc)
        (self : CB vocabulary) (df : list Product) (tfidf : list (list Qc))
        (M : Qc) (pid : Z) (n : nat) (min_score : float) :
  loaded self df tfidf ->
  max_price df M -> M <> 0%Qc ->
  In pid (map p_id df) ->
  exists product_idx scores recs,
    find_index (fun p => Z.eqb (p_id p) pid) df = Some product_idx
    /\ calculate_similarity cosine product_idx self = (Some scores, self)
    /\ get_similar_products fit transform cosine pid n min_score self
       = (Some recs, self)
    /\ forall i p s,
         nth_error df i = Some p -> nth_error scores i = Some s ->
         p_id p <> pid ->
         In (entry p s) recs
         \/ ltb s min_score = true
         \/ (n <= List.length recs
             /\ forall r, In r recs -> ltb (sim_of r) s = false).
Proof.
  intros Hl HM HM0 Hpid.
  destruct (find_index (fun p => Z.eqb (p_id p) pid) df) as [idx|] eqn:Hfind.
  2:{ exfalso. apply in_map_iff in Hpid. destruct Hpid as [p [Hp Hin]].
      rewrite find_index_None in Hfind. specialize (Hfind p Hin).
      simpl in Hfind. rewrite Hp, Z.eqb_refl in Hfind. discriminate. }
  destruct (get_similar_products_found fit transform cosine pid n
              min_score Hl Hfind)
    as [ref [ref_row [Href [Hrid [Hrow Hrun]]]]].
  pose proof (calculate_similarity_run cosine idx Hl Href Hrow) as Hcalc.
  fold (scores_of cosine df tfidf ref ref_row) in Hcalc.
  set (scores := scores_of cosine df tfidf ref ref_row) in *.
  assert (Hlen : List.length scores = List.length df).
  { apply scores_of_length. now destruct Hl as [_ [_ Hlen]]. }
  assert (Hfin : Forall (fun s => is_finite s = true) scores)
    by (eapply scores_of_finite; eassumption).
  set (idxs := rev (argsort scores)) in *.
  destruct (@walk_stop df scores idx n min_score idxs []
              (valid_indices df scores Hlen))
    as [k [new [Hw [Hf Hstop]]]].
  simpl app in Hw, Hstop.
  exists idx, scores, new. split; [reflexivity|]. split; [exact Hcalc|].
  split; [now rewrite Hrun, Hw|].
  intros i p s Hp Hs Hne.
  assert (Hi : i <> idx) by (intros ->; congruence).
  assert (Hsorted : StronglySorted
                      (fun a b => ltb (nth a scores NaN) (nth b scores NaN)
                                  = false) idxs).
  { eapply StronglySorted_Forall_impl_all; [|apply rev_argsort_sorted].
    intros a b Hab. now apply orb_false_iff in Hab. }
  assert (Hin : In i idxs).
  { apply -> in_rev. apply argsort_In. apply nth_error_Some. congruence. }
  assert (Hnth : forall a t, nth_error scores a = Some t ->
                             nth a scores NaN = t).
  { intros a t Ha. now apply nth_error_nth. }
  rewrite <- (firstn_skipn k idxs) in Hin, Hsorted.
  apply in_app_or in Hin. destruct Hin as [Hin|Hin].
  - left.
    assert (Hin' : In i (filter (fun i => negb (Nat.eqb i idx))
                                (firstn k idxs))).
    { apply filter_In. split; [assumption|].
      apply negb_true_iff. now apply Nat.eqb_neq. }
    destruct (@Forall2_In_right _ _ _ _ _ _ Hf Hin') as [r [Hr [p' [s' [Hp' [Hs' ->]]]]]].
    congruence.
  - right. destruct Hstop as [Hk|[[j [sj [Hj [_ [Hsj Hlt]]]]]|Hn]].
    + rewrite skipn_all2 in Hin by assumption. destruct Hin.
    + left.
      assert (Hj' : In j (firstn (S k) idxs)).
      { clear -Hj. revert k Hj. induction idxs as [|x l IH]; intros [|k] Hj;
          simpl in *; try discriminate.
        - injection Hj as ->. now left.
        - right. now apply IH. }
      destruct (ltb s min_score) eqn:Hsm; [reflexivity|exfalso].
      assert (Hjs : ltb sj s = false).
      { clear Hsorted.
        assert (Hs2 : StronglySorted
                        (fun a b => ltb (nth a scores NaN) (nth b scores NaN)
                                    = false) (skipn k idxs)).
        { apply StronglySorted_skipn.
          eapply StronglySorted_Forall_impl_all; [|apply rev_argsort_sorted].
          intros a b Hab. now apply orb_false_iff in Hab. }
        assert (Hsk : skipn k idxs = j :: skipn (S k) idxs).
        { clear -Hj. revert k Hj.
          induction idxs as [|x l IH]; intros [|k] Hj;
            simpl in *; try discriminate.
          - now injection Hj as ->.
          - now apply IH. }
        rewrite Hsk in Hs2, Hin. destruct Hin as [<-|Hin].
        - rewrite Hs in Hsj. injection Hsj as <-. apply ltb_irrefl.
        - inversion Hs2 as [|? ? _ HF]; subst.
          rewrite Forall_forall in HF. specialize (HF i Hin).
          now rewrite (Hnth _ _ Hsj), (Hnth _ _ Hs) in HF. }
      assert (Hnn : not_nan s).
      { apply finite_not_nan. rewrite Forall_forall in Hfin.
        apply Hfin. eapply nth_error_In; eassumption. }
      rewrite (@ltb_negtrans sj s min_score Hnn Hjs Hsm) in Hlt.
      discriminate.
    + right. split; [assumption|]. intros r Hr.
      destruct (@Forall2_In_left _ _ _ _ _ _ Hf Hr)
        as [a [Ha [pa [sa [_ [Hsa ->]]]]]].
      apply filter_In in Ha. destruct Ha as [Ha _].
      pose proof (@StronglySorted_app_inv _ _ _ _ _ _ Hsorted Ha Hin) as Hab.
      simpl in Hab. rewrite (Hnth _ _ Hsa), (Hnth _ _ Hs) in Hab.
      exact Hab.
Qed.

(** X8 applies to the loaded sample catalog and product 1. *)
Lemma get_similar_products_top_n_witness :
  loaded (cb_loaded db_catalog) (products db_catalog) (bag_tfidf db_catalog)
  /\ max_price (products db_catalog) (Q2Qc 40)
  /\ Q2Qc 40 <> 0%Qc
  /\ In 1%Z (map p_id (products db_catalog))
  /\ exists product_idx scores recs,
    find_index (fun p => Z.eqb (p_id p) 1) (products db_catalog)
    = Some product_idx
    /\ calculate_similarity Bag.cosine product_idx (cb_loaded db_catalog)
       = (Some scores, cb_loaded db_catalog)
    /\ get_similar_products Bag.fit Bag.transform Bag.cosine 1 10 tenth
                            (cb_loaded db_catalog)
       = (Some recs, cb_loaded db_catalog)
    /\ forall i p s,
         nth_error (products db_catalog) i = Some p ->
         nth_error scores i = Some s ->
         p_id p <> 1%Z ->
         In (entry p s) recs
         \/ ltb s tenth = true
         \/ (10 <= List.length recs
             /\ forall r, In r recs -> ltb (sim_of r) s = false).
Proof.
  assert (Hl : loaded (cb_loaded db_catalog) (products db_catalog)
                      (bag_tfidf db_catalog)).
  { split; [eexists; split; reflexivity|]. split; reflexivity. }
  assert (HM : max_price (products db_catalog) (Q2Qc 40)).
  { split; [simpl; right; right; left; reflexivity|].
    intros p [<-|[<-|[<-|[]]]]; vm_compute; discriminate. }
  assert (HM0 : Q2Qc 40 <> 0%Qc) by discriminate.
  assert (Hin : In 1%Z (map p_id (products db_catalog))) by (left; reflexivity).
  split; [exact Hl|]. split; [exact HM|]. split; [exact HM0|].
  split; [exact Hin|].
  exact (@get_similar_products_top_n Bag.vocabulary Bag.fit Bag.transform
           Bag.cosine (cb_loaded db_catalog) (products db_catalog)
           (bag_tfidf db_catalog) (Q2Qc 40) 1%Z 10 tenth Hl HM HM0 Hin).
Defined.


(** X10.  Over a catalog with distinct product ids,
    [get_recommendations_for_user] returns at most [n] records, no product
    twice, and none of the (at most ten) products its query found in the
    user's history. *)
Theorem get_recommendations_for_user_shape
        (vocabulary : Type) (fit : list string -> option vocabulary)
        (transform : vocabulary -> string -> list Qc)
        (cosine : list Qc -> list Qc -> Qc)
        (u : Z) (n : nat) (self self' : CB vocabulary) (recs : list Rec) :
  unique_ids (products (engine self)) ->
  get_recommendations_for_user fit transform cosine u n self
  = (Some recs, self') ->
  List.length recs <= n
  /\ NoDup (map product_id recs)
  /\ forall r, In r recs ->
       ~ In (product_id r) (map p_id (recent_products (engine self) u)).
Proof.
  intros Hu H.
  destruct (recent_products (engine self) u) as [|p0 ps] eqn:Hrec.
  - rewrite (@get_recommendations_for_user_cold_start vocabulary fit
               transform cosine u n self Hrec) in H.
    unfold get_popular_products, bind, get, ret in H.
    injection H as <- _.
    split; [|split].
    + rewrite length_map, popularity_rank_length. apply Nat.le_min_l.
    + rewrite map_map. cbn [product_id]. now apply popularity_rank_NoDup.
    + intros r _ [].
  - assert (Hne : recent_products (engine self) u <> [])
      by (rewrite Hrec; discriminate).
    destruct (@get_recommendations_for_user_excludes_recent vocabulary fit
                transform cosine u n self self' recs Hne H) as [Hlen Hex].
    rewrite Hrec in Hex. split; [assumption|]. split; [|assumption].
    unfold get_recommendations_for_user in H. run_get H.
    rewrite Hrec in H. run_bind H d s1 Hg.
    apply MethodFacts.ret_Some in H. destruct H as [-> _].
    assert (Hk : keyed d) by (eapply gather_keyed; [|exact Hg]; constructor).
    assert (Hnd : NoDup (dict_keys d))
      by (eapply gather_NoDup; [|exact Hg]; constructor).
    apply NoDup_map_firstn.
    eapply Permutation_NoDup.
    { apply Permutation_map, Permutation_sym. apply sort_desc_perm. }
    rewrite map_map.
    set (keep := fun e : Z * Rec =>
                   negb (mem (fst e) (map p_id (p0 :: ps)))).
    assert (Heq : map (fun x => product_id (snd x)) (filter keep d)
                  = map fst (filter keep d)).
    { apply map_ext_in. intros e He. apply filter_In in He.
      destruct He as [He _]. unfold keyed in Hk.
      rewrite Forall_forall in Hk. now apply Hk. }
    rewrite Heq. now apply NoDup_map_filter.
Qed.

(** X10 applies to user 1 of [db_history] on a fresh recommender. *)
Lemma get_recommendations_for_user_shape_witness :
  exists recs self',
    unique_ids (products (engine (init Bag.vocabulary db_history)))
    /\ get_recommendations_for_user Bag.fit Bag.transform Bag.cosine 1 10
         (init Bag.vocabulary db_history)
       = (Some recs, self')
    /\ List.length recs <= 10
    /\ NoDup (map product_id recs)
    /\ forall r, In r recs ->
         ~ In (product_id r)
              (map p_id (recent_products
                           (engine (init Bag.vocabulary db_history)) 1)).
Proof.
  assert (Hu : unique_ids (products (engine (init Bag.vocabulary db_history)))).
  { unfold unique_ids. simpl.
    repeat (constructor; [simpl; lia|]). constructor. }
  eexists. eexists. split; [exact Hu|].
  split; [vm_compute; reflexivity|].
  eapply (@get_recommendations_for_user_shape Bag.vocabulary Bag.fit
            Bag.transform Bag.cosine 1 10 (init Bag.vocabulary db_history)
            _ _ Hu).
  vm_compute. reflexivity.
Defined.

(** X11.  A user without any interaction in the store gets from
    [get_recommendations_for_user] exactly what [get_popular_products(n)]
    returns. *)
Theorem get_recommendations_for_user_no_history
        (vocabulary : Type) (fit : list string -> option vocabulary)
        (transform : vocabulary -> string -> list Qc)
        (cosine : list Qc -> list Qc -> Qc)
        (u : Z) (n : nat) (self : CB vocabulary) :
  (forall i, In i (interactions (engine self)) -> i_user_id i <> u) ->
  get_recommendations_for_user fit transform cosine u n self
  = get_popular_products n self.
Proof.
  intros H. apply get_recommendations_for_user_cold_start.
  now apply recent_products_empty.
Qed.

(** X11 applies to user 7 of [db_three], who has no interaction. *)
Lemma get_recommendations_for_user_no_history_witness :
  (forall i, In i (interactions db_three) -> i_user_id i <> 7%Z)
  /\ get_recommendations_for_user Bag.fit Bag.transform Bag.cosine 7 10
       (init Bag.vocabulary db_three)
     = get_popular_products 10 (init Bag.vocabulary db_three).
Proof.
  assert (H : forall i, In i (interactions (engine (init Bag.vocabulary
                                                        db_three))) ->
                        i_user_id i <> 7%Z).
  { intros i Hi. simpl in Hi.
    repeat (destruct Hi as [<-|Hi]; [simpl; lia|]). destruct Hi. }
  split; [exact H|].
  exact (@get_recommendations_for_user_no_history Bag.vocabulary Bag.fit
           Bag.transform Bag.cosine 7%Z 10 (init Bag.vocabulary db_three) H).
Defined.

(** X12.  The history query of [get_recommendations_for_user] returns at
    most ten products; each is a product of the catalog the user has an
    interaction with; over a catalog with distinct ids none comes twice;
    they are ordered by the user's latest interaction with them, most
    recent first; and a catalog product the user interacted with is left
    out only when ten products are returned, none of them seen earlier than
    it. *)
Theorem recent_products_ten_latest (db : Database) (u : Z) :
  List.length (recent_products db u) <= 10
  /\ (forall p, In p (recent_products db u) ->
        In p (products db)
        /\ exists i, In i (interactions db) /\ i_user_id i = u
                     /\ i_product_id i = p_id p)
  /\ (unique_ids (products db) -> NoDup (map p_id (recent_products db u)))
  /\ StronglySorted
       (fun a b => forall ta tb, last_seen db u a = Some ta ->
                                 last_seen db u b = Some tb -> (tb <= ta)%Z)
       (recent_products db u)
  /\ forall p t,
       In p (products db) -> last_seen db u p = Some t ->
       In p (recent_products db u)
       \/ (List.length (recent_products db u) = 10
           /\ forall q tq, In q (recent_products db u) ->
                           last_seen db u q = Some tq -> (t <= tq)%Z).
Proof.
  split; [apply recent_products_length|]. split.
  - intros p Hp. apply recent_products_In in Hp.
    destruct Hp as [Hp [t Ht]]. split; [assumption|].
    eapply last_seen_interaction; eassumption.
  - split; [apply recent_products_NoDup|].
    split; [apply recent_products_sorted|].
    intros p t. apply recent_products_complete.
Qed.

(** X13.  The records [get_popular_products(n)] returns are
    [min(n, catalog size)] in number and name products of the catalog; the
    [interaction_count] of a record is the number of interactions that
    name its product; the counts do not increase along the list; and a
    product of the catalog that is not returned has no more interactions
    than any product that is. *)
Theorem get_popular_products_by_count
        (vocabulary : Type) (n : nat) (self self' : CB vocabulary)
        (recs : list Rec) :
  get_popular_products n self = (Some recs, self') ->
  let occurrences := fun pid =>
    Z.of_nat (count_occ Z.eq_dec
                (map i_product_id (interactions (engine self))) pid) in
  List.length recs = Nat.min n (List.length (products (engine self)))
  /\ (forall r, In r recs ->
        In (product_id r) (map p_id (products (engine self)))
        /\ interaction_count r = Some (occurrences (product_id r)))
  /\ StronglySorted
       (fun a b => (occurrences (product_id b)
                    <= occurrences (product_id a))%Z) recs
  /\ (forall p r, In p (products (engine self)) ->
                  ~ In (p_id p) (map product_id recs) -> In r recs ->
                  (occurrences (p_id p) <= occurrences (product_id r))%Z).
Proof.
  intros H occurrences.
  unfold get_popular_products, bind, get, ret in H.
  injection H as <- _.
  split; [now rewrite length_map, popularity_rank_length|].
  split; [|split].
  - intros r Hr. apply in_map_iff in Hr. destruct Hr as [p [<- Hp]].
    cbn [product_id interaction_count]. split.
    + apply in_map. now apply popularity_rank_In in Hp.
    + f_equal. apply count_interactions_occ.
  - apply (@StronglySorted_map_In _ _
             (fun a b => Store.popular_before (engine self) b a = false)).
    + intros a b _ _ Hab. cbn [product_id]. unfold occurrences.
      rewrite <- !count_interactions_occ.
      unfold Store.popular_before in Hab. apply orb_false_iff in Hab.
      destruct Hab as [Hab _]. now apply Z.ltb_ge in Hab.
    + unfold Store.popularity_rank. apply StronglySorted_firstn.
      apply rank_sorted.
  - intros p r Hp Hout Hr. apply in_map_iff in Hr.
    destruct Hr as [q [<- Hq]]. cbn [product_id]. unfold occurrences.
    rewrite <- !count_interactions_occ.
    apply (@popularity_rank_top (engine self) n p q Hp); [|exact Hq].
    intros Hin. apply Hout. rewrite map_map. cbn [product_id].
    now apply in_map.
Qed.

(** X13 applies to [db_rated] with [n = 1]: product 1, with three
    interactions, is returned; product 2, left out, has two. *)
Lemma get_popular_products_by_count_witness :
  exists recs,
    get_popular_products 1 (init Bag.vocabulary db_rated)
    = (Some recs, init Bag.vocabulary db_rated)
    /\ map product_id recs = [1]%Z
    /\ map interaction_count recs = [Some 3]%Z
    /\ let occurrences := fun pid =>
         Z.of_nat (count_occ Z.eq_dec
                     (map i_product_id (interactions db_rated)) pid) in
       List.length recs = Nat.min 1 (List.length (products db_rated))
       /\ (forall r, In r recs ->
             In (product_id r) (map p_id (products db_rated))
             /\ interaction_count r = Some (occurrences (product_id r)))
       /\ StronglySorted
            (fun a b => (occurrences (product_id b)
                         <= occurrences (product_id a))%Z) recs
       /\ (forall p r, In p (products db_rated) ->
                       ~ In (p_id p) (map product_id recs) -> In r recs ->
                       (occurrences (p_id p)
                        <= occurrences (product_id r))%Z).
Proof.
  eexists. split; [reflexivity|].
  split; [reflexivity|]. split; [reflexivity|].
  exact (@get_popular_products_by_count Bag.vocabulary 1
           (init Bag.vocabulary db_rated) _ _ eq_refl).
Defined.

(** X14.  For a user with history, on a loaded recommender: the
    [similarity_score] of a record [get_recommendations_for_user] returns
    is the sum of the scores the product received in the lists
    [get_similar_products(p, n=20)] of the user's recent products [p], and
    the recommender is left as it was. *)
Theorem get_recommendations_for_user_score_is_sum
        (vocabulary : Type) (fit : list string -> option vocabulary)
        (transform : vocabulary -> string -> list Qc)
        (cosine : list Qc -> list Qc -> Qc)
        (df : list Product) (tfidf : list (list Qc))
        (u : Z) (n : nat) (self self' : CB vocabulary) (recs : list Rec)
        (r : Rec) :
  loaded self df tfidf ->
  recent_products (engine self) u <> [] ->
  get_recommendations_for_user fit transform cosine u n self
  = (Some recs, self') ->
  In r recs ->
  self' = self
  /\ similarity_score r
     = total (flat_map
                (fun p =>
                   scores_for (product_id r)
                     (match fst (get_similar_products fit transform cosine
                                   (p_id p) 20 default_min_score self) with
                      | Some l => l
                      | None => []
                      end))
                (recent_products (engine self) u)).
Proof.
  intros Hl Hne H Hr.
  unfold get_recommendations_for_user in H. run_get H.
  destruct (recent_products (engine self) u) as [|p0 ps] eqn:Hrec;
    [congruence|].
  run_bind H d s1 Hg. apply MethodFacts.ret_Some in H. destruct H as [-> ->].
  assert (Hk : keyed d) by (eapply gather_keyed; [|exact Hg]; constructor).
  assert (Hnd : NoDup (dict_keys d))
    by (eapply gather_NoDup; [|exact Hg]; constructor).
  assert (H0 : all_scored []) by constructor.
  destruct (@gather_score vocabulary fit transform cosine df tfidf
              (p0 :: ps) [] d self s1 Hl H0 Hg) as [-> [_ Hget]].
  split; [reflexivity|].
  apply In_firstn in Hr. apply sort_desc_In in Hr.
  apply in_map_iff in Hr. destruct Hr as [[k v] [Hv Hin]]. simpl in Hv.
  subst v. apply filter_In in Hin. destruct Hin as [Hin _].
  unfold keyed in Hk. rewrite Forall_forall in Hk.
  pose proof (Hk _ Hin) as Hkey. simpl in Hkey. subst k.
  pose proof (@dict_get_NoDup_In _ d (product_id r) r Hnd Hin) as Hd.
  specialize (Hget (product_id r)). unfold held_score in Hget at 1.
  rewrite Hd in Hget. rewrite Hget. unfold held_score. simpl dict_get.
  apply accrue_total.
Qed.

(** X14 applies to user 1 of [db_history] and the first record
    returned. *)
Lemma get_recommendations_for_user_score_is_sum_witness :
  exists recs r,
    loaded (cb_loaded db_history) (products db_history)
           (bag_tfidf db_history)
    /\ recent_products (engine (cb_loaded db_history)) 1 <> []
    /\ get_recommendations_for_user Bag.fit Bag.transform Bag.cosine 1 10
         (cb_loaded db_history)
       = (Some recs, cb_loaded db_history)
    /\ In r recs
    /\ similarity_score r
       = total (flat_map
                  (fun p =>
                     scores_for (product_id r)
                       (match fst (get_similar_products Bag.fit
                                     Bag.transform Bag.cosine
                                     (p_id p) 20 default_min_score
                                     (cb_loaded db_history)) with
                        | Some l => l
                        | None => []
                        end))
                  (recent_products (engine (cb_loaded db_history)) 1)).
Proof.
  assert (Hl : loaded (cb_loaded db_history) (products db_history)
                      (bag_tfidf db_history)).
  { split; [eexists; split; reflexivity|]. split; reflexivity. }
  assert (Hne : recent_products (engine (cb_loaded db_history)) 1 <> [])
    by (vm_compute; discriminate).
  eexists. eexists. split; [exact Hl|]. split; [exact Hne|].
  split; [vm_compute; reflexivity|].
  split; [left; reflexivity|].
  eapply (@get_recommendations_for_user_score_is_sum Bag.vocabulary Bag.fit
            Bag.transform Bag.cosine (products db_history)
            (bag_tfidf db_history) 1%Z 10 (cb_loaded db_history)
            _ _ _ Hl Hne).
  - vm_compute. reflexivity.
  - left. reflexivity.
Defined.


(** X30.  The blended similarity is symmetric when the text similarity is:
    on a loaded recommender, the score [calculate_similarity] gives product
    [j] from the point of view of product [i] is the score it gives [i]
    from the point of view of [j]. *)
Theorem calculate_similarity_symmetric
        (vocabulary : Type) (cosine : list Qc -> list Qc -> Qc)
        (self : CB vocabulary) (df : list Product) (tfidf : list (list Qc))
        (i j : nat) (scores_i scores_j : list float) :
  loaded self df tfidf ->
  (forall a b, cosine a b = cosine b a) ->
  fst (calculate_similarity cosine i self) = Some scores_i ->
  fst (calculate_similarity cosine j self) = Some scores_j ->
  nth_error scores_i j = nth_error scores_j i
  /\ nth_error scores_i j <> None.
Proof.
  intros Hl Hsym Hi Hj.
  destruct (calculate_similarity_Some cosine i Hl Hi)
    as [ref_i [row_i [Hdi [Hti ->]]]].
  destruct (calculate_similarity_Some cosine j Hl Hj)
    as [ref_j [row_j [Hdj [Htj ->]]]].
  rewrite !nth_error_map.
  rewrite (nth_error_combine _ _ _ Htj Hdj).
  rewrite (nth_error_combine _ _ _ Hti Hdi).
  simpl. split; [|discriminate]. f_equal.
  now rewrite Hsym, category_sim_sym, price_sim_sym.
Qed.

(** X30 applies to the first and the third product of the loaded sample
    catalog, a book and a toy: each scores 0.025 for the other. *)
Lemma calculate_similarity_symmetric_witness :
  exists scores_0 scores_2,
    loaded (cb_loaded db_catalog) (products db_catalog)
           (bag_tfidf db_catalog)
    /\ (forall a b, Bag.cosine a b = Bag.cosine b a)
    /\ fst (calculate_similarity Bag.cosine 0 (cb_loaded db_catalog))
       = Some scores_0
    /\ fst (calculate_similarity Bag.cosine 2 (cb_loaded db_catalog))
       = Some scores_2
    /\ option_map show (nth_error scores_0 2) = Some (Some (1 # 40)%Q)
    /\ nth_error scores_0 2 = nth_error scores_2 0
    /\ nth_error scores_0 2 <> None.
Proof.
  assert (Hl : loaded (cb_loaded db_catalog) (products db_catalog)
                      (bag_tfidf db_catalog)).
  { split; [eexists; split; reflexivity|]. split; reflexivity. }
  assert (Hsym : forall a b, Bag.cosine a b = Bag.cosine b a).
  { intros a b. unfold Bag.cosine.
    assert (E : existsb (fun p => negb (Qc_eqb (fst p * snd p) 0))
                        (combine a b)
                = existsb (fun p => negb (Qc_eqb (fst p * snd p) 0))
                          (combine b a)).
    { revert b. induction a as [|x a IH]; intros [|y b]; simpl;
        try reflexivity.
      rewrite (Qcmult_comm x y). now rewrite IH. }
    now rewrite E. }
  eexists. eexists. split; [exact Hl|]. split; [exact Hsym|].
  split; [vm_compute; reflexivity|].
  split; [vm_compute; reflexivity|].
  split; [reflexivity|].
  eapply (@calculate_similarity_symmetric Bag.vocabulary Bag.cosine
            (cb_loaded db_catalog) (products db_catalog)
            (bag_tfidf db_catalog) 0%nat 2%nat _ _ Hl Hsym).
  - vm_compute. reflexivity.
  - vm_compute. reflexivity.
Defined.

End ContentExtras.

(* ================================================================= *)
(** * Further properties of the combiner of [app/api/recommendations.py] *)

Module HybridExtras.
Import PyFacts SortFacts FloatFacts CollaborativeFacts Specs Samples Hybrid.
Import HybridFacts CollaborativeMore StoreFacts HybridMore.
Local Open Scope Z_scope.

(** X15.  [_combine_recommendations] deduplicates: no product id occurs
    twice in its result, whatever the two lists hold.  Every record it
    returns is the last record one of the lists holds for the product: the
    collaborative list's when that list has the product, the content list's
    otherwise.  And nothing is lost: the result has [limit] records, or one
    per distinct product id of the two lists when these are fewer. *)
Theorem combine_recommendations_deduplicates
        (content_recs collab_recs : list Rec) (limit : nat) :
  let out := _combine_recommendations content_recs collab_recs limit in
  NoDup (map product_id out)
  /\ (forall r, In r out ->
        lookup_last collab_recs (product_id r) = Some r
        \/ (lookup_last collab_recs (product_id r) = None
            /\ lookup_last content_recs (product_id r) = Some r))
  /\ List.length out
     = Nat.min limit
         (List.length
            (nodup Z.eq_dec (map product_id (collab_recs ++ content_recs)))).
Proof.
  intros out. subst out. unfold _combine_recommendations, sorted_recs.
  set (H := hybrid_scores content_recs collab_recs).
  set (S := sorted_desc (fun e => score (snd e)) H).
  assert (HS : forall e, In e S -> In e H)
    by (intros e He; now apply sort_desc_In in He).
  assert (Hperm : Permutation S H) by apply sort_desc_perm.
  split; [|split].
  - rewrite map_map.
    assert (Heq : map (fun x => product_id (data (snd x))) (firstn limit S)
                  = map fst (firstn limit S)).
    { apply map_ext_in. intros [k h] He. apply In_firstn in He.
      apply HS in He. now apply hybrid_scores_data in He. }
    rewrite Heq. apply NoDup_map_firstn.
    eapply Permutation_NoDup;
      [apply Permutation_map, Permutation_sym; exact Hperm|].
    apply hybrid_scores_NoDup.
  - intros r Hr. apply in_map_iff in Hr. destruct Hr as [[k h] [<- He]].
    apply In_firstn in He. apply HS in He.
    apply hybrid_scores_data in He. destruct He as [Hk He].
    simpl. now rewrite Hk.
  - rewrite length_map, length_firstn. f_equal.
    rewrite (Permutation_length Hperm).
    rewrite <- (length_map fst H).
    apply Permutation_length. apply NoDup_Permutation.
    + apply hybrid_scores_NoDup.
    + apply NoDup_nodup.
    + intros k. rewrite nodup_In. apply hybrid_scores_keys.
Qed.

End HybridExtras.

(* ================================================================= *)
(** * Properties of the endpoints of [app/api/recommendations.py] *)

Module ApiExtras.
Import PyFacts SortFacts FloatFacts Specs Samples MoreSamples Concrete Api.
Import StateFacts StoreFacts CollaborativeFacts CollaborativeMore.
Import UserFacts UserMore SimilarFacts ApiFacts.
Local Open Scope Z_scope.

(** X16.  [GET /similar/{product_id}] never answers 404.  A response it
    returns has at least one recommendation, carries the queried product
    id and [count] is the number of recommendations; everything else,
    the [HTTPException(404)] the handler raises for an empty result
    included, reaches the client as status 500. *)
Theorem get_similar_products_never_404
        (vocabulary : Type) (fit : list string -> option vocabulary)
        (transform : vocabulary -> string -> list Qc)
        (cosine_text : list Qc -> list Qc -> Qc)
        (product_id : Z) (limit : nat) (app : App vocabulary) :
  match fst (get_similar_products fit transform cosine_text product_id
                                  limit app) with
  | inl response =>
      r_recommendations response <> []
      /\ r_count response = List.length (r_recommendations response)
      /\ r_product_id response = Some product_id
      /\ r_user_id response = None
      /\ r_algorithm response = "content_based"%string
  | inr e => e = HTTPException 500
  end.
Proof.
  destruct (get_similar_products fit transform cosine_text product_id limit
                                 app) as [[response|e] app'] eqn:H; simpl.
  - apply try_500_inl in H.
    apply hbind_inl in H. destruct H as [t [a1 [_ H]]].
    apply hbind_inl in H. destruct H as [similar [a2 [_ H]]].
    destruct similar as [|r l]; [discriminate|].
    inversion H; subst. simpl. rewrite length_map.
    repeat split; try reflexivity. discriminate.
  - unfold get_similar_products in H.
    match type of H with
    | try_500 ?b ?a = _ => pose proof (@try_500_inr _ _ b a e) as Ht
    end.
    rewrite H in Ht. now apply Ht.
Qed.

(** X17.  An unknown product id is answered with status 500: on an
    application whose content recommender is loaded, for a product id that
    is not in the catalog, the recommender returns the empty list, the
    handler raises [HTTPException(404)] inside its [try] block and the
    [except Exception] clause turns it into a 500. *)
Theorem get_similar_products_unknown_id_is_500
        (vocabulary : Type) (fit : list string -> option vocabulary)
        (transform : vocabulary -> string -> list Qc)
        (cosine_text : list Qc -> list Qc -> Qc)
        (app : App vocabulary) (rec : ContentBased.CB vocabulary)
        (df : list Product) (tfidf : list (list Qc))
        (product_id : Z) (limit : nat) :
  content_recommender app = Some rec ->
  loaded rec df tfidf ->
  ~ In product_id (map p_id df) ->
  fst (ContentBased.get_similar_products fit transform cosine_text
         product_id limit ContentBased.default_min_score rec) = Some []
  /\ fst (get_similar_products fit transform cosine_text product_id limit
                               app)
     = inr (HTTPException 500).
Proof.
  intros Hrec Hl Hpid.
  assert (Hrun : ContentBased.get_similar_products fit transform cosine_text
                   product_id limit ContentBased.default_min_score rec
                 = (Some [], rec)).
  { destruct Hl as [[f [Hf Hrows]] [Ht _]]. subst df.
    apply (@get_similar_products_unknown vocabulary fit transform
             cosine_text rec f tfidf product_id limit
             ContentBased.default_min_score Hf Ht).
    apply find_index_None. intros x Hx.
    apply Z.eqb_neq. intros Heq. apply Hpid. rewrite <- Heq.
    now apply in_map. }
  split; [now rewrite Hrun|].
  unfold get_similar_products, try_500. unfold hbind at 1.
  rewrite get_content_recommender_eq, Hrec.
  unfold hbind, on_content. rewrite Hrec, Hrun. reflexivity.
Qed.

(** X17 applies to product id 7 on the loaded sample catalog. *)
Lemma get_similar_products_unknown_id_is_500_witness :
  let app := mkApp db_catalog (Some (cb_loaded db_catalog)) None in
  content_recommender app = Some (cb_loaded db_catalog)
  /\ loaded (cb_loaded db_catalog) (products db_catalog)
            (bag_tfidf db_catalog)
  /\ ~ In 7 (map p_id (products db_catalog))
  /\ fst (ContentBased.get_similar_products Bag.fit Bag.transform Bag.cosine
            7 10 ContentBased.default_min_score (cb_loaded db_catalog))
     = Some []
  /\ fst (get_similar_products Bag.fit Bag.transform Bag.cosine 7 10 app)
     = inr (HTTPException 500).
Proof.
  intros app.
  assert (Hl : loaded (cb_loaded db_catalog) (products db_catalog)
                      (bag_tfidf db_catalog)).
  { split; [eexists; split; reflexivity|]. split; reflexivity. }
  assert (Hn : ~ In 7 (map p_id (products db_catalog))).
  { simpl. intros [H|[H|[H|[]]]]; discriminate. }
  split; [reflexivity|]. split; [exact Hl|]. split; [exact Hn|].
  exact (@get_similar_products_unknown_id_is_500 Bag.vocabulary Bag.fit
           Bag.transform Bag.cosine app (cb_loaded db_catalog)
           (products db_catalog) (bag_tfidf db_catalog) 7 10%nat
           eq_refl Hl Hn).
Defined.

(** X18.  On a coherent application over a catalog with distinct product
    ids, a response of [GET /for-user/{user_id}] names the user, has at
    most [limit] recommendations, [count] is their number, and [algorithm]
    is [content_based] for ["content"], [collaborative_filtering] for
    ["collaborative"] and [hybrid] for every other value of the
    parameter. *)
Theorem get_user_recommendations_count
        (vocabulary : Type) (fit : list string -> option vocabulary)
        (transform : vocabulary -> string -> list Qc)
        (cosine_text : list Qc -> list Qc -> Qc)
        (cosine_rows : list Z -> list Z -> float)
        (user_id : Z) (limit : nat) (algorithm : string)
        (app app' : App vocabulary) (response : RecommendationResponse) :
  coherent app ->
  unique_ids (products (database app)) ->
  get_user_recommendations fit transform cosine_text cosine_rows user_id
                           limit algorithm app
  = (inl response, app') ->
  r_user_id response = Some user_id
  /\ r_product_id response = None
  /\ r_count response = List.length (r_recommendations response)
  /\ (r_count response <= limit)%nat
  /\ r_algorithm response
     = (if String.eqb algorithm "content" then "content_based"
        else if String.eqb algorithm "collaborative"
             then "collaborative_filtering"
             else "hybrid")%string.
Proof.
  intros Hc Hu H. apply try_500_inl in H.
  apply hbind_inl in H. destruct H as [[recs name] [a1 [Hrec H]]].
  destruct (@recommend_inl vocabulary fit transform cosine_text cosine_rows
              user_id limit algorithm app a1 recs name Hc Hu Hrec)
    as [Hlen Hname].
  apply hbind_inl in H. destruct H as [recs2 [a2 [Hfb H]]].
  inversion H; subst response; clear H. simpl.
  repeat split; try assumption.
  rewrite length_map.
  destruct recs as [|r l].
  - apply hbind_inl in Hfb. destruct Hfb as [t [a3 [_ Hfb]]].
    apply on_content_inl in Hfb. destruct Hfb as [rec [rec' [_ [Hm _]]]].
    unfold ContentBased.get_popular_products, bind, get, ret in Hm.
    injection Hm as <- _. rewrite length_map.
    unfold Store.popularity_rank. apply firstn_le_length.
  - inversion Hfb; subst. assumption.
Qed.

(** X18 applies to user 1 of [db_three] at start-up, with the hybrid
    algorithm and [limit = 2]. *)
Lemma get_user_recommendations_count_witness :
  exists response app',
    coherent (start Bag.vocabulary db_three)
    /\ unique_ids (products (database (start Bag.vocabulary db_three)))
    /\ get_user_recommendations Bag.fit Bag.transform Bag.cosine
         cosine_binary64 1 2 "hybrid" (start Bag.vocabulary db_three)
       = (inl response, app')
    /\ map pr_product_id (r_recommendations response) = [3; 2]
    /\ r_user_id response = Some 1
    /\ r_product_id response = None
    /\ r_count response = List.length (r_recommendations response)
    /\ (r_count response <= 2)%nat
    /\ r_algorithm response = "hybrid"%string.
Proof.
  assert (Hc : coherent (start Bag.vocabulary db_three))
    by (split; intros rec Hrec; discriminate).
  assert (Hu : unique_ids (products (database (start Bag.vocabulary
                                                     db_three)))).
  { unfold unique_ids. simpl.
    repeat (constructor; [simpl; lia|]). constructor. }
  eexists. eexists. split; [exact Hc|]. split; [exact Hu|].
  split; [vm_compute; reflexivity|].
  split; [reflexivity|].
  eapply (@get_user_recommendations_count Bag.vocabulary Bag.fit
            Bag.transform Bag.cosine cosine_binary64 1 2%nat "hybrid"
            (start Bag.vocabulary db_three) _ _ Hc Hu).
  vm_compute. reflexivity.
Defined.

(** X19.  [GET /for-user/{user_id}] does not answer with an empty list: on
    a coherent application whose catalog is not empty and for
    [limit >= 1], every response has at least one recommendation (when the
    chosen algorithm finds nothing, the popular products are served). *)
Theorem get_user_recommendations_never_empty
        (vocabulary : Type) (fit : list string -> option vocabulary)
        (transform : vocabulary -> string -> list Qc)
        (cosine_text : list Qc -> list Qc -> Qc)
        (cosine_rows : list Z -> list Z -> float)
        (user_id : Z) (limit : nat) (algorithm : string)
        (app app' : App vocabulary) (response : RecommendationResponse) :
  coherent app ->
  products (database app) <> [] ->
  (1 <= limit)%nat ->
  get_user_recommendations fit transform cosine_text cosine_rows user_id
                           limit algorithm app
  = (inl response, app') ->
  r_recommendations response <> [].
Proof.
  intros Hc Hne Hlim H. apply try_500_inl in H.
  apply hbind_inl in H. destruct H as [[recs name] [a1 [Hrec H]]].
  pose proof (@recommend_coherent vocabulary fit transform cosine_text
                cosine_rows user_id limit algorithm app Hc) as [Hc1 Hd1].
  rewrite Hrec in Hc1, Hd1. simpl in Hc1, Hd1.
  apply hbind_inl in H. destruct H as [recs2 [a2 [Hfb H]]].
  inversion H; subst response; clear H. simpl.
  assert (Hrecs2 : recs2 <> []).
  { destruct recs as [|r l].
    - apply hbind_inl in Hfb. destruct Hfb as [t [a3 [Hg Hfb]]].
      pose proof (@get_content_recommender_coherent vocabulary fit
                    transform a1 Hc1) as [Hc3 Hd3].
      rewrite Hg in Hc3, Hd3. simpl in Hc3, Hd3.
      apply on_content_inl in Hfb.
      destruct Hfb as [rec [rec' [Hr [Hm _]]]].
      destruct Hc3 as [Hk _]. specialize (Hk rec Hr).
      unfold ContentBased.get_popular_products, bind, get, ret in Hm.
      injection Hm as <- _. rewrite Hk, Hd3, Hd1.
      intros Hnil. apply (f_equal (@List.length Rec)) in Hnil.
      rewrite length_map, popularity_rank_length in Hnil. simpl in Hnil.
      destruct (products (database app)); [congruence|]. simpl in Hnil. lia.
    - inversion Hfb; subst. discriminate. }
  destruct recs2; [congruence|discriminate].
Qed.

(** X19 applies to user 9 of [db_three], whom neither algorithm knows. *)
Lemma get_user_recommendations_never_empty_witness :
  exists response app',
    coherent (start Bag.vocabulary db_three)
    /\ products (database (start Bag.vocabulary db_three)) <> []
    /\ (1 <= 2)%nat
    /\ get_user_recommendations Bag.fit Bag.transform Bag.cosine
         cosine_binary64 9 2 "content" (start Bag.vocabulary db_three)
       = (inl response, app')
    /\ map pr_product_id (r_recommendations response) = [1; 2]
    /\ r_recommendations response <> [].
Proof.
  assert (Hc : coherent (start Bag.vocabulary db_three))
    by (split; intros rec Hrec; discriminate).
  assert (Hne : products (database (start Bag.vocabulary db_three)) <> [])
    by discriminate.
  assert (Hl : (1 <= 2)%nat) by lia.
  eexists. eexists. split; [exact Hc|]. split; [exact Hne|].
  split; [exact Hl|].
  split; [vm_compute; reflexivity|].
  split; [reflexivity|].
  eapply (@get_user_recommendations_never_empty Bag.vocabulary Bag.fit
            Bag.transform Bag.cosine cosine_binary64 9 2%nat "content"
            (start Bag.vocabulary db_three) _ _ Hc Hne Hl).
  vm_compute. reflexivity.
Defined.


(** X20.  [GET /metrics?algorithm=collaborative] never succeeds.  The
    dictionary [get_metrics] of the collaborative recommender returns has
    no key [coverage], which [MetricsResponse] requires: the validation
    fails, and the endpoint answers with status 500 whatever the store
    holds. *)
Theorem get_recommendation_metrics_collaborative_is_500
        (vocabulary : Type) (fit : list string -> option vocabulary)
        (transform : vocabulary -> string -> list Qc)
        (cosine_text : list Qc -> list Qc -> Qc)
        (features : vocabulary -> Z)
        (cosine_rows : list Z -> list Z -> float)
        (sample_indices : list nat) (app : App vocabulary) :
  (forall (rec rec' : Collaborative.CF) (metrics : Values.sdict),
      CollaborativeMetrics.get_metrics rec = (Some metrics, rec') ->
      Values.sget metrics "coverage" = None
      /\ validate_metrics metrics = None)
  /\ fst (get_recommendation_metrics fit transform cosine_text features
            cosine_rows "collaborative" sample_indices app)
     = inr (HTTPException 500).
Proof.
  assert (Hv : forall (rec rec' : Collaborative.CF) (metrics : Values.sdict),
             CollaborativeMetrics.get_metrics rec = (Some metrics, rec') ->
             Values.sget metrics "coverage" = None
             /\ validate_metrics metrics = None).
  { intros rec rec' metrics Hm.
    unfold CollaborativeMetrics.get_metrics in Hm.
    run_get Hm. run_bind Hm m s1 Hb.
    apply MethodFacts.ret_Some in Hm. destruct Hm as [-> _].
    split; reflexivity. }
  split; [exact Hv|].
  apply get_recommendation_metrics_collaborative_500_aux.
Qed.

(** X21.  A response of [GET /metrics] for any other algorithm is the
    content recommender's: [algorithm] is [content_based], [coverage] is
    100, [total_products] is the number of rows of the catalog the
    recommender holds, and both optional fields are present. *)
Theorem get_recommendation_metrics_content
        (vocabulary : Type) (fit : list string -> option vocabulary)
        (transform : vocabulary -> string -> list Qc)
        (cosine_text : list Qc -> list Qc -> Qc)
        (features : vocabulary -> Z)
        (cosine_rows : list Z -> list Z -> float)
        (algorithm : string) (sample_indices : list nat)
        (app app' : App vocabulary) (response : MetricsResponse) :
  get_recommendation_metrics fit transform cosine_text features cosine_rows
                             algorithm sample_indices app
  = (inl response, app') ->
  algorithm <> "collaborative"%string
  /\ m_algorithm response = "content_based"%string
  /\ m_coverage response = of_Z 100
  /\ m_avg_similarity_score response <> None
  /\ m_tfidf_features response <> None
  /\ exists rec df,
       content_recommender app' = Some rec
       /\ ContentBased.products_df rec = Some df
       /\ m_total_products response
          = Z.of_nat (List.length (ContentBased.rows df)).
Proof.
  intros H.
  assert (Hne : algorithm <> "collaborative"%string).
  { intros ->.
    pose proof (get_recommendation_metrics_collaborative_500_aux fit
                  transform cosine_text features cosine_rows sample_indices
                  app) as H5.
    rewrite H in H5. discriminate. }
  split; [exact Hne|].
  apply try_500_inl in H.
  apply hbind_inl in H. destruct H as [metrics [a1 [Hm H]]].
  apply String.eqb_neq in Hne. rewrite Hne in Hm.
  apply hbind_inl in Hm. destruct Hm as [t [a2 [_ Hm]]].
  apply on_content_inl in Hm. destruct Hm as [rec [rec' [_ [Hm ->]]]].
  unfold ContentMetrics.get_metrics in Hm.
  run_get Hm. run_bind Hm t1 s1 H1. run_get Hm. run_bind Hm t2 s2 H2.
  run_get Hm. run_lift Hm df Hdf. run_bind Hm avgs s3 Ha.
  pose proof (averages_state cosine_text sample_indices s2) as Hs.
  rewrite Ha in Hs. simpl in Hs. subst s3.
  run_get Hm. run_bind Hm tf s4 Htf.
  assert (Hs4 : s4 = s2).
  { destruct (ContentBased.vectorizer s2) as [[|v]|];
      [discriminate| |]; apply MethodFacts.ret_Some in Htf; apply Htf. }
  subst s4.
  apply MethodFacts.ret_Some in Hm. destruct Hm as [-> ->].
  cbn in H. inversion H; subst response; clear H. simpl.
  repeat split; try discriminate.
  exists s2, df. repeat split; assumption.
Qed.

(** X21 applies to the sample catalog at start-up, with the sample
    [[0; 2]]. *)
Lemma get_recommendation_metrics_content_witness :
  exists response app',
    get_recommendation_metrics Bag.fit Bag.transform Bag.cosine
      (fun v => Z.of_nat (List.length v)) cosine_binary64
      "content" [0%nat; 2%nat] (start Bag.vocabulary db_catalog)
    = (inl response, app')
    /\ m_total_products response = 3
    /\ "content"%string <> "collaborative"%string
    /\ m_algorithm response = "content_based"%string
    /\ m_coverage response = of_Z 100
    /\ m_avg_similarity_score response <> None
    /\ m_tfidf_features response <> None
    /\ exists rec df,
         content_recommender app' = Some rec
         /\ ContentBased.products_df rec = Some df
         /\ m_total_products response
            = Z.of_nat (List.length (ContentBased.rows df)).
Proof.
  eexists. eexists. split; [vm_compute; reflexivity|].
  split; [reflexivity|].
  eapply (@get_recommendation_metrics_content Bag.vocabulary Bag.fit
            Bag.transform Bag.cosine (fun v => Z.of_nat (List.length v))
            cosine_binary64 "content" [0%nat; 2%nat]
            (start Bag.vocabulary db_catalog)).
  vm_compute. reflexivity.
Defined.

(** X22.  A response of [GET /popular] on a coherent application lists
    [min(limit, catalog size)] products; [count] is that number; no entry
    has a [similarity_score]; and the [image_url] of an entry is the
    picsum address of its product id, whatever the catalog stores. *)
Theorem get_popular_products_response
        (vocabulary : Type) (fit : list string -> option vocabulary)
        (transform : vocabulary -> string -> list Qc)
        (limit : nat) (app app' : App vocabulary)
        (response : RecommendationResponse) :
  coherent app ->
  get_popular_products fit transform limit app = (inl response, app') ->
  r_algorithm response = "popularity_based"%string
  /\ r_count response = List.length (r_recommendations response)
  /\ r_count response
     = Nat.min limit (List.length (products (database app)))
  /\ forall item, In item (r_recommendations response) ->
       pr_similarity_score item = None
       /\ pr_image_url item = Some (picsum (pr_product_id item))
       /\ In (pr_product_id item) (map p_id (products (database app))).
Proof.
  intros Hc H. apply try_500_inl in H.
  apply hbind_inl in H. destruct H as [t [a1 [Hg H]]].
  pose proof (@get_content_recommender_coherent vocabulary fit transform
                app Hc) as [Hc1 Hd1].
  rewrite Hg in Hc1, Hd1. simpl in Hc1, Hd1.
  apply hbind_inl in H. destruct H as [popular [a2 [Hp H]]].
  inversion H; subst response; clear H. simpl.
  apply on_content_inl in Hp. destruct Hp as [rec [rec' [Hr [Hm _]]]].
  destruct Hc1 as [Hk _]. specialize (Hk rec Hr).
  unfold ContentBased.get_popular_products, bind, get, ret in Hm.
  injection Hm as <- _. rewrite Hk, Hd1.
  split; [reflexivity|]. split; [reflexivity|].
  split; [now rewrite !length_map, popularity_rank_length|].
  intros item Hi. apply in_map_iff in Hi. destruct Hi as [r [<- Hr']].
  apply in_map_iff in Hr'. destruct Hr' as [p [<- Hp]].
  simpl. repeat split. apply in_map. now apply popularity_rank_In in Hp.
Qed.

(** X22 applies to [db_three] at start-up with [limit = 2]. *)
Lemma get_popular_products_response_witness :
  exists response app',
    coherent (start Bag.vocabulary db_three)
    /\ get_popular_products Bag.fit Bag.transform 2
         (start Bag.vocabulary db_three)
       = (inl response, app')
    /\ map pr_product_id (r_recommendations response) = [1; 2]
    /\ r_algorithm response = "popularity_based"%string
    /\ r_count response = List.length (r_recommendations response)
    /\ r_count response
       = Nat.min 2 (List.length
                      (products (database (start Bag.vocabulary db_three))))
    /\ forall item, In item (r_recommendations response) ->
         pr_similarity_score item = None
         /\ pr_image_url item = Some (picsum (pr_product_id item))
         /\ In (pr_product_id item)
               (map p_id (products (database (start Bag.vocabulary
                                                     db_three)))).
Proof.
  assert (Hc : coherent (start Bag.vocabulary db_three))
    by (split; intros rec Hrec; discriminate).
  eexists. eexists. split; [exact Hc|].
  split; [vm_compute; reflexivity|].
  split; [reflexivity|].
  eapply (@get_popular_products_response Bag.vocabulary Bag.fit
            Bag.transform 2%nat (start Bag.vocabulary db_three) _ _ Hc).
  vm_compute. reflexivity.
Defined.


(** X23.  At start-up over a store in which no interaction carries a score
    (no interactions yet, or wishlist entries only),
    [GET /for-user/{user_id}] fails with status 500 for every algorithm
    other than ["content"], the default ["hybrid"] included: the
    collaborative recommender cannot be initialised, and the content
    recommendations are not served in its place. *)
Theorem get_user_recommendations_needs_scores
        (vocabulary : Type) (fit : list string -> option vocabulary)
        (transform : vocabulary -> string -> list Qc)
        (cosine_text : list Qc -> list Qc -> Qc)
        (cosine_rows : list Z -> list Z -> float)
        (db : Database) (user_id : Z) (limit : nat) (algorithm : string) :
  (forall i, In i (interactions db) -> Collaborative.score i = None) ->
  algorithm <> "content"%string ->
  fst (get_user_recommendations fit transform cosine_text cosine_rows
         user_id limit algorithm (start vocabulary db))
  = inr (HTTPException 500).
Proof.
  intros Hsc Halg.
  destruct (get_user_recommendations fit transform cosine_text cosine_rows
              user_id limit algorithm (start vocabulary db))
    as [[response|e] app'] eqn:H; simpl.
  - exfalso. apply try_500_inl in H.
    apply hbind_inl in H. destruct H as [[recs name] [a1 [Hrec _]]].
    unfold recommend in Hrec. apply String.eqb_neq in Halg.
    rewrite Halg in Hrec.
    destruct (String.eqb algorithm "collaborative").
    + apply hbind_inl in Hrec. destruct Hrec as [t [a2 [Hg _]]].
      pose proof (@get_collaborative_recommender_fails vocabulary
                    cosine_rows (start vocabulary db) eq_refl Hsc) as Hf.
      rewrite Hg in Hf. discriminate.
    + apply hbind_inl in Hrec. destruct Hrec as [t [a2 [Hc Hrec]]].
      apply hbind_inl in Hrec. destruct Hrec as [t' [a3 [Hg _]]].
      pose proof (@get_content_recommender_others vocabulary fit transform
                    (start vocabulary db)) as [Hd Hk].
      rewrite Hc in Hd, Hk. simpl in Hd, Hk.
      assert (Hsc' : forall i, In i (interactions (database a2)) ->
                               Collaborative.score i = None)
        by now rewrite Hd.
      pose proof (@get_collaborative_recommender_fails vocabulary
                    cosine_rows a2 Hk Hsc') as Hf.
      rewrite Hg in Hf. discriminate.
  - unfold get_user_recommendations in H.
    match type of H with
    | try_500 ?b ?a = _ => pose proof (@try_500_inr _ _ b a e) as Ht
    end.
    rewrite H in Ht. f_equal. now apply Ht.
Qed.

(** X23 applies to [db_catalog], which has products and no interaction,
    and the default algorithm. *)
Lemma get_user_recommendations_needs_scores_witness :
  (forall i, In i (interactions db_catalog) -> Collaborative.score i = None)
  /\ "hybrid"%string <> "content"%string
  /\ fst (get_user_recommendations Bag.fit Bag.transform Bag.cosine
            cosine_binary64 1 10 "hybrid" (start Bag.vocabulary db_catalog))
     = inr (HTTPException 500).
Proof.
  assert (Hsc : forall i, In i (interactions db_catalog) ->
                          Collaborative.score i = None) by (intros i []).
  assert (Ha : "hybrid"%string <> "content"%string) by discriminate.
  split; [exact Hsc|]. split; [exact Ha|].
  exact (@get_user_recommendations_needs_scores Bag.vocabulary Bag.fit
           Bag.transform Bag.cosine cosine_binary64 db_catalog 1 10%nat
           "hybrid" Hsc Ha).
Defined.

(** X24.  A failed initialisation is not repeated.  When the vectorizer
    rejects the texts of the catalog, the first [GET /popular] after
    start-up fails with status 500; the half-initialised recommender stays
    in the global, and the same request, sent again, is answered with the
    [min(limit, catalog size)] most popular products. *)
Theorem get_popular_products_second_request
        (vocabulary : Type) (fit : list string -> option vocabulary)
        (transform : vocabulary -> string -> list Qc)
        (db : Database) (limit : nat) :
  fit (map ContentBased.combine_features (products db)) = None ->
  let first := get_popular_products fit transform limit
                                    (start vocabulary db) in
  fst first = inr (HTTPException 500)
  /\ exists response app',
       get_popular_products fit transform limit (snd first)
       = (inl response, app')
       /\ r_count response = Nat.min limit (List.length (products db)).
Proof.
  intros Hfit first.
  assert (Hb : ContentBased.build_tfidf_matrix fit transform
                 (ContentBased.mkCB db
                    (Some (ContentBased.mkFrame (products db) None))
                    None None)
               = (None,
                  ContentBased.mkCB db
                    (Some (ContentBased.mkFrame (products db)
                             (Some (map ContentBased.combine_features
                                        (products db)))))
                    None (Some ContentBased.Unfitted))).
  { unfold ContentBased.build_tfidf_matrix, bind, get, put, lift.
    cbn. rewrite Hfit. reflexivity. }
  assert (Hfirst : first
                   = (inr (HTTPException 500),
                      mkApp db
                        (Some (ContentBased.mkCB db
                                 (Some (ContentBased.mkFrame (products db)
                                          (Some (map
                                                   ContentBased.combine_features
                                                   (products db)))))
                                 None (Some ContentBased.Unfitted)))
                        None)).
  { unfold first, get_popular_products, try_500. unfold hbind at 1.
    rewrite get_content_recommender_eq. cbn [content_recommender start].
    unfold hbind, on_content, ContentBased.load_products, start.
    cbn [content_recommender set_content database
         collaborative_recommender ContentBased.init ContentBased.engine
         ContentBased.tfidf_matrix ContentBased.vectorizer].
    rewrite Hb. reflexivity. }
  rewrite Hfirst. split; [reflexivity|].
  eexists. eexists. split; [reflexivity|].
  cbn [r_count snd]. rewrite !length_map.
  apply popularity_rank_length.
Qed.

(** X24 applies to the empty store, whose texts the sample vectorizer
    rejects. *)
Lemma get_popular_products_second_request_witness :
  Bag.fit (map ContentBased.combine_features (products db_empty)) = None
  /\ let first := get_popular_products Bag.fit Bag.transform 10
                    (start Bag.vocabulary db_empty) in
     fst first = inr (HTTPException 500)
     /\ exists response app',
          get_popular_products Bag.fit Bag.transform 10 (snd first)
          = (inl response, app')
          /\ r_count response
             = Nat.min 10 (List.length (products db_empty)).
Proof.
  split; [reflexivity|].
  exact (@get_popular_products_second_request Bag.vocabulary Bag.fit
           Bag.transform db_empty 10 eq_refl).
Defined.

End ApiExtras.

(* ================================================================= *)
(** * Properties of the endpoints of [app/api/interactions.py] *)

Module InteractionsExtras.
Import PyFacts SortFacts FloatFacts MatrixFacts Specs Samples Collaborative.
Import CollaborativeFacts SimilarityFacts Api Interactions InteractionsFacts.
Local Open Scope Z_scope.

(** X26.  [track_interaction] stores exactly the request.  When it
    returns, the row it returns carries the fields of the request, the new
    id and the timestamp; the row is appended to the [interactions] table
    and nothing else changes; the request satisfies the constraints of
    [InteractionCreate], a rating request carries its rating, the user and
    the product exist; and the rating constraint of the table still
    holds. *)
Theorem track_interaction_stores_request
        (interaction : InteractionCreate) (new_id now : Z)
        (t t' : Tables) (row : Interaction) :
  track_interaction interaction new_id now t = (inl row, t') ->
  row = mkInteraction new_id (ic_user_id interaction)
                      (ic_product_id interaction)
                      (ic_interaction_type interaction)
                      (ic_rating interaction) now
  /\ interactions (store t') = interactions (store t) ++ [row]
  /\ products (store t') = products (store t)
  /\ users t' = users t
  /\ body_valid interaction = true
  /\ (ic_interaction_type interaction = "rating"%string ->
      exists r, ic_rating interaction = Some r)
  /\ In (ic_user_id interaction) (users t)
  /\ In (ic_product_id interaction) (map p_id (products (store t)))
  /\ (valid_ratings (store t) -> valid_ratings (store t')).
Proof.
  intros H. apply track_interaction_inl in H.
  destruct H as [Htype [Hrat Hins]].
  apply insert_Some in Hins.
  destruct Hins as [Hrow [-> [_ [Hu [Hp Hr]]]]]. simpl.
  split; [assumption|]. split; [reflexivity|]. split; [reflexivity|].
  split; [reflexivity|]. split; [|split; [|split; [|split]]];
    try assumption.
  - unfold body_valid. rewrite Htype. simpl.
    destruct (ic_rating interaction) as [r|]; [|reflexivity].
    specialize (Hr r eq_refl). apply andb_true_iff.
    split; apply Z.leb_le; lia.
  - intros E. apply Hrat. rewrite E. reflexivity.
  - intros Hv i r Hi Hir. simpl in Hi. apply in_app_or in Hi.
    destruct Hi as [Hi|[<-|[]]]; [now apply (Hv i r Hi)|].
    rewrite Hrow in Hir. simpl in Hir. now apply Hr.
Qed.

(** X26 applies to a purchase of product 2 by user 1 of [db_three]. *)
Lemma track_interaction_stores_request_witness :
  exists row t',
    track_interaction (mkInteractionCreate 1 2 "purchase" None) 6 105
                      (mkTables db_three [1; 2; 3])
    = (inl row, t')
    /\ row = mkInteraction 6 1 2 "purchase" None 105
    /\ interactions (store t') = interactions db_three ++ [row]
    /\ products (store t') = products db_three
    /\ users t' = [1; 2; 3]
    /\ body_valid (mkInteractionCreate 1 2 "purchase" None) = true
    /\ ("purchase"%string = "rating"%string ->
        exists r, @None Z = Some r)
    /\ In 1 [1; 2; 3]
    /\ In 2 (map p_id (products db_three))
    /\ (valid_ratings db_three
        -> valid_ratings (store t')).
Proof.
  eexists. eexists. split; [vm_compute; reflexivity|].
  eapply (@track_interaction_stores_request
            (mkInteractionCreate 1 2 "purchase" None) 6 105
            (mkTables db_three [1; 2; 3])).
  vm_compute. reflexivity.
Defined.





(** X29.  [get_user_interactions] answers a negative [limit] with status
    500 and otherwise with [min(limit, number of joined rows)] rows, which
    is its [count]; every row is an interaction of the queried user joined
    with its product; the rows come latest first; and the tables are not
    changed. *)
Theorem get_user_interactions_latest_first
        (user_id limit : Z) (t : Tables) :
  snd (get_user_interactions user_id limit t) = t
  /\ match fst (get_user_interactions user_id limit t) with
     | inr e => limit < 0 /\ e = HTTPException 500
     | inl response =>
         0 <= limit
         /\ ir_user_id response = user_id
         /\ ir_count response = List.length (ir_interactions response)
         /\ ir_count response
            = Nat.min (Z.to_nat limit)
                      (List.length (joined (store t) user_id))
         /\ (forall r, In r (ir_interactions response) ->
               row_user_id r = user_id
               /\ exists i p,
                    In i (interactions (store t))
                    /\ In p (products (store t))
                    /\ i_product_id i = p_id p
                    /\ row_id r = i_id i
                    /\ row_timestamp r = i_timestamp i
                    /\ row_product_title r = p_title p)
         /\ StronglySorted
              (fun a b => row_timestamp b <= row_timestamp a)
              (ir_interactions response)
     end.
Proof.
  unfold get_user_interactions.
  destruct (Z.ltb_spec limit 0) as [Hl|Hl]; simpl.
  - split; [reflexivity|]. split; [assumption|reflexivity].
  - split; [reflexivity|]. split; [assumption|].
    split; [reflexivity|]. split; [reflexivity|]. split; [|split].
    + rewrite length_firstn. now rewrite sort_desc_length.
    + intros r Hr. apply In_firstn in Hr. apply sort_desc_In in Hr.
      apply joined_In in Hr.
      destruct Hr as [i [p [Hi [Hp [Hu [Hid ->]]]]]]. simpl.
      split; [assumption|]. exists i, p. repeat split; assumption.
    + apply StronglySorted_firstn. apply sort_desc_Z_sorted.
Qed.

End InteractionsExtras.
